(** * Weather service: ingestion, alerting, aggregation, rate limiting, caching

    A shallow embedding of [weather_service/utils.py] and
    [weather_service/db_utils.py], and the properties of the pipeline
    established on it.

    Conventions of the embedding.
    - Python numbers (the provider's temperatures, the thresholds, the
      reading of [time()]) are rationals [Q]: every finite float and every
      integer is a rational, and the comparisons of the code are exact on
      them.  Where the code computes with floats, in the Kelvin offset,
      the operands and the result are rounded to the nearest double
      ([double_of]), and an integer too large for a double raises.  The
      infinities and NaN are not numbers of the embedding.
    - A naive [datetime] is a number of microseconds on its own time line
      (microseconds are the resolution of [datetime]).  [datetime.now()] is
      on the local line, [datetime.utcnow()] on the UTC line; the two differ
      by the zone's offset.
    - The SQLAlchemy session is a record of three tables and of the objects
      staged by [session.add] and [session.merge].  Every operation that
      reaches the database may raise; a schedule of outcomes held in the
      state decides which ones do.
    - Exceptions are values of [Exc]; a computation is a function from the
      state to a result or an exception, and the state after it. *)

From Stdlib Require Import ZArith QArith Qround Qabs Lqa Lia List String.
From stdpp Require Import gmap strings list fin_maps.

Open Scope string_scope.
Open Scope list_scope.
Open Scope Z_scope.

(** ** Numbers and time *)

Definition Qltb (x y : Q) : bool := negb (Qle_bool y x).

(** *** Doubles

    A Python float is an IEEE 754 double: a sign, 53 significant bits and
    an exponent that puts the last of them between [2^-1074] and [2^971].
    [double_of q] is the rational nearest to [q] among those of that form
    with no upper limit on the exponent, the even one of two that are as
    near; [is_finite] tells whether it is within the largest double. *)

Definition Qpow2 (e : Z) : Q :=
  if 0 <=? e then inject_Z (2 ^ e) else 1 # Z.to_pos (2 ^ (- e)).

(** The integer nearest to [q], the even one of two. *)
Definition round_half_even (q : Q) : Z :=
  let f := Qfloor q in
  match (q - inject_Z f ?= 1 # 2)%Q with
  | Lt => f
  | Gt => f + 1
  | Eq => if Z.even f then f else f + 1
  end.

(** The exponent [e] with [2^e <= q < 2^(e+1)], for a positive [q]. *)
Definition Qlog2 (q : Q) : Z :=
  let l := Z.log2 (Qnum q) - Z.log2 (Z.pos (Qden q)) in
  if Qle_bool (Qpow2 l) q then l else l - 1.

Definition double_of (q : Q) : Q :=
  if Qeq_bool q 0 then 0%Q
  else
    let a := Qabs q in
    let ulp := Qpow2 (Z.max (Qlog2 a) (-1022) - 52) in
    let r := Qred (inject_Z (round_half_even (a / ulp)) * ulp) in
    if Qle_bool 0 q then r else (- r)%Q.

Definition double_max : Q := inject_Z ((2 ^ 53 - 1) * 2 ^ 971).

Definition is_finite (q : Q) : bool := Qle_bool (Qabs (double_of q)) double_max.

(** A naive datetime, in microseconds. *)
Definition datetime := Z.

Definition microseconds_per_second : Z := 1000000.
Definition seconds_per_day : Z := 86400.

(** [datetime.timedelta(seconds=s)] and [datetime.timedelta(hours=h)]. *)
Definition timedelta_seconds (s : Z) : Z := s * microseconds_per_second.
Definition timedelta_hours (h : Z) : Z := timedelta_seconds (h * 3600).

(** The process clock: POSIX time in microseconds and the offset of the
    local zone from UTC in seconds. *)
Record Clock := mkClock {
  posix_us : Z;
  utc_offset : Z
}.

Definition datetime_utcnow (c : Clock) : datetime := posix_us c.
Definition datetime_now (c : Clock) : datetime :=
  posix_us c + timedelta_seconds (utc_offset c).

(** The local times [datetime.fromtimestamp] accepts, in seconds on the
    local time line: up to the last second of year 9999, and from the
    second day of year 1, since CPython also looks at the local time one
    day earlier, to tell a repeated hour. *)
Definition fromtimestamp_min : Z := -62135596800 + seconds_per_day.
Definition fromtimestamp_max : Z := 253402300799.

Definition in_datetime_range (offset ts : Z) : bool :=
  (fromtimestamp_min <=? ts + offset) && (ts + offset <=? fromtimestamp_max).

(** ** Rows, staged objects and the session *)

(** The dictionary built by [fetch_weather_data]. *)
Record WeatherData := mkWeatherData {
  wd_dt : datetime;
  wd_main_condition : string;
  wd_temp : Q;
  wd_feels_like : Q;
  wd_pressure : Q;
  wd_humidity : Q;
  wd_rain : Q;
  wd_clouds : Q;
  wd_city : string
}.

Record RealtimeWeather := mkRealtimeWeather {
  rw_dt : datetime;
  rw_main_condition : string;
  rw_temp : Q;
  rw_feels_like : Q;
  rw_pressure : Q;
  rw_humidity : Q;
  rw_rain : Q;
  rw_clouds : Q;
  rw_city : string
}.

Record DailyWeather := mkDailyWeather {
  dw_date : Z;
  dw_city : string;
  dw_avg_temp : Q;
  dw_max_temp : Q;
  dw_min_temp : Q;
  dw_dom_condition : string
}.

Record AlertEvent := mkAlertEvent {
  ae_dt : datetime;
  ae_city : string;
  ae_reason : string;
  ae_trigger : string
}.

Inductive Pending :=
  | AddRealtime (r : RealtimeWeather)
  | AddAlert (a : AlertEvent)
  | MergeDaily (d : DailyWeather).

(** [TimestampOutOfRange] stands for what [datetime.fromtimestamp] raises
    on a timestamp it does not accept: [ValueError] for a year outside 1
    to 9999, [OSError] or [OverflowError] further out, by the platform.
    [OverflowError] is raised where an integer too large for a double
    meets a float. *)
Inductive Exc :=
  | StorageError
  | KeyError (key : string)
  | IndexError
  | TypeError (msg : string)
  | RequestFailed (status_code : Z)
  | TimestampOutOfRange
  | OverflowError.

Record World := mkWorld {
  realtime_weather : list RealtimeWeather;
  daily_weather : list DailyWeather;
  alert_events : list AlertEvent;
  pending : list Pending;
  faults : list bool;
  stdout : list string
}.

Definition set_realtime (f : list RealtimeWeather -> list RealtimeWeather) (w : World) : World :=
  mkWorld (f (realtime_weather w)) (daily_weather w) (alert_events w)
          (pending w) (faults w) (stdout w).

Definition set_daily (f : list DailyWeather -> list DailyWeather) (w : World) : World :=
  mkWorld (realtime_weather w) (f (daily_weather w)) (alert_events w)
          (pending w) (faults w) (stdout w).

Definition set_alerts (f : list AlertEvent -> list AlertEvent) (w : World) : World :=
  mkWorld (realtime_weather w) (daily_weather w) (f (alert_events w))
          (pending w) (faults w) (stdout w).

Definition set_pending (f : list Pending -> list Pending) (w : World) : World :=
  mkWorld (realtime_weather w) (daily_weather w) (alert_events w)
          (f (pending w)) (faults w) (stdout w).

Definition set_faults (f : list bool -> list bool) (w : World) : World :=
  mkWorld (realtime_weather w) (daily_weather w) (alert_events w)
          (pending w) (f (faults w)) (stdout w).

Definition set_stdout (f : list string -> list string) (w : World) : World :=
  mkWorld (realtime_weather w) (daily_weather w) (alert_events w)
          (pending w) (faults w) (f (stdout w)).

(** ** The monad of the embedding *)

Definition M (A : Type) : Type := World -> (Exc + A) * World.

Definition ret {A} (a : A) : M A := fun w => (inr a, w).

Definition raise {A} (e : Exc) : M A := fun w => (inl e, w).

Definition bind {A B} (c : M A) (k : A -> M B) : M B :=
  fun w => match c w with
           | (inl e, w') => (inl e, w')
           | (inr a, w') => k a w'
           end.

(** [try: c except Exception as e: h e]. *)
Definition try_except {A} (c : M A) (h : Exc -> M A) : M A :=
  fun w => match c w with
           | (inl e, w') => h e w'
           | (inr a, w') => (inr a, w')
           end.

Definition modify (f : World -> World) : M unit := fun w => (inr tt, f w).

Definition gets {A} (f : World -> A) : M A := fun w => (inr (f w), w).

Notation "x <- c ;; k" := (bind c (fun x => k))
  (at level 100, c at next level, right associativity).
Notation "c ;; k" := (bind c (fun _ => k))
  (at level 100, right associativity).

Definition print (line : string) : M unit :=
  modify (set_stdout (fun out => out ++ [line])).

(** [datetime.fromtimestamp(ts)] for an integral number of seconds, in a
    zone [offset] seconds east of UTC. *)
Definition datetime_fromtimestamp (offset : Z) (ts : Z) : M datetime :=
  if in_datetime_range offset ts
  then ret (timedelta_seconds (ts + offset))
  else raise TimestampOutOfRange.

(** An operand of float arithmetic: a float is taken as it is, an integer
    is converted to the nearest float, which raises when the integer is
    beyond the doubles.  (A number that is no double and no integer stands
    for the literal the payload held and is read as the float nearest to
    it.) *)
Definition float_of (x : Q) : M Q :=
  if is_finite x then ret (double_of x) else raise OverflowError.

(** [x - y] where one operand is a float.  The difference of two doubles
    is rounded to a double; it stays within the doubles when one of them
    is as small as the one subtrahend of the code, 273.15. *)
Definition float_sub (x y : Q) : M Q :=
  a <- float_of x ;;
  b <- float_of y ;;
  ret (double_of (a - b)).

(** One round trip to the database: it raises when the next scheduled
    outcome is a fault.  An exhausted schedule means no further fault. *)
Definition storage_op : M unit :=
  fun w => match faults w with
           | true :: fs => (inl StorageError, set_faults (fun _ => fs) w)
           | false :: fs => (inr tt, set_faults (fun _ => fs) w)
           | [] => (inr tt, w)
           end.

(** ** The daily table and its primary key *)

(** Modelled from the spec: the schema of [db_models.DailyWeather] is not
    part of the sources; the spec keeps one summary per (city, date), so
    that pair is taken as the primary key [session.merge] looks rows up by. *)
Definition daily_key (d : DailyWeather) : string * Z := (dw_city d, dw_date d).

Definition same_key (d e : DailyWeather) : bool :=
  bool_decide (daily_key d = daily_key e).

Definition has_key (d : DailyWeather) (t : list DailyWeather) : bool :=
  existsb (same_key d) t.

(** The effect of a merged object on the table when it is flushed: the row
    with its primary key, [daily_key], takes its values, or a row is
    added. *)
Definition upsert (d : DailyWeather) (t : list DailyWeather) : list DailyWeather :=
  if has_key d t
  then map (fun e => if same_key d e then d else e) t
  else t ++ [d].

Definition flush_one (p : Pending) (w : World) : World :=
  match p with
  | AddRealtime r => set_realtime (fun t => t ++ [r]) w
  | AddAlert a => set_alerts (fun t => t ++ [a]) w
  | MergeDaily d => set_daily (upsert d) w
  end.

Definition flush (w : World) : World :=
  set_pending (fun _ => []) (fold_left (fun w p => flush_one p w) (pending w) w).

(** ** Session operations *)

Definition session_add (p : Pending) : M unit :=
  modify (set_pending (fun ps => ps ++ [p])).

(** [session.merge] loads the row of the same key, then stages the object. *)
Definition session_merge (d : DailyWeather) : M unit :=
  storage_op ;; modify (set_pending (fun ps => ps ++ [MergeDaily d])).

(** [session.commit()]: the staged objects are written when the round
    trip succeeds and stay staged when it fails.  A session whose commit
    failed refuses further work until it is rolled back, which the code
    never does; the embedding does not follow a session past a failed
    commit other than to hand the exception to the caller. *)
Definition session_commit : M unit :=
  storage_op ;; modify flush.

(** [session.query(RealtimeWeather).filter(p).delete(...)]. *)
Definition query_realtime_delete (p : RealtimeWeather -> bool) : M unit :=
  storage_op ;; modify (set_realtime (filter (fun r => negb (p r)))).

(** ** db_utils.py: retention and insertion *)

Definition cleanup_old_realtime_weather (now : datetime) : M unit :=
  let cutoff_time := now - timedelta_hours 24 in
  query_realtime_delete (fun r => rw_dt r <? cutoff_time) ;;
  session_commit.

Definition insert_realtime_weather (now : datetime)
    (dt : datetime) (main_condition : string)
    (temp feels_like pressure humidity rain clouds : Q) (city : string) : M unit :=
  cleanup_old_realtime_weather now ;;
  let new_data :=
    mkRealtimeWeather dt main_condition temp feels_like pressure humidity
                      rain clouds city in
  session_add (AddRealtime new_data) ;;
  session_commit.

Definition insert_alert_event (dt : datetime) (city trigger reason : string) : M unit :=
  let new_event := mkAlertEvent dt city reason trigger in
  session_add (AddAlert new_event) ;;
  session_commit.

(** ** Rendering of values in messages *)

(** What [str] produces for a number, for a list of numbers and for an
    exception; the texts themselves play no part in the properties. *)
Class PyRepr := {
  str_num : Q -> string;
  str_list : list Q -> string;
  str_exc : Exc -> string
}.

(** ** utils.py: the ingest entry point *)

Section Ingest.
Context `{PyRepr}.

Definition insert_fetched_data (now : datetime) (weather_data : WeatherData) : M unit :=
  try_except
    (insert_realtime_weather now
       (wd_dt weather_data)
       (wd_main_condition weather_data)
       (wd_temp weather_data)
       (wd_feels_like weather_data)
       (wd_pressure weather_data)
       (wd_humidity weather_data)
       (wd_rain weather_data)
       (wd_clouds weather_data)
       (wd_city weather_data))
    (fun e =>
       print ("Failed to insert data for " +:+ wd_city weather_data +:+ ": " +:+ str_exc e)).

End Ingest.

(** ** utils.py: thresholds *)

Record Thresholds := mkThresholds {
  th_temp : list Q;
  th_feels_like : list Q;
  th_pressure : list Q;
  th_humidity : list Q;
  th_rain : list Q;
  th_clouds : list Q
}.

Definition get_thresholds (self : Thresholds) : gmap string (list Q) :=
  <["temp" := th_temp self]>
  (<["feels_like" := th_feels_like self]>
  (<["pressure" := th_pressure self]>
  (<["humidity" := th_humidity self]>
  (<["rain" := th_rain self]>
  (<["clouds" := th_clouds self]> ∅))))).

(** The parameter names of [update_thresholds]. *)
Definition metric_names : gset string :=
  {[ "temp"; "feels_like"; "pressure"; "humidity"; "rain"; "clouds" ]}.

(** [update_thresholds] has six required parameters and is called with a
    dictionary of keyword arguments (the dashboard unpacks the edited
    table into the call).  Python binds the arguments before the body runs: a missing
    or an unexpected name raises [TypeError] and the object is untouched. *)
Definition update_thresholds (self : Thresholds) (kwargs : gmap string (list Q))
    : (Exc + unit) * Thresholds :=
  match kwargs !! "temp", kwargs !! "feels_like", kwargs !! "pressure",
        kwargs !! "humidity", kwargs !! "rain", kwargs !! "clouds" with
  | Some temp, Some feels_like, Some pressure, Some humidity, Some rain, Some clouds =>
      if bool_decide (dom kwargs ⊆ metric_names)
      then (inr tt, mkThresholds temp feels_like pressure humidity rain clouds)
      else (inl (TypeError "got an unexpected keyword argument"), self)
  | _, _, _, _, _, _ =>
      (inl (TypeError "missing required positional argument"), self)
  end.

(** The module-level default. *)
Definition thresholds : Thresholds :=
  mkThresholds [0%Q; 100%Q] [0%Q; 100%Q] [0%Q; 1000%Q]
               [0%Q; 100%Q] [0%Q; 100%Q] [0%Q; 100%Q].

(** ** utils.py: alert evaluation *)

(** [d[key]] on a dictionary and [l[i]] on a list. *)
Definition subscript {V} (d : gmap string V) (key : string) : M V :=
  match d !! key with
  | Some v => ret v
  | None => raise (KeyError key)
  end.

Definition index {V} (l : list V) (i : nat) : M V :=
  match l !! i with
  | Some v => ret v
  | None => raise IndexError
  end.

(** [v < thresholds[key][0] or v > thresholds[key][1]]; the right operand
    of [or] is evaluated only when the left one is false. *)
Definition exceeds (v : Q) (thresholds : gmap string (list Q)) (key : string) : M bool :=
  low <- (r <- subscript thresholds key ;; index r 0) ;;
  if Qltb v low then ret true
  else
    high <- (r <- subscript thresholds key ;; index r 1) ;;
    ret (Qltb high v).

Section Alerts.
Context `{PyRepr}.

(** One [if] block of [check_data_against_alerts]. *)
Definition check_metric (weather_data : WeatherData) (thresholds : gmap string (list Q))
    (v : Q) (key trigger found exceeded : string) : M unit :=
  b <- exceeds v thresholds key ;;
  if b then
    r <- subscript thresholds key ;;
    insert_alert_event (wd_dt weather_data) (wd_city weather_data) trigger
      (found +:+ str_num v +:+ " but threshold is " +:+ str_list r) ;;
    print (exceeded +:+ wd_city weather_data)
  else ret tt.

Definition check_data_against_alerts (weather_data : WeatherData)
    (thresholds : gmap string (list Q)) : M unit :=
  check_metric weather_data thresholds (wd_temp weather_data)
    "temp" "Temperature" "Found temp: " "Temperature threshold exceeded for " ;;
  check_metric weather_data thresholds (wd_feels_like weather_data)
    "feels_like" "Feels Like" "Found feels like: " "Feels like threshold exceeded for " ;;
  check_metric weather_data thresholds (wd_pressure weather_data)
    "pressure" "Pressure" "Found pressure: " "Pressure threshold exceeded for " ;;
  check_metric weather_data thresholds (wd_humidity weather_data)
    "humidity" "Humidity" "Found humidity: " "Humidity threshold exceeded for " ;;
  check_metric weather_data thresholds (wd_rain weather_data)
    "rain" "Rain" "Found rain: " "Rain threshold exceeded for " ;;
  check_metric weather_data thresholds (wd_clouds weather_data)
    "clouds" "Clouds" "Found clouds: " "Clouds threshold exceeded for ".

End Alerts.

(** ** db_utils.py: daily aggregation *)

Definition microseconds_per_day : Z := timedelta_seconds seconds_per_day.

(** [func.date(dt)], and [datetime.combine(day, time.min)] and
    [datetime.combine(day, time.max)]; a date is a number of days. *)
Definition date_of (dt : datetime) : Z := dt / microseconds_per_day.
Definition combine_min (day : Z) : datetime := day * microseconds_per_day.
Definition combine_max (day : Z) : datetime :=
  day * microseconds_per_day + (microseconds_per_day - 1).

Record AggRow := mkAggRow {
  ar_city : string;
  ar_date : Z;
  ar_avg_temp : Q;
  ar_max_temp : Q;
  ar_min_temp : Q;
  ar_dom_condition : string
}.

Definition Qmax2 (a b : Q) : Q := if Qltb a b then b else a.
Definition Qmin2 (a b : Q) : Q := if Qltb b a then b else a.
Definition strmax2 (a b : string) : string := if String.ltb a b then b else a.

(** The aggregates of SQL over the rows of one group.  [max] and [min]
    return one of the values.  [avg] adds doubles up and divides, and how
    the sums are rounded on the way is the engine's own affair: the
    average is a function of the values in the order of the rows, given by
    the engine at hand. *)
Class SqlEngine := {
  sql_avg : list Q -> Q
}.

Definition sql_max (l : list Q) : Q :=
  match l with [] => 0%Q | x :: r => fold_left Qmax2 r x end.
Definition sql_min (l : list Q) : Q :=
  match l with [] => 0%Q | x :: r => fold_left Qmin2 r x end.
Definition sql_max_str (l : list string) : string :=
  match l with [] => "" | x :: r => fold_left strmax2 r x end.

Definition group_key (r : RealtimeWeather) : string * Z := (rw_city r, date_of (rw_dt r)).

Definition in_group (k : string * Z) (r : RealtimeWeather) : bool :=
  bool_decide (group_key r = k).

Fixpoint for_each {A} (f : A -> M unit) (l : list A) : M unit :=
  match l with
  | [] => ret tt
  | x :: r => f x ;; for_each f r
  end.

Section Aggregation.
Context `{SqlEngine}.

Definition aggregate_group (rows : list RealtimeWeather) (k : string * Z) : AggRow :=
  let g := filter (fun r => in_group k r) rows in
  mkAggRow (fst k) (snd k)
           (sql_avg (map rw_temp g))
           (sql_max (map rw_temp g))
           (sql_min (map rw_temp g))
           (sql_max_str (map rw_main_condition g)).

(** The grouped query of [aggregate_daily_weather]: one result row per
    (city, date) among the rows of the day, in order of first appearance. *)
Definition query_daily_aggregates (start_time end_time : datetime) : M (list AggRow) :=
  storage_op ;;
  rows <- gets realtime_weather ;;
  let selected :=
    filter (fun r => (start_time <=? rw_dt r) && (rw_dt r <=? end_time)) rows in
  ret (map (aggregate_group selected) (remove_dups (map group_key selected))).

Definition aggregate_daily_weather (today : Z) : M unit :=
  let start_time := combine_min today in
  let end_time := combine_max today in
  result <- query_daily_aggregates start_time end_time ;;
  for_each (fun row =>
      let daily_weather :=
        mkDailyWeather (ar_date row) (ar_city row) (ar_avg_temp row)
                       (ar_max_temp row) (ar_min_temp row) (ar_dom_condition row) in
      session_merge daily_weather) result ;;
  session_commit.

End Aggregation.

(** ** utils.py: rate limiting *)

Record Request := mkRequest {
  client_host : string
}.

Record RequestInfo := mkRequestInfo {
  count : Z;
  timestamp : Q
}.

Inductive HTTPException := mkHTTPException (status_code : Z) (detail : string).

Section RateLimit.
Context {App Resp : Type}.
Variables (limit interval : Z).
Variable func : Request -> App -> Resp * App.

(** The wrapper of [rate_limit(limit, interval)(func)].  [current_time]
    is the reading of [time()], [request_counts] the module-level
    dictionary; the entry of the client is updated in place. *)
Definition rate_limit (request : Request) (current_time : Q)
    (request_counts : gmap string RequestInfo) (app : App)
    : (HTTPException + Resp) * gmap string RequestInfo * App :=
  let client_ip := client_host request in
  let request_info :=
    match request_counts !! client_ip with
    | Some info => info
    | None => mkRequestInfo 0 current_time
    end in
  let request_info :=
    if Qltb (inject_Z interval) (current_time - timestamp request_info)
    then mkRequestInfo 0 current_time
    else request_info in
  let request_info :=
    mkRequestInfo (count request_info + 1) (timestamp request_info) in
  let request_counts := <[client_ip := request_info]> request_counts in
  if limit <? count request_info
  then (inl (mkHTTPException 429 "Rate limit exceeded"), request_counts, app)
  else let '(response, app') := func request app in
       (inr response, request_counts, app').

(** A sequence of calls, each with the clock reading it is made at. *)
Fixpoint serve (calls : list (Request * Q))
    (request_counts : gmap string RequestInfo) (app : App)
    : list (Request * (HTTPException + Resp)) * gmap string RequestInfo * App :=
  match calls with
  | [] => ([], request_counts, app)
  | (request, current_time) :: rest =>
      let '(r, request_counts', app') :=
        rate_limit request current_time request_counts app in
      let '(rs, request_counts'', app'') := serve rest request_counts' app' in
      ((request, r) :: rs, request_counts'', app'')
  end.

End RateLimit.

Definition let_through {Resp} (r : HTTPException + Resp) : bool :=
  match r with inl _ => false | inr _ => true end.

(** The outcomes of the calls of one client, in order. *)
Definition outcomes_of {Resp} (ip : string)
    (rs : list (Request * (HTTPException + Resp))) : list bool :=
  map (fun x => let_through (snd x))
      (filter (fun x => client_host (fst x) = ip) rs).

Definition calls_of (ip : string) (calls : list (Request * Q)) : list (Request * Q) :=
  filter (fun x => client_host (fst x) = ip) calls.

(** ** utils.py: caching with a timeout *)

Record CacheEntry (V : Type) := mkCacheEntry {
  ce_value : V;
  ce_timestamp : datetime
}.
Arguments mkCacheEntry {V}.
Arguments ce_value {V}.
Arguments ce_timestamp {V}.

Section Cache.
Context {K : Type} `{Countable K} {V Env : Type}.
Variable timeout : Z.
(** The clock is part of the environment the wrapped function runs in:
    time passes while it runs. *)
Variable clock : Env -> Clock.
Variable func : K -> Env -> V * Env.

(** The wrapper of [cache_with_timeout(timeout)(func)]; [key] stands for
    the pair of the positional and the keyword arguments. *)
Definition cache_with_timeout (key : K) (cache : gmap K (CacheEntry V)) (env : Env)
    : V * gmap K (CacheEntry V) * Env :=
  let miss :=
    let '(result, env') := func key env in
    (result,
     <[key := mkCacheEntry result (datetime_utcnow (clock env'))]> cache,
     env') in
  match cache !! key with
  | Some entry =>
      if datetime_now (clock env) - ce_timestamp entry <? timedelta_seconds timeout
      then (ce_value entry, cache, env)
      else miss
  | None => miss
  end.

End Cache.

(** ** utils.py: fetching a reading *)

Record GeoResponse := mkGeoResponse {
  geo_status_code : Z;
  geo_json : list (gmap string Q)
}.

(** The body of the weather call.  A key of the top-level object may be
    absent; the nested objects are dictionaries. *)
Record WeatherPayload := mkWeatherPayload {
  p_dt : option Z;
  p_weather : option (list (gmap string string));
  p_main : option (gmap string Q);
  p_rain : option (gmap string Q);
  p_clouds : option (gmap string Q)
}.

Record WeatherResponse := mkWeatherResponse {
  w_status_code : Z;
  w_json : WeatherPayload
}.

Definition required {V} (key : string) (o : option V) : M V :=
  match o with
  | Some v => ret v
  | None => raise (KeyError key)
  end.

Section Fetch.
(** The two calls to the provider, and the offset of the local zone. *)
Variable geo_api : string -> string -> GeoResponse.
Variable weather_api : string -> option Q -> option Q -> string -> WeatherResponse.
Variable local_offset : Z.

Definition get_lat_lon_for_city (city api_key : string) : M (option Q * option Q) :=
  let response := geo_api city api_key in
  if geo_status_code response =? 200 then
    data <- index (geo_json response) 0 ;;
    ret (data !! "lat", data !! "lon")
  else raise (RequestFailed (geo_status_code response)).

(** The entries of the result are evaluated in the order they are
    written in: the timestamp is converted before [weather] is read, and
    each temperature is computed before the next entry is read. *)
Definition fetch_weather_data (api_url api_key city : string) : M WeatherData :=
  latlon <- get_lat_lon_for_city city api_key ;;
  let response := weather_api api_url (fst latlon) (snd latlon) api_key in
  if w_status_code response =? 200 then
    let data := w_json response in
    dt <- (ts <- required "dt" (p_dt data) ;;
           datetime_fromtimestamp local_offset ts) ;;
    main_condition <-
      (ws <- required "weather" (p_weather data) ;;
       w0 <- index ws 0 ;; subscript w0 "main") ;;
    temp <-
      (m <- required "main" (p_main data) ;;
       t <- subscript m "temp" ;; float_sub t 273.15) ;;
    feels_like <-
      (m <- required "main" (p_main data) ;;
       t <- subscript m "feels_like" ;; float_sub t 273.15) ;;
    pressure <- (m <- required "main" (p_main data) ;; subscript m "pressure") ;;
    humidity <- (m <- required "main" (p_main data) ;; subscript m "humidity") ;;
    let rain := default 0%Q (default ∅ (p_rain data) !! "1h") in
    clouds <- (c <- required "clouds" (p_clouds data) ;; ret (default 0%Q (c !! "all"))) ;;
    ret (mkWeatherData dt main_condition temp feels_like pressure humidity
                       rain clouds city)
  else raise (RequestFailed (w_status_code response)).

End Fetch.

(** ** db_utils.py: exports *)

(** The values found in the attribute dictionary of a loaded row. *)
Inductive PyValue :=
  | PyStr (s : string)
  | PyNum (q : Q)
  | PyDate (d : Z)
  | PyDatetime (dt : datetime)
  | PyInstanceState.

Inductive Json :=
  | JStr (s : string)
  | JNum (q : Q).

(** [data.__dict__] of a row loaded by a query: the mapped attributes,
    and SQLAlchemy's bookkeeping entry under [_sa_instance_state]. *)
Definition daily_dict (d : DailyWeather) : list (string * PyValue) :=
  [("_sa_instance_state", PyInstanceState);
   ("date", PyDate (dw_date d));
   ("city", PyStr (dw_city d));
   ("avg_temp", PyNum (dw_avg_temp d));
   ("max_temp", PyNum (dw_max_temp d));
   ("min_temp", PyNum (dw_min_temp d));
   ("dom_condition", PyStr (dw_dom_condition d))].

Definition realtime_dict (r : RealtimeWeather) : list (string * PyValue) :=
  [("_sa_instance_state", PyInstanceState);
   ("dt", PyDatetime (rw_dt r));
   ("main_condition", PyStr (rw_main_condition r));
   ("temp", PyNum (rw_temp r));
   ("feels_like", PyNum (rw_feels_like r));
   ("pressure", PyNum (rw_pressure r));
   ("humidity", PyNum (rw_humidity r));
   ("rain", PyNum (rw_rain r));
   ("clouds", PyNum (rw_clouds r));
   ("city", PyStr (rw_city r))].

(** [json.dumps] on one value: strings and numbers are encoded; anything
    else goes through [default] when one is given and raises otherwise. *)
Definition dumps_value (default : option (PyValue -> string)) (v : PyValue) : M Json :=
  match v with
  | PyStr s => ret (JStr s)
  | PyNum q => ret (JNum q)
  | _ => match default with
         | Some f => ret (JStr (f v))
         | None => raise (TypeError "Object is not JSON serializable")
         end
  end.

Fixpoint map_m {A B} (f : A -> M B) (l : list A) : M (list B) :=
  match l with
  | [] => ret []
  | x :: r => y <- f x ;; ys <- map_m f r ;; ret (y :: ys)
  end.

(** [json.dumps] on a list of dictionaries: an array of objects. *)
Definition json_dumps (default : option (PyValue -> string))
    (rows : list (list (string * PyValue))) : M (list (list (string * Json))) :=
  map_m (map_m (fun kv => j <- dumps_value default (snd kv) ;; ret (fst kv, j))) rows.

(** [item.pop(key, None)]. *)
Definition dict_pop (key : string) (d : list (string * PyValue)) : list (string * PyValue) :=
  filter (fun kv => negb (String.eqb (fst kv) key)) d.

Definition get_alerts : M (list AlertEvent) :=
  storage_op ;; gets alert_events.

Definition get_historical_data : M (list (list (string * Json))) :=
  historical_data <- (storage_op ;; gets daily_weather) ;;
  json_dumps None (map daily_dict historical_data).

Definition get_realtime_data (str : PyValue -> string) : M (list (list (string * Json))) :=
  realtime_data <- (storage_op ;; gets realtime_weather) ;;
  let data_list := map realtime_dict realtime_data in
  let data_list := map (dict_pop "_sa_instance_state") data_list in
  json_dumps (Some str) data_list.

(** ** Conditions on the session, and sample data *)

(** No fault is scheduled. *)
Definition no_fault (w : World) : Prop := Forall (fun b => b = false) (faults w).

(** Nothing is staged in the session. *)
Definition clean (w : World) : Prop := pending w = [].

(** The next scheduled outcome, and the schedule after one operation. *)
Definition next_fault (w : World) : bool := hd false (faults w).
Definition advance (w : World) : World := set_faults (@tail bool) w.

(** A session for the examples: one reading far in the past, one exactly
    24 hours before the clock reading used below, one recent. *)
Definition reading_at (dt : datetime) (city : string) : RealtimeWeather :=
  mkRealtimeWeather dt "Clear" 20%Q 21%Q 1000%Q 40%Q 0%Q 10%Q city.

Definition sample_now : datetime := timedelta_hours 48.

Definition sample_world : World :=
  mkWorld [reading_at 5 "Delhi";
           reading_at (timedelta_hours 24) "Delhi";
           reading_at (timedelta_hours 30) "Pune"]
          [] [] [] [] [].

Definition plain_repr : PyRepr :=
  {| str_num := fun _ => "<number>";
     str_list := fun _ => "<list>";
     str_exc := fun e => match e with
                         | StorageError => "StorageError"
                         | KeyError k => "KeyError: " +:+ k
                         | IndexError => "IndexError"
                         | TypeError m => "TypeError: " +:+ m
                         | RequestFailed _ => "API request failed"
                         | TimestampOutOfRange => "year is out of range"
                         | OverflowError => "int too large to convert to float"
                         end |}.

Definition sample_reading : WeatherData :=
  mkWeatherData (timedelta_hours 47) "Rain" 18%Q 17%Q 990%Q 80%Q 2%Q 90%Q "Delhi".

(** The commit of the cleanup fails: the call raises, nothing is staged,
    and the caller prints the failure. *)
Definition failing_world : World :=
  mkWorld (realtime_weather sample_world) [] [] [] [false; true] [].

(** ** Alert evaluation, as a table *)

(** The strict comparison against an inclusive range [low, high]. *)
Definition outside (v : Q) (range : list Q) : bool :=
  match range with
  | low :: high :: _ => Qltb v low || Qltb high v
  | _ => false
  end.

(** The six metrics in the order of the checks: trigger name, opening of
    the reason text, observed value and configured range. *)
Definition metric_table (weather_data : WeatherData) (th : Thresholds)
    : list (string * string * Q * list Q) :=
  [("Temperature", "Found temp: ", wd_temp weather_data, th_temp th);
   ("Feels Like", "Found feels like: ", wd_feels_like weather_data, th_feels_like th);
   ("Pressure", "Found pressure: ", wd_pressure weather_data, th_pressure th);
   ("Humidity", "Found humidity: ", wd_humidity weather_data, th_humidity th);
   ("Rain", "Found rain: ", wd_rain weather_data, th_rain th);
   ("Clouds", "Found clouds: ", wd_clouds weather_data, th_clouds th)].

Definition alert_of `{PyRepr} (weather_data : WeatherData)
    (m : string * string * Q * list Q) : list AlertEvent :=
  let '(trigger, found, v, range) := m in
  if outside v range
  then [mkAlertEvent (wd_dt weather_data) (wd_city weather_data)
          (found +:+ str_num v +:+ " but threshold is " +:+ str_list range) trigger]
  else [].

Definition expected_alerts `{PyRepr} (weather_data : WeatherData) (th : Thresholds)
    : list AlertEvent :=
  flat_map (alert_of weather_data) (metric_table weather_data th).

(** The events of one trigger name. *)
Definition with_trigger (trigger : string) (events : list AlertEvent) : list AlertEvent :=
  filter (fun e => ae_trigger e = trigger) events.

(** Every range holds a lower and an upper bound. *)
Definition has_bounds (range : list Q) : Prop := (2 <= length range)%nat.

Definition all_have_bounds (th : Thresholds) : Prop :=
  has_bounds (th_temp th) /\ has_bounds (th_feels_like th)
  /\ has_bounds (th_pressure th) /\ has_bounds (th_humidity th)
  /\ has_bounds (th_rain th) /\ has_bounds (th_clouds th).

(** A hot reading, for the examples. *)
Definition hot_reading : WeatherData :=
  mkWeatherData (timedelta_hours 47) "Clear" 105%Q 30%Q 1013%Q 50%Q 0%Q 10%Q "Delhi".

(** ** Threshold sets *)

(** A range whose lower bound does not exceed its upper bound. *)
Definition ordered (range : list Q) : Prop :=
  match range with
  | low :: high :: _ => (low <= high)%Q
  | _ => False
  end.

Definition all_ordered (th : Thresholds) : Prop :=
  ordered (th_temp th) /\ ordered (th_feels_like th)
  /\ ordered (th_pressure th) /\ ordered (th_humidity th)
  /\ ordered (th_rain th) /\ ordered (th_clouds th).

(** An update whose temperature range is upside down. *)
Definition inverted_update : gmap string (list Q) :=
  get_thresholds
    (mkThresholds [5%Q; 1%Q] [0%Q; 100%Q] [0%Q; 1000%Q]
                  [0%Q; 100%Q] [0%Q; 100%Q] [0%Q; 100%Q]).

(** An update that names two metrics only. *)
Definition partial_update : gmap string (list Q) :=
  <["temp" := [10%Q; 40%Q]]> (<["rain" := [0%Q; 5%Q]]> ∅).

(** ** Rate limiting: windows and sample traffic *)

(** The window of a client after a call at [current_time], from its entry
    before the call. *)
Definition window_after (interval : Z) (current_time : Q) (entry : option RequestInfo)
    : RequestInfo :=
  let info := default (mkRequestInfo 0 current_time) entry in
  let info := if Qltb (inject_Z interval) (current_time - timestamp info)
              then mkRequestInfo 0 current_time else info in
  mkRequestInfo (count info + 1) (timestamp info).

(** The outcomes of [n] calls inside a window whose count is [k]. *)
Fixpoint window_outcomes (limit : Z) (k : Z) (n : nat) : list bool :=
  match n with
  | O => []
  | S n' => negb (limit <? k + 1) :: window_outcomes limit (k + 1) n'
  end.

(** The call arrives no later than [interval] seconds after [start]. *)
Definition within (interval : Z) (start : Q) (call : Request * Q) : Prop :=
  ~ (inject_Z interval < snd call - start)%Q.

(** A handler that counts its invocations. *)
Definition counting_handler (request : Request) (n : nat) : string * nat :=
  ("ok", S n).

Definition alice : Request := mkRequest "10.0.0.1".
Definition bob : Request := mkRequest "10.0.0.2".

(** Three calls of one client within a minute, one of another client
    between them. *)
Definition burst : list (Request * Q) :=
  [(alice, 0%Q); (bob, 5%Q); (alice, 10%Q); (alice, 60%Q)].

(** ** Caching: a sample wrapped operation *)

(** The environment of the examples: the clock and the number of times
    the wrapped operation has run. *)
Record Server := mkServer {
  server_clock : Clock;
  invocations : nat
}.

(** A query that takes two seconds and answers with the number of its run. *)
Definition slow_query (key : string) (s : Server) : nat * Server :=
  (S (invocations s),
   mkServer (mkClock (posix_us (server_clock s) + timedelta_seconds 2)
                     (utc_offset (server_clock s)))
            (S (invocations s))).

(** The environment [seconds] later. *)
Definition later (seconds : Z) (s : Server) : Server :=
  mkServer (mkClock (posix_us (server_clock s) + timedelta_seconds seconds)
                    (utc_offset (server_clock s)))
           (invocations s).

(** A process in a zone five and a half hours east of UTC, and one five
    hours west of it. *)
Definition server_east : Server := mkServer (mkClock (timedelta_seconds 1000000) 19800) O.
Definition server_west : Server := mkServer (mkClock (timedelta_seconds 1000000) (-18000)) O.

(** Two calls of the cached operation with the same key, [gap] seconds
    after the first one has returned; the result of the second call. *)
Definition call_twice (timeout gap : Z) (s : Server) : nat * gmap string (CacheEntry nat) * Server :=
  let '(_, cache, s1) :=
    cache_with_timeout timeout server_clock slow_query "realtime" ∅ s in
  cache_with_timeout timeout server_clock slow_query "realtime" cache (later gap s1).

(** ** Fetching: sample provider answers *)

Definition sample_geo (city api_key : string) : GeoResponse :=
  mkGeoResponse 200 [ <["lat" := 28.6%Q]> (<["lon" := 77.2%Q]> ∅) ].

Definition sample_main : gmap string Q :=
  <["temp" := 300.15%Q]> (<["feels_like" := 303.15%Q]>
  (<["pressure" := 1013%Q]> (<["humidity" := 50%Q]> ∅))).

(** An answer with an empty [clouds] object and no [rain] object. *)
Definition dry_payload : WeatherPayload :=
  mkWeatherPayload (Some 1700000000) (Some [ <["main" := "Clear"]> ∅ ])
                   (Some sample_main) None (Some ∅).

(** The same answer without the [clouds] object. *)
Definition cloudless_payload : WeatherPayload :=
  mkWeatherPayload (Some 1700000000) (Some [ <["main" := "Clear"]> ∅ ])
                   (Some sample_main) None None.

Definition answer (payload : WeatherPayload)
    (api_url : string) (lat lon : option Q) (api_key : string) : WeatherResponse :=
  mkWeatherResponse 200 payload.

Definition empty_world : World := mkWorld [] [] [] [] [] [].

(** ** Aggregation: the summaries of a day *)

Definition daily_of_row (row : AggRow) : DailyWeather :=
  mkDailyWeather (ar_date row) (ar_city row) (ar_avg_temp row)
                 (ar_max_temp row) (ar_min_temp row) (ar_dom_condition row).

(** The readings of [today], and the (city, date) pairs among them. *)
Definition readings_of_day (today : Z) (rows : list RealtimeWeather) : list RealtimeWeather :=
  filter (fun r => (combine_min today <=? rw_dt r) && (rw_dt r <=? combine_max today)) rows.

Definition observed (today : Z) (rows : list RealtimeWeather) : list (string * Z) :=
  remove_dups (map group_key (readings_of_day today rows)).

Section Summaries.
Context `{SqlEngine}.

(** The summary the aggregation computes for one pair. *)
Definition summary_of (today : Z) (rows : list RealtimeWeather) (k : string * Z) : DailyWeather :=
  daily_of_row (aggregate_group (readings_of_day today rows) k).

Definition summaries (today : Z) (rows : list RealtimeWeather) : list DailyWeather :=
  map (summary_of today rows) (observed today rows).

(** The summary a city is to have for a day, told from the stored
    readings by their city and the date of their timestamp alone: the
    aggregates of the temperatures and the conditions of the readings of
    that city dated that day. *)
Definition expected_summary (city : string) (day : Z) (rows : list RealtimeWeather)
    : DailyWeather :=
  let g := filter (fun r => rw_city r = city /\ date_of (rw_dt r) = day) rows in
  mkDailyWeather day city
                 (sql_avg (map rw_temp g))
                 (sql_max (map rw_temp g))
                 (sql_min (map rw_temp g))
                 (sql_max_str (map rw_main_condition g)).

End Summaries.

(** An engine for the examples: the values are added up from the first
    row on, every sum rounded to a double, and the last sum is divided by
    their number. *)
Definition float_add (x y : Q) : Q := double_of (double_of x + double_of y).
Definition float_div (x y : Q) : Q := double_of (double_of x / double_of y).

Definition running_sum : SqlEngine :=
  {| sql_avg := fun l => float_div (fold_left float_add l 0%Q)
                                   (inject_Z (Z.of_nat (length l))) |}.

(** Three readings of 27.1 degrees, as doubles. *)
Definition three_readings : list Q := [double_of 27.1; double_of 27.1; double_of 27.1].

Definition upsert_all (ds : list DailyWeather) (t : list DailyWeather) : list DailyWeather :=
  fold_left (fun t d => upsert d t) ds t.

(** The table holds the values of [d] under the key of [d], and under no
    other row of that key. *)
Definition settled (d : DailyWeather) (t : list DailyWeather) : Prop :=
  has_key d t = true /\ forall e, e ∈ t -> daily_key e = daily_key d -> e = d.

(** The primary key of the daily table: no two rows with one key. *)
Definition keyed (t : list DailyWeather) : Prop := NoDup (map daily_key t).

(** The rows of the table under one key. *)
Definition rows_of (k : string * Z) (t : list DailyWeather) : list DailyWeather :=
  filter (fun e => daily_key e = k) t.

(** Day 2 with two readings for Delhi and one for Pune, a reading of the
    day before, and a summary for Delhi already stored. *)
Definition day2 (hours : Z) : datetime := timedelta_hours (48 + hours).

Definition aggregation_world : World :=
  mkWorld [mkRealtimeWeather (day2 1) "Clear" 20%Q 21%Q 1000%Q 40%Q 0%Q 10%Q "Delhi";
           mkRealtimeWeather (day2 5) "Rain" 30%Q 31%Q 1000%Q 40%Q 0%Q 10%Q "Delhi";
           mkRealtimeWeather (day2 7) "Haze" 25%Q 26%Q 1000%Q 40%Q 0%Q 10%Q "Pune";
           mkRealtimeWeather (timedelta_hours 30) "Snow" 1%Q 1%Q 1000%Q 40%Q 0%Q 10%Q "Pune"]
          [mkDailyWeather 2 "Delhi" 0%Q 0%Q 0%Q "Fog"]
          [] [] [] [].

(** ** Exports: sample data *)

(** A store with one daily summary and one reading. *)
Definition history_world : World :=
  mkWorld [reading_at (timedelta_hours 30) "Pune"]
          [mkDailyWeather 2 "Delhi" 25%Q 30%Q 20%Q "Rain"]
          [] [] [] [].

(** A rendering of dates and datetimes for [default=str]. *)
Definition plain_str (v : PyValue) : string :=
  match v with
  | PyStr s => s
  | PyNum _ => "<number>"
  | PyDate _ => "<date>"
  | PyDatetime _ => "<datetime>"
  | PyInstanceState => "<InstanceState>"
  end.

(** ** Further sample data *)

(** The insert's commit fails after a cleanup that went through. *)
Definition late_fault_world : World :=
  mkWorld (realtime_weather sample_world) [] [] [] [false; false; true] [].

(** ** Alert evaluation: further notions *)

(** The keys of the threshold dictionary, in the order of the checks. *)
Definition metric_keys : list string :=
  ["temp"; "feels_like"; "pressure"; "humidity"; "rain"; "clouds"].

(** The alert table only grew between two states. *)
Definition alerts_grow (w w' : World) : Prop :=
  alert_events w `prefix_of` alert_events w'.

(** The computation leaves every state in a state related to it by [R]. *)
Definition keeps {A} (R : World -> World -> Prop) (c : M A) : Prop :=
  forall w, R w (snd (c w)).

(** The lines printed for a reading, in the order of the checks. *)
Definition breach_lines (weather_data : WeatherData) (th : Thresholds) : list string :=
  flat_map
    (fun m : string * Q * list Q =>
       let '(label, v, range) := m in
       if outside v range then [label +:+ wd_city weather_data] else [])
    [("Temperature threshold exceeded for ", wd_temp weather_data, th_temp th);
     ("Feels like threshold exceeded for ", wd_feels_like weather_data, th_feels_like th);
     ("Pressure threshold exceeded for ", wd_pressure weather_data, th_pressure th);
     ("Humidity threshold exceeded for ", wd_humidity weather_data, th_humidity th);
     ("Rain threshold exceeded for ", wd_rain weather_data, th_rain th);
     ("Clouds threshold exceeded for ", wd_clouds weather_data, th_clouds th)].

(** The first storage operation fails. *)
Definition first_fault_world : World :=
  mkWorld (realtime_weather sample_world) [] [] [] [true] [].

(** ** Caching and fetching: further sample data *)

(** A process whose local zone is UTC. *)
Definition server_utc : Server := mkServer (mkClock (timedelta_seconds 1000000) 0) O.

(** A geocoding answer without a match, and refusals of the two calls. *)
Definition no_match (city api_key : string) : GeoResponse := mkGeoResponse 200 [].

Definition geo_refusal (city api_key : string) : GeoResponse := mkGeoResponse 401 [].

Definition weather_refusal
    (api_url : string) (lat lon : option Q) (api_key : string) : WeatherResponse :=
  mkWeatherResponse 429 dry_payload.

(** An answer that holds nothing but a [dt] in year 10000. *)
Definition late_payload : WeatherPayload :=
  mkWeatherPayload (Some 253402300800) None None None None.

(** The object the realtime export builds for a row. *)
Definition realtime_object (str : PyValue -> string) (r : RealtimeWeather)
    : list (string * Json) :=
  [("dt", JStr (str (PyDatetime (rw_dt r))));
   ("main_condition", JStr (rw_main_condition r));
   ("temp", JNum (rw_temp r));
   ("feels_like", JNum (rw_feels_like r));
   ("pressure", JNum (rw_pressure r));
   ("humidity", JNum (rw_humidity r));
   ("rain", JNum (rw_rain r));
   ("clouds", JNum (rw_clouds r));
   ("city", JStr (rw_city r))].

(** ** dash_app_threshold.py: saving the edited table *)

(** A cell of the table as the callback receives it: a JSON number, which
    Python reads as an [int] when it is written without fraction or
    exponent, and as a [float] otherwise. *)
Inductive Cell :=
  | CellInt (z : Z)
  | CellFloat (q : Q).

Definition cell_value (c : Cell) : Q :=
  match c with
  | CellInt z => inject_Z z
  | CellFloat q => q
  end.

(** [int(x)] of a number: truncation toward zero. *)
Definition py_int (q : Q) : Z := Z.quot (Qnum q) (Z.pos (Qden q)).

Inductive SaveExc :=
  | ValueError
  | CallError (e : Exc).

(** [pd.DataFrame(rows)] for a list of records with numeric cells has one
    column per key that occurs in some row.  A column in which every row
    has an integer holds the integers as they are.  Any other column, one
    with a float or with a row that lacks the key, is a column of doubles:
    its integers are converted to the nearest double, and the missing
    cells are NaN, here [None]. *)
Definition frame_columns (rows : list (gmap string Cell)) : gset string :=
  ⋃ (dom <$> rows).

Definition is_int_cell (cell : option Cell) : bool :=
  match cell with
  | Some (CellInt _) => true
  | _ => false
  end.

Definition frame_column (cells : list (option Cell)) : list (option Q) :=
  if forallb is_int_cell cells
  then (fun cell : option Cell => cell_value <$> cell) <$> cells
  else (fun cell : option Cell => (fun c => double_of (cell_value c)) <$> cell) <$> cells.

(** [pd.DataFrame(rows).to_dict('list')]: the columns as lists, by key. *)
Definition to_dict_list (rows : list (gmap string Cell)) : gmap string (list (option Q)) :=
  set_to_map (fun key =>
                (key, frame_column ((fun row : gmap string Cell => row !! key) <$> rows)))
             (frame_columns rows).

(** The list of [int(i)] for [i] in [rdata]; [int] of NaN raises
    [ValueError], here [None]. *)
Definition int_list (rdata : list (option Q)) : option (list Q) :=
  mapM (fun cell : option Q => (fun q => inject_Z (py_int q)) <$> cell) rdata.

(** [save_values]: every column is converted, then the thresholds are
    updated with the columns as keyword arguments; the rows are returned.
    The module-level [thresholds] object is passed in and out. *)
Definition save_values (n_clicks : Z) (rows : list (gmap string Cell)) (self : Thresholds)
    : (SaveExc + list (gmap string Cell)) * Thresholds :=
  let new_data := to_dict_list rows in
  if decide (map_Forall (fun _ rdata => is_Some (int_list rdata)) new_data)
  then match update_thresholds self (omap int_list new_data) with
       | (inl e, self') => (inl (CallError e), self')
       | (inr _, self') => (inr rows, self')
       end
  else (inl ValueError, self).

(** The cell of a row cut to an integer. *)
Definition saved_bound (key : string) (row : gmap string Cell) : Q :=
  inject_Z (py_int (cell_value (default (CellInt 0) (row !! key)))).

(** A number the doubles hold exactly. *)
Definition is_double (q : Q) : Prop :=
  (double_of q == q)%Q /\ (Qabs q <= double_max)%Q.

(** The table of the dashboard for a set of thresholds with two bounds
    per metric, with fractional bounds for the temperature. *)
Definition edited_rows : list (gmap string Cell) :=
  [ <["temp" := CellFloat (-5.75)]> (<["feels_like" := CellInt 0]>
      (<["pressure" := CellInt 900]> (<["humidity" := CellInt 10]>
      (<["rain" := CellInt 0]> (<["clouds" := CellInt 0]> ∅)))));
    <["temp" := CellFloat 45.5]> (<["feels_like" := CellInt 50]>
      (<["pressure" := CellInt 1050]> (<["humidity" := CellInt 90]>
      (<["rain" := CellInt 30]> (<["clouds" := CellInt 100]> ∅))))) ].

(** A column of an integer above [2^53] next to a float, and the same
    integer next to an integer. *)
Definition mixed_column : list (option Cell) :=
  [Some (CellFloat 0.5); Some (CellInt 9007199254740993)].
Definition integer_column : list (option Cell) :=
  [Some (CellInt 1); Some (CellInt 9007199254740993)].

(** * Properties *)

(** ** Comparisons *)

Lemma Qltb_lt (x y : Q) : Qltb x y = true <-> (x < y)%Q.
Proof.
  unfold Qltb. rewrite negb_true_iff.
  destruct (Qle_bool y x) eqn:E.
  - apply Qle_bool_iff in E. split; [discriminate | intros Hlt; lra].
  - split; [intros _ | reflexivity].
    destruct (Qlt_le_dec x y) as [Hlt | Hle]; [exact Hlt |].
    apply Qle_bool_iff in Hle. congruence.
Qed.

(** ** Running the session *)

Lemma bind_inr {A B} (c : M A) (k : A -> M B) w a w' :
  c w = (inr a, w') -> bind c k w = k a w'.
Proof. unfold bind. intros ->. reflexivity. Qed.

Lemma bind_inl {A B} (c : M A) (k : A -> M B) w e w' :
  c w = (inl e, w') -> bind c k w = (inl e, w').
Proof. unfold bind. intros ->. reflexivity. Qed.

Lemma storage_op_eq w :
  storage_op w =
    if next_fault w then (inl StorageError, advance w) else (inr tt, advance w).
Proof.
  unfold storage_op, next_fault, advance.
  destruct w as [rt dl al pd fs out]; simpl.
  destruct fs as [| [|] fs]; reflexivity.
Qed.

Lemma faults_fold_flush ps w :
  faults (fold_left (fun w p => flush_one p w) ps w) = faults w.
Proof.
  revert w. induction ps as [| p ps IH]; intros w; simpl; [reflexivity |].
  rewrite IH. destruct p; reflexivity.
Qed.

Lemma session_commit_eq w :
  session_commit w =
    if next_fault w then (inl StorageError, advance w)
    else (inr tt, flush (advance w)).
Proof.
  unfold session_commit, bind. rewrite storage_op_eq.
  destruct (next_fault w); reflexivity.
Qed.

Lemma query_realtime_delete_eq p w :
  query_realtime_delete p w =
    if next_fault w then (inl StorageError, advance w)
    else (inr tt, set_realtime (filter (fun r => negb (p r))) (advance w)).
Proof.
  unfold query_realtime_delete, bind. rewrite storage_op_eq.
  destruct (next_fault w); reflexivity.
Qed.

Lemma cleanup_eq now w :
  cleanup_old_realtime_weather now w =
    if next_fault w then (inl StorageError, advance w)
    else
      let w1 := set_realtime
                  (filter (fun r => negb (rw_dt r <? now - timedelta_hours 24)))
                  (advance w) in
      if next_fault w1 then (inl StorageError, advance w1)
      else (inr tt, flush (advance w1)).
Proof.
  unfold cleanup_old_realtime_weather, bind. rewrite query_realtime_delete_eq.
  destruct (next_fault w); [reflexivity |]. apply session_commit_eq.
Qed.

Lemma insert_realtime_weather_eq now dt mc t fl p h r c city w :
  insert_realtime_weather now dt mc t fl p h r c city w =
    match cleanup_old_realtime_weather now w with
    | (inl e, w1) => (inl e, w1)
    | (inr _, w1) =>
        let w2 := set_pending
                    (fun ps => ps ++ [AddRealtime
                       (mkRealtimeWeather dt mc t fl p h r c city)]) w1 in
        if next_fault w2 then (inl StorageError, advance w2)
        else (inr tt, flush (advance w2))
    end.
Proof.
  unfold insert_realtime_weather, bind.
  destruct (cleanup_old_realtime_weather now w) as [[e | []] w1]; [reflexivity |].
  unfold session_add, modify. apply session_commit_eq.
Qed.

Lemma no_fault_next w : no_fault w -> next_fault w = false.
Proof.
  unfold no_fault, next_fault. destruct (faults w) as [| b fs]; [reflexivity |].
  intros Hf. inversion Hf; subst. reflexivity.
Qed.

Lemma storage_op_ok w :
  no_fault w -> storage_op w = (inr tt, set_faults (@tail bool) w).
Proof.
  unfold no_fault, storage_op. destruct w as [rt dl al pd fs out]; simpl.
  intros Hf. destruct fs as [| b fs]; [reflexivity |].
  inversion Hf; subst. reflexivity.
Qed.

Lemma no_fault_tail w : no_fault w -> no_fault (set_faults (@tail bool) w).
Proof.
  unfold no_fault. destruct w as [rt dl al pd fs out]; simpl.
  intros Hf. destruct fs; [constructor | inversion Hf; assumption].
Qed.

Lemma query_realtime_delete_ok p w :
  no_fault w ->
  query_realtime_delete p w =
    (inr tt, set_realtime (filter (fun r => negb (p r))) (set_faults (@tail bool) w)).
Proof.
  intros Hf. unfold query_realtime_delete.
  rewrite (bind_inr _ _ _ _ _ (storage_op_ok w Hf)). reflexivity.
Qed.

Lemma session_commit_ok w :
  no_fault w -> session_commit w = (inr tt, flush (set_faults (@tail bool) w)).
Proof.
  intros Hf. unfold session_commit.
  rewrite (bind_inr _ _ _ _ _ (storage_op_ok w Hf)). reflexivity.
Qed.

Lemma no_fault_set_realtime f w : no_fault w -> no_fault (set_realtime f w).
Proof. exact id. Qed.

Lemma no_fault_set_pending f w : no_fault w -> no_fault (set_pending f w).
Proof. exact id. Qed.

Lemma no_fault_flush w : no_fault w -> no_fault (flush w).
Proof.
  unfold no_fault, flush. simpl. rewrite faults_fold_flush. exact id.
Qed.

(** The cutoff test of the cleanup keeps exactly the rows at or after it. *)
Lemma filter_not_older cutoff (rows : list RealtimeWeather) :
  filter (fun r => negb (rw_dt r <? cutoff)) rows
  = filter (fun r => cutoff <=? rw_dt r) rows.
Proof.
  induction rows as [| r rows IH]; [reflexivity |].
  rewrite !filter_cons, IH.
  assert (Heq : negb (rw_dt r <? cutoff) = (cutoff <=? rw_dt r)).
  { destruct (Z.ltb_spec (rw_dt r) cutoff), (Z.leb_spec cutoff (rw_dt r));
      simpl; try reflexivity; lia. }
  rewrite Heq. reflexivity.
Qed.

Lemma cleanup_ok now w :
  no_fault w -> clean w ->
  cleanup_old_realtime_weather now w =
    (inr tt,
     set_realtime (filter (fun r => now - timedelta_hours 24 <=? rw_dt r))
       (set_faults (fun fs => tail (tail fs)) w)).
Proof.
  intros Hf Hc. unfold cleanup_old_realtime_weather.
  rewrite (bind_inr _ _ _ _ _ (query_realtime_delete_ok _ w Hf)).
  rewrite session_commit_ok by (apply no_fault_set_realtime, no_fault_tail, Hf).
  unfold clean in Hc. destruct w as [rt dl al pd fs out]; simpl in *. subst pd.
  unfold flush, set_realtime, set_faults, set_pending; simpl.
  rewrite filter_not_older. reflexivity.
Qed.

(** C2.  An ingest call at local time [now], on a session with nothing
    staged and with no storage fault: the stored readings strictly older
    than [now] minus 24 hours are deleted, those at the cutoff or later are
    kept in order, and the new reading is stored after them, whatever its
    own timestamp.  The cleanup is the first step of every call. *)
Theorem ingest_enforces_retention now dt main_condition temp feels_like
    pressure humidity rain clouds city w :
  no_fault w -> clean w ->
  exists w',
    insert_realtime_weather now dt main_condition temp feels_like pressure
      humidity rain clouds city w = (inr tt, w')
    /\ realtime_weather w' =
         filter (fun r => now - timedelta_hours 24 <=? rw_dt r) (realtime_weather w)
         ++ [mkRealtimeWeather dt main_condition temp feels_like pressure humidity
               rain clouds city]
    /\ (forall r, r ∈ realtime_weather w' ->
          r = mkRealtimeWeather dt main_condition temp feels_like pressure humidity
                rain clouds city
          \/ (r ∈ realtime_weather w /\ ~ rw_dt r < now - timedelta_hours 24))
    /\ (forall r, r ∈ realtime_weather w ->
          rw_dt r = now - timedelta_hours 24 -> r ∈ realtime_weather w').
Proof.
  intros Hf Hc. eexists. split; [| split; [| split]].
  - unfold insert_realtime_weather.
    rewrite (bind_inr _ _ _ _ _ (cleanup_ok now w Hf Hc)).
    unfold session_add.
    erewrite bind_inr by reflexivity.
    rewrite session_commit_ok; [reflexivity |].
    apply no_fault_set_pending, no_fault_set_realtime.
    unfold no_fault in *. destruct w as [rt dl al pd fs out]; simpl in *.
    destruct fs as [| b0 [| b1 fs]]; simpl; try constructor.
    inversion Hf as [| ? ? ? Hf']; subst. inversion Hf'; subst. assumption.
  - unfold clean in Hc. destruct w as [rt dl al pd fs out]; simpl in *. subst pd.
    reflexivity.
  - intros r Hin.
    unfold clean in Hc. destruct w as [rt dl al pd fs out]; simpl in *. subst pd.
    simpl in Hin. apply elem_of_app in Hin as [Hin | Hin].
    + right. apply list_elem_of_filter in Hin as [Hkeep Hin].
      split; [assumption |]. apply Is_true_true, Z.leb_le in Hkeep. lia.
    + left. apply list_elem_of_singleton in Hin. assumption.
  - intros r Hin Heq.
    unfold clean in Hc. destruct w as [rt dl al pd fs out]; simpl in *. subst pd.
    simpl. apply elem_of_app. left. apply list_elem_of_filter. split; [| assumption].
    apply Is_true_true, Z.leb_le. lia.
Qed.

Example sample_ingest_purges_and_keeps :
  realtime_weather
    (snd (insert_realtime_weather sample_now (timedelta_hours 47) "Rain"
            18%Q 17%Q 990%Q 80%Q 2%Q 90%Q "Delhi" sample_world))
  = [reading_at (timedelta_hours 24) "Delhi";
     reading_at (timedelta_hours 30) "Pune";
     mkRealtimeWeather (timedelta_hours 47) "Rain" 18%Q 17%Q 990%Q 80%Q 2%Q 90%Q "Delhi"].
Proof. reflexivity. Qed.

Lemma ingest_enforces_retention_witness :
  no_fault sample_world /\ clean sample_world /\
  exists w',
    insert_realtime_weather sample_now (timedelta_hours 47) "Rain"
      18%Q 17%Q 990%Q 80%Q 2%Q 90%Q "Delhi" sample_world = (inr tt, w')
    /\ realtime_weather w' =
         filter (fun r => sample_now - timedelta_hours 24 <=? rw_dt r)
                (realtime_weather sample_world)
         ++ [mkRealtimeWeather (timedelta_hours 47) "Rain" 18%Q 17%Q 990%Q 80%Q
               2%Q 90%Q "Delhi"]
    /\ (forall r, r ∈ realtime_weather w' ->
          r = mkRealtimeWeather (timedelta_hours 47) "Rain" 18%Q 17%Q 990%Q 80%Q
                2%Q 90%Q "Delhi"
          \/ (r ∈ realtime_weather sample_world
              /\ ~ rw_dt r < sample_now - timedelta_hours 24))
    /\ (forall r, r ∈ realtime_weather sample_world ->
          rw_dt r = sample_now - timedelta_hours 24 -> r ∈ realtime_weather w').
Proof.
  split; [constructor | split; [reflexivity |]].
  apply (ingest_enforces_retention sample_now (timedelta_hours 47) "Rain"
           18%Q 17%Q 990%Q 80%Q 2%Q 90%Q "Delhi" sample_world);
    [constructor | reflexivity].
Defined.

(** ** Failures of the store during an ingest call *)

Lemma cleanup_failure_stages_nothing now w e w1 :
  cleanup_old_realtime_weather now w = (inl e, w1) ->
  e = StorageError /\ pending w1 = pending w
  /\ (length (realtime_weather w1) <= length (realtime_weather w))%nat.
Proof.
  rewrite cleanup_eq. destruct (next_fault w).
  - intros Heq. inversion Heq; subst. repeat split. simpl. lia.
  - simpl. destruct (next_fault _).
    + intros Heq. inversion Heq; subst. repeat split. simpl. apply length_filter.
    + discriminate.
Qed.

Lemma ingest_raises_only_storage_error now dt mc t fl p h r c city w e w' :
  insert_realtime_weather now dt mc t fl p h r c city w = (inl e, w') ->
  e = StorageError.
Proof.
  rewrite insert_realtime_weather_eq.
  destruct (cleanup_old_realtime_weather now w) as [[e1 | []] w1] eqn:Hc.
  - intros Heq. inversion Heq; subst.
    apply (cleanup_failure_stages_nothing now w e w' Hc).
  - simpl. destruct (next_fault _); intros Heq; inversion Heq; reflexivity.
Qed.

Lemma ingest_fails_on_fault now dt mc t fl p h r c city w :
  true ∈ take 3 (faults w) ->
  exists w', insert_realtime_weather now dt mc t fl p h r c city w
             = (inl StorageError, w').
Proof.
  intros Hin. rewrite insert_realtime_weather_eq, cleanup_eq.
  destruct (next_fault w) eqn:H0; [eexists; reflexivity |].
  simpl. destruct (next_fault (set_realtime _ (advance w))) eqn:H1;
    [eexists; reflexivity |].
  destruct (next_fault (set_pending _ _)) eqn:H2; [eexists; reflexivity |].
  exfalso. revert H0 H1 H2 Hin.
  unfold next_fault. simpl. rewrite faults_fold_flush. simpl.
  destruct (faults w) as [| b0 [| b1 [| b2 fs]]]; simpl; intros; subst;
    repeat (apply elem_of_cons in Hin as [Hin | Hin]; [discriminate |]);
    apply elem_of_nil in Hin; contradiction.
Qed.

Section IngestFailure.
Context `{PyRepr}.

(** C7.  [insert_realtime_weather] is the ingest call, [insert_fetched_data]
    its caller.  (1) When the cleanup raises, the call raises the same
    exception in the state the cleanup left: the new row is neither staged
    nor stored.  (2) When any of the three storage operations of the call
    (the delete, the commit of the cleanup, the commit of the insert)
    fails, the call ends in [StorageError], not in success.  (3) The
    caller receives the exception and prints the failure with the city. *)
Theorem ingest_failure_is_reported now (weather_data : WeatherData) w :
  let ingest :=
    insert_realtime_weather now (wd_dt weather_data)
      (wd_main_condition weather_data) (wd_temp weather_data)
      (wd_feels_like weather_data) (wd_pressure weather_data)
      (wd_humidity weather_data) (wd_rain weather_data)
      (wd_clouds weather_data) (wd_city weather_data) in
  (forall e w1,
      cleanup_old_realtime_weather now w = (inl e, w1) ->
      ingest w = (inl e, w1)
      /\ pending w1 = pending w
      /\ length (realtime_weather w1) <= length (realtime_weather w))%nat
  /\ (true ∈ take 3 (faults w) ->
      exists w', ingest w = (inl StorageError, w'))
  /\ (forall e w',
      ingest w = (inl e, w') ->
      insert_fetched_data now weather_data w =
        (inr tt,
         set_stdout (fun out => out ++
           ["Failed to insert data for " +:+ wd_city weather_data +:+ ": "
            +:+ str_exc e]) w')).
Proof.
  intros ingest. split; [| split].
  - intros e w1 Hc. split.
    + subst ingest. unfold insert_realtime_weather.
      apply bind_inl. exact Hc.
    + apply (cleanup_failure_stages_nothing now w e w1 Hc).
  - apply ingest_fails_on_fault.
  - intros e w' Hi. unfold insert_fetched_data, try_except.
    fold ingest. rewrite Hi. reflexivity.
Qed.

End IngestFailure.

Example failing_ingest_is_logged :
  let '(r, w') := insert_fetched_data (H := plain_repr) sample_now sample_reading
                    failing_world in
  r = inr tt
  /\ stdout w' = ["Failed to insert data for Delhi: StorageError"]
  /\ pending w' = []
  /\ realtime_weather w' =
       [reading_at (timedelta_hours 24) "Delhi"; reading_at (timedelta_hours 30) "Pune"].
Proof. repeat split. Qed.

Lemma ingest_failure_is_reported_witness :
  true ∈ take 3 (faults failing_world)
  /\ exists w',
       insert_realtime_weather sample_now (wd_dt sample_reading)
         (wd_main_condition sample_reading) (wd_temp sample_reading)
         (wd_feels_like sample_reading) (wd_pressure sample_reading)
         (wd_humidity sample_reading) (wd_rain sample_reading)
         (wd_clouds sample_reading) (wd_city sample_reading) failing_world
       = (inl StorageError, w').
Proof.
  assert (Hin : true ∈ take 3 (faults failing_world)).
  { simpl. apply elem_of_cons. right. apply elem_of_cons. left. reflexivity. }
  split; [exact Hin |].
  exact (proj1 (proj2 (ingest_failure_is_reported (H := plain_repr)
                         sample_now sample_reading failing_world)) Hin).
Defined.

(** ** Alert evaluation *)

Lemma get_thresholds_lookup th :
  get_thresholds th !! "temp" = Some (th_temp th)
  /\ get_thresholds th !! "feels_like" = Some (th_feels_like th)
  /\ get_thresholds th !! "pressure" = Some (th_pressure th)
  /\ get_thresholds th !! "humidity" = Some (th_humidity th)
  /\ get_thresholds th !! "rain" = Some (th_rain th)
  /\ get_thresholds th !! "clouds" = Some (th_clouds th).
Proof. repeat split; reflexivity. Qed.

Lemma exceeds_eq v (thresholds : gmap string (list Q)) key range w :
  thresholds !! key = Some range -> has_bounds range ->
  exceeds v thresholds key w = (inr (outside v range), w).
Proof.
  intros Hk Hb. unfold exceeds, bind, subscript, index. rewrite Hk.
  destruct range as [| low [| high rest]]; unfold has_bounds in Hb; simpl in Hb;
    try lia.
  simpl. destruct (Qltb v low); reflexivity.
Qed.

Lemma insert_alert_event_ok dt city trigger reason w :
  no_fault w -> clean w ->
  exists w',
    insert_alert_event dt city trigger reason w = (inr tt, w')
    /\ no_fault w' /\ clean w'
    /\ alert_events w' = alert_events w ++ [mkAlertEvent dt city reason trigger]
    /\ stdout w' = stdout w.
Proof.
  intros Hf Hc. unfold insert_alert_event, session_add, bind, modify.
  rewrite session_commit_eq.
  assert (Hn : next_fault
                 (set_pending (fun ps => ps ++ [AddAlert (mkAlertEvent dt city reason trigger)]) w)
               = false) by (apply (no_fault_next w Hf)).
  rewrite Hn. eexists. split; [reflexivity |].
  split; [apply no_fault_flush, no_fault_tail, Hf |].
  unfold clean in *. destruct w as [rt dl al pd fs out]; simpl in *. subst pd.
  repeat split.
Qed.

Section AlertEvaluation.
Context `{PyRepr}.

Lemma check_metric_ok weather_data (thresholds : gmap string (list Q))
    v key trigger found exceeded range w :
  thresholds !! key = Some range -> has_bounds range ->
  no_fault w -> clean w ->
  exists w',
    check_metric weather_data thresholds v key trigger found exceeded w = (inr tt, w')
    /\ no_fault w' /\ clean w'
    /\ alert_events w' =
         alert_events w ++ alert_of weather_data (trigger, found, v, range).
Proof.
  intros Hk Hb Hf Hc. unfold check_metric.
  rewrite (bind_inr _ _ _ _ _ (exceeds_eq v thresholds key range w Hk Hb)).
  unfold alert_of. destruct (outside v range).
  - unfold subscript. rewrite Hk.
    erewrite bind_inr by reflexivity.
    destruct (insert_alert_event_ok (wd_dt weather_data) (wd_city weather_data)
                trigger (found +:+ str_num v +:+ " but threshold is " +:+ str_list range)
                w Hf Hc) as (w1 & Hrun & Hf1 & Hc1 & Ha & _).
    rewrite (bind_inr _ _ _ _ _ Hrun).
    eexists. split; [reflexivity |]. repeat split; assumption.
  - exists w. rewrite app_nil_r. repeat split; assumption.
Qed.

Lemma check_data_against_alerts_ok weather_data th w :
  all_have_bounds th -> no_fault w -> clean w ->
  exists w',
    check_data_against_alerts weather_data (get_thresholds th) w = (inr tt, w')
    /\ alert_events w' = alert_events w ++ expected_alerts weather_data th.
Proof.
  intros (B1 & B2 & B3 & B4 & B5 & B6) Hf Hc.
  destruct (get_thresholds_lookup th) as (L1 & L2 & L3 & L4 & L5 & L6).
  unfold check_data_against_alerts.
  destruct (check_metric_ok weather_data _ (wd_temp weather_data) "temp"
              "Temperature" "Found temp: " "Temperature threshold exceeded for "
              _ w L1 B1 Hf Hc) as (w1 & R1 & Hf1 & Hc1 & A1).
  rewrite (bind_inr _ _ _ _ _ R1).
  destruct (check_metric_ok weather_data _ (wd_feels_like weather_data) "feels_like"
              "Feels Like" "Found feels like: " "Feels like threshold exceeded for "
              _ w1 L2 B2 Hf1 Hc1) as (w2 & R2 & Hf2 & Hc2 & A2).
  rewrite (bind_inr _ _ _ _ _ R2).
  destruct (check_metric_ok weather_data _ (wd_pressure weather_data) "pressure"
              "Pressure" "Found pressure: " "Pressure threshold exceeded for "
              _ w2 L3 B3 Hf2 Hc2) as (w3 & R3 & Hf3 & Hc3 & A3).
  rewrite (bind_inr _ _ _ _ _ R3).
  destruct (check_metric_ok weather_data _ (wd_humidity weather_data) "humidity"
              "Humidity" "Found humidity: " "Humidity threshold exceeded for "
              _ w3 L4 B4 Hf3 Hc3) as (w4 & R4 & Hf4 & Hc4 & A4).
  rewrite (bind_inr _ _ _ _ _ R4).
  destruct (check_metric_ok weather_data _ (wd_rain weather_data) "rain"
              "Rain" "Found rain: " "Rain threshold exceeded for "
              _ w4 L5 B5 Hf4 Hc4) as (w5 & R5 & Hf5 & Hc5 & A5).
  rewrite (bind_inr _ _ _ _ _ R5).
  destruct (check_metric_ok weather_data _ (wd_clouds weather_data) "clouds"
              "Clouds" "Found clouds: " "Clouds threshold exceeded for "
              _ w5 L6 B6 Hf5 Hc5) as (w6 & R6 & Hf6 & Hc6 & A6).
  exists w6. split; [exact R6 |].
  rewrite A6, A5, A4, A3, A2, A1. unfold expected_alerts, metric_table. simpl.
  rewrite app_nil_r, <- !app_assoc. reflexivity.
Qed.

Lemma outside_spec v low high rest :
  outside v (low :: high :: rest) = true <-> (v < low \/ high < v)%Q.
Proof.
  simpl. rewrite orb_true_iff, !Qltb_lt. reflexivity.
Qed.

Lemma with_trigger_expected weather_data th trigger found v range :
  (trigger, found, v, range) ∈ metric_table weather_data th ->
  with_trigger trigger (expected_alerts weather_data th)
  = alert_of weather_data (trigger, found, v, range).
Proof.
  intros Hin. unfold metric_table in Hin.
  unfold expected_alerts, metric_table, alert_of. simpl.
  repeat (apply elem_of_cons in Hin as [Hin | Hin];
          [inversion Hin; subst; clear Hin |]);
    [.. | apply elem_of_nil in Hin; contradiction];
    destruct (outside (wd_temp weather_data) (th_temp th)),
             (outside (wd_feels_like weather_data) (th_feels_like th)),
             (outside (wd_pressure weather_data) (th_pressure th)),
             (outside (wd_humidity weather_data) (th_humidity th)),
             (outside (wd_rain weather_data) (th_rain th)),
             (outside (wd_clouds weather_data) (th_clouds th));
    reflexivity.
Qed.

Lemma expected_alerts_length weather_data th :
  (length (expected_alerts weather_data th) <= 6)%nat.
Proof.
  unfold expected_alerts, metric_table, alert_of. simpl.
  destruct (outside (wd_temp weather_data) (th_temp th)),
           (outside (wd_feels_like weather_data) (th_feels_like th)),
           (outside (wd_pressure weather_data) (th_pressure th)),
           (outside (wd_humidity weather_data) (th_humidity th)),
           (outside (wd_rain weather_data) (th_rain th)),
           (outside (wd_clouds weather_data) (th_clouds th));
    simpl; lia.
Qed.

(** C1.  With every range holding its two bounds, on a session with
    nothing staged and no storage fault, the evaluation of a reading
    appends to the alert table at most six events; for each of the six
    metrics the appended events hold exactly one event of that metric
    when the value is below the lower or above the upper bound, and none
    when it lies within the bounds, the bounds themselves included. *)
Theorem alerts_match_breaches weather_data th w :
  all_have_bounds th -> no_fault w -> clean w ->
  exists w' new,
    check_data_against_alerts weather_data (get_thresholds th) w = (inr tt, w')
    /\ alert_events w' = alert_events w ++ new
    /\ (length new <= 6)%nat
    /\ forall trigger found v low high rest,
         (trigger, found, v, low :: high :: rest) ∈ metric_table weather_data th ->
         ((v < low \/ high < v)%Q ->
            with_trigger trigger new =
              [mkAlertEvent (wd_dt weather_data) (wd_city weather_data)
                 (found +:+ str_num v +:+ " but threshold is "
                  +:+ str_list (low :: high :: rest)) trigger])
         /\ ((low <= v /\ v <= high)%Q -> with_trigger trigger new = [])
         /\ ((low <= high)%Q -> (v == low \/ v == high)%Q ->
             with_trigger trigger new = []).
Proof.
  intros Hb Hf Hc.
  destruct (check_data_against_alerts_ok weather_data th w Hb Hf Hc)
    as (w' & Hrun & Ha).
  exists w', (expected_alerts weather_data th).
  split; [exact Hrun |]. split; [exact Ha |].
  split; [apply expected_alerts_length |].
  intros trigger found v low high rest Hin.
  rewrite (with_trigger_expected _ _ _ _ _ _ Hin). unfold alert_of.
  destruct (outside v (low :: high :: rest)) eqn:Ho.
  - apply outside_spec in Ho. split; [reflexivity |].
    split; [intros [? ?]; exfalso; destruct Ho; lra |].
    intros Hle Heq. exfalso. destruct Ho, Heq; lra.
  - split; [| split; reflexivity].
    intros Hout. apply (proj2 (outside_spec v low high rest)) in Hout. congruence.
Qed.

End AlertEvaluation.

(** A reading of 105 degrees and 1013 hPa against the default thresholds:
    the temperature and the pressure (default range 0 to 1000) raise one
    event each, the four other metrics none. *)
Example hot_reading_alerts :
  alert_events
    (snd (check_data_against_alerts (H := plain_repr) hot_reading
            (get_thresholds thresholds) sample_world))
  = [mkAlertEvent (timedelta_hours 47) "Delhi"
       "Found temp: <number> but threshold is <list>" "Temperature";
     mkAlertEvent (timedelta_hours 47) "Delhi"
       "Found pressure: <number> but threshold is <list>" "Pressure"].
Proof. reflexivity. Qed.

Lemma thresholds_have_bounds : all_have_bounds thresholds.
Proof. unfold all_have_bounds, has_bounds. simpl. repeat split; lia. Qed.

Lemma alerts_match_breaches_witness :
  all_have_bounds thresholds /\ no_fault sample_world /\ clean sample_world /\
  exists w' new,
    check_data_against_alerts (H := plain_repr) hot_reading
      (get_thresholds thresholds) sample_world = (inr tt, w')
    /\ alert_events w' = alert_events sample_world ++ new
    /\ (length new <= 6)%nat
    /\ forall trigger found v low high rest,
         (trigger, found, v, low :: high :: rest) ∈ metric_table hot_reading thresholds ->
         ((v < low \/ high < v)%Q ->
            with_trigger trigger new =
              [mkAlertEvent (wd_dt hot_reading) (wd_city hot_reading)
                 (found +:+ @str_num plain_repr v +:+ " but threshold is "
                  +:+ @str_list plain_repr (low :: high :: rest)) trigger])
         /\ ((low <= v /\ v <= high)%Q -> with_trigger trigger new = [])
         /\ ((low <= high)%Q -> (v == low \/ v == high)%Q ->
             with_trigger trigger new = []).
Proof.
  split; [exact thresholds_have_bounds |].
  split; [constructor |]. split; [reflexivity |].
  apply (alerts_match_breaches (H := plain_repr) hot_reading thresholds sample_world);
    [exact thresholds_have_bounds | constructor | reflexivity].
Defined.

(** ** Threshold administration *)

Lemma metric_names_elem key :
  key ∈ metric_names <->
  key = "temp" \/ key = "feels_like" \/ key = "pressure"
  \/ key = "humidity" \/ key = "rain" \/ key = "clouds".
Proof.
  unfold metric_names. rewrite !elem_of_union, !elem_of_singleton. tauto.
Qed.

Lemma dom_get_thresholds th : dom (get_thresholds th) = metric_names.
Proof.
  apply set_eq. intros key. rewrite metric_names_elem.
  unfold get_thresholds. rewrite !dom_insert_L, dom_empty_L.
  rewrite !elem_of_union, !elem_of_singleton, elem_of_empty. tauto.
Qed.

Lemma lookup_in_names (kwargs : gmap string (list Q)) key :
  dom kwargs = metric_names -> key ∈ metric_names -> is_Some (kwargs !! key).
Proof. intros Hd Hk. apply elem_of_dom. rewrite Hd. exact Hk. Qed.

Lemma update_thresholds_accepts self (kwargs : gmap string (list Q)) :
  dom kwargs = metric_names ->
  exists self',
    update_thresholds self kwargs = (inr tt, self')
    /\ get_thresholds self' = kwargs.
Proof.
  intros Hd. unfold update_thresholds.
  destruct (lookup_in_names kwargs "temp" Hd ltac:(apply metric_names_elem; tauto)) as [v1 E1].
  destruct (lookup_in_names kwargs "feels_like" Hd ltac:(apply metric_names_elem; tauto)) as [v2 E2].
  destruct (lookup_in_names kwargs "pressure" Hd ltac:(apply metric_names_elem; tauto)) as [v3 E3].
  destruct (lookup_in_names kwargs "humidity" Hd ltac:(apply metric_names_elem; tauto)) as [v4 E4].
  destruct (lookup_in_names kwargs "rain" Hd ltac:(apply metric_names_elem; tauto)) as [v5 E5].
  destruct (lookup_in_names kwargs "clouds" Hd ltac:(apply metric_names_elem; tauto)) as [v6 E6].
  rewrite E1, E2, E3, E4, E5, E6.
  rewrite bool_decide_eq_true_2 by (rewrite Hd; reflexivity).
  eexists. split; [reflexivity |].
  apply map_eq. intros key. unfold get_thresholds. simpl.
  destruct (decide (key = "temp")) as [-> | N1]; [rewrite lookup_insert_eq; congruence |].
  rewrite lookup_insert_ne by congruence.
  destruct (decide (key = "feels_like")) as [-> | N2]; [rewrite lookup_insert_eq; congruence |].
  rewrite lookup_insert_ne by congruence.
  destruct (decide (key = "pressure")) as [-> | N3]; [rewrite lookup_insert_eq; congruence |].
  rewrite lookup_insert_ne by congruence.
  destruct (decide (key = "humidity")) as [-> | N4]; [rewrite lookup_insert_eq; congruence |].
  rewrite lookup_insert_ne by congruence.
  destruct (decide (key = "rain")) as [-> | N5]; [rewrite lookup_insert_eq; congruence |].
  rewrite lookup_insert_ne by congruence.
  destruct (decide (key = "clouds")) as [-> | N6]; [rewrite lookup_insert_eq; congruence |].
  rewrite lookup_insert_ne by congruence.
  rewrite lookup_empty. symmetry. apply not_elem_of_dom. rewrite Hd.
  rewrite metric_names_elem. tauto.
Qed.

Lemma update_thresholds_rejects self (kwargs : gmap string (list Q)) :
  dom kwargs ≠ metric_names ->
  exists msg, update_thresholds self kwargs = (inl (TypeError msg), self).
Proof.
  intros Hd. unfold update_thresholds.
  destruct (kwargs !! "temp") eqn:E1; [| eexists; reflexivity].
  destruct (kwargs !! "feels_like") eqn:E2; [| eexists; reflexivity].
  destruct (kwargs !! "pressure") eqn:E3; [| eexists; reflexivity].
  destruct (kwargs !! "humidity") eqn:E4; [| eexists; reflexivity].
  destruct (kwargs !! "rain") eqn:E5; [| eexists; reflexivity].
  destruct (kwargs !! "clouds") eqn:E6; [| eexists; reflexivity].
  destruct (bool_decide (dom kwargs ⊆ metric_names)) eqn:Hs; [| eexists; reflexivity].
  exfalso. apply Hd. apply bool_decide_eq_true in Hs.
  apply set_eq. intros key. split; [apply Hs |].
  rewrite metric_names_elem.
  intros Hk. apply elem_of_dom.
  destruct Hk as [-> | [-> | [-> | [-> | [-> | ->]]]]]; eauto.
Qed.

(** C8 as stated does not hold: the default set is well ordered, the
    update below names all six metrics and is accepted, and the temperature
    range it leaves has its lower bound above its upper bound. *)
Lemma update_thresholds_keeps_order_refuted :
  all_ordered thresholds
  /\ fst (update_thresholds thresholds inverted_update) = inr tt
  /\ ~ all_ordered (snd (update_thresholds thresholds inverted_update)).
Proof.
  split; [| split].
  - unfold all_ordered, thresholds. simpl. repeat split; lra.
  - vm_compute. reflexivity.
  - intros [Ht _]. vm_compute in Ht. apply Ht. reflexivity.
Qed.

(** C8, amended.  An update that names exactly the six metrics is accepted
    and the set then maps each metric to the range it was given, so all six
    stay present; the order of the bounds is that of the given ranges.  An
    update whose names are not exactly the six, a proper subset among them,
    is rejected with [TypeError] and leaves the set as it was. *)
Theorem update_thresholds_replaces_all self (kwargs : gmap string (list Q)) :
  dom (get_thresholds (snd (update_thresholds self kwargs))) = metric_names
  /\ (dom kwargs = metric_names ->
      fst (update_thresholds self kwargs) = inr tt
      /\ get_thresholds (snd (update_thresholds self kwargs)) = kwargs)
  /\ (dom kwargs ≠ metric_names ->
      (exists msg, fst (update_thresholds self kwargs) = inl (TypeError msg))
      /\ snd (update_thresholds self kwargs) = self).
Proof.
  split; [apply dom_get_thresholds |]. split.
  - intros Hd. destruct (update_thresholds_accepts self kwargs Hd) as (s' & -> & Hg).
    split; [reflexivity | exact Hg].
  - intros Hd. destruct (update_thresholds_rejects self kwargs Hd) as (msg & ->).
    split; [exists msg |]; reflexivity.
Qed.

Lemma partial_update_dom : dom partial_update ≠ metric_names.
Proof.
  intros Heq.
  assert (Hin : "clouds" ∈ dom partial_update).
  { rewrite Heq. apply metric_names_elem. tauto. }
  unfold partial_update in Hin. rewrite !dom_insert_L, dom_empty_L in Hin.
  rewrite !elem_of_union, !elem_of_singleton, elem_of_empty in Hin.
  destruct Hin as [Hin | [Hin | []]]; discriminate.
Qed.

Lemma update_thresholds_replaces_all_witness :
  dom partial_update ≠ metric_names
  /\ (exists msg,
        fst (update_thresholds thresholds partial_update) = inl (TypeError msg))
  /\ snd (update_thresholds thresholds partial_update) = thresholds.
Proof.
  split; [exact partial_update_dom |].
  exact (proj2 (proj2 (update_thresholds_replaces_all thresholds partial_update))
           partial_update_dom).
Defined.

Example inverted_update_is_accepted :
  update_thresholds thresholds inverted_update
  = (inr tt, mkThresholds [5%Q; 1%Q] [0%Q; 100%Q] [0%Q; 1000%Q]
                          [0%Q; 100%Q] [0%Q; 100%Q] [0%Q; 100%Q]).
Proof. vm_compute. reflexivity. Qed.

(** ** Rate limiting *)

Section RateLimitProperties.
Context {App Resp : Type}.
Variables (limit interval : Z).
Variable func : Request -> App -> Resp * App.

Lemma rate_limit_counts request t (rc : gmap string RequestInfo) app :
  (rate_limit limit interval func request t rc app).1.2
  = <[client_host request := window_after interval t (rc !! client_host request)]> rc.
Proof.
  unfold rate_limit, window_after.
  destruct (rc !! client_host request) as [info |]; simpl;
    repeat match goal with
           | |- context [if ?b then _ else _] => destruct b; simpl
           | |- context [func ?r ?a] => destruct (func r a); simpl
           end; reflexivity.
Qed.

Lemma rate_limit_outcome request t (rc : gmap string RequestInfo) app :
  let_through (rate_limit limit interval func request t rc app).1.1
  = negb (limit <? count (window_after interval t (rc !! client_host request))).
Proof.
  unfold rate_limit, window_after.
  destruct (rc !! client_host request) as [info |]; simpl;
    repeat match goal with
           | |- context [if ?b then _ else _] => destruct b eqn:?; simpl
           | |- context [func ?r ?a] => destruct (func r a); simpl
           end; try reflexivity; simpl in *; congruence.
Qed.

(** A rejection is the 429 response, and the handler has not run. *)
Lemma rate_limit_rejection request t (rc : gmap string RequestInfo) app e rc' app' :
  rate_limit limit interval func request t rc app = (inl e, rc', app') ->
  e = mkHTTPException 429 "Rate limit exceeded" /\ app' = app
  /\ limit < count (window_after interval t (rc !! client_host request)).
Proof.
  intros Hr.
  pose proof (rate_limit_outcome request t rc app) as Ho.
  rewrite Hr in Ho. simpl in Ho. symmetry in Ho.
  apply negb_false_iff, Z.ltb_lt in Ho.
  revert Hr. unfold rate_limit.
  match goal with
  | |- context [if ?b then _ else _] => destruct b
  end.
  - intros Heq. inversion Heq; subst. repeat split; assumption.
  - destruct (func request app). discriminate.
Qed.

Lemma rate_limit_admission request t (rc : gmap string RequestInfo) app :
  ~ limit < count (window_after interval t (rc !! client_host request)) ->
  (rate_limit limit interval func request t rc app).1.1 = inr (func request app).1
  /\ (rate_limit limit interval func request t rc app).2 = (func request app).2.
Proof.
  intros Hc. apply Z.ltb_nlt in Hc. unfold rate_limit, window_after in *.
  destruct (rc !! client_host request) as [info |]; simpl in *;
    rewrite Hc; destruct (func request app); split; reflexivity.
Qed.

Lemma window_after_inside t info :
  ~ (inject_Z interval < t - timestamp info)%Q ->
  window_after interval t (Some info)
  = mkRequestInfo (count info + 1) (timestamp info).
Proof.
  intros Hin. unfold window_after. simpl.
  destruct (Qltb (inject_Z interval) (t - timestamp info)) eqn:E;
    [apply Qltb_lt in E; contradiction | reflexivity].
Qed.

Lemma window_after_expired t info :
  (inject_Z interval < t - timestamp info)%Q ->
  window_after interval t (Some info) = mkRequestInfo 1 t.
Proof.
  intros Hout. unfold window_after. simpl.
  apply Qltb_lt in Hout. rewrite Hout. reflexivity.
Qed.

Lemma window_after_fresh t :
  window_after interval t None = mkRequestInfo 1 t.
Proof.
  unfold window_after. simpl.
  destruct (Qltb (inject_Z interval) (t - t)); reflexivity.
Qed.

Lemma serve_cons request t rest (rc : gmap string RequestInfo) app :
  serve limit interval func ((request, t) :: rest) rc app
  = let r := rate_limit limit interval func request t rc app in
    let s := serve limit interval func rest r.1.2 r.2 in
    ((request, r.1.1) :: s.1.1, s.1.2, s.2).
Proof.
  simpl. destruct (rate_limit limit interval func request t rc app) as [[r rc1] app1].
  simpl. destruct (serve limit interval func rest rc1 app1) as [[rs rc2] app2].
  reflexivity.
Qed.

(** Inside a window the count of the client grows by one per call of
    that client, whatever the calls of other clients in between, and the
    outcomes are those of that count against the limit. *)
Lemma serve_inside_window ip calls :
  forall (rc : gmap string RequestInfo) app info,
    rc !! ip = Some info ->
    Forall (within interval (timestamp info)) (calls_of ip calls) ->
    outcomes_of ip (serve limit interval func calls rc app).1.1
    = window_outcomes limit (count info) (length (calls_of ip calls))
    /\ (serve limit interval func calls rc app).1.2 !! ip
       = Some (mkRequestInfo (count info + Z.of_nat (length (calls_of ip calls)))
                             (timestamp info)).
Proof.
  induction calls as [| [request t] rest IH]; intros rc app info Hrc Hw.
  - simpl. split; [reflexivity |]. rewrite Z.add_0_r, Hrc.
    destruct info; reflexivity.
  - rewrite serve_cons. cbv zeta. cbn [fst snd].
    unfold calls_of in Hw |- *. rewrite filter_cons in Hw |- *.
    unfold outcomes_of. rewrite filter_cons. cbn [fst snd] in Hw |- *.
    revert Hw.
    destruct (decide (client_host request = ip)) as [Hip | Hip]; intros Hw.
    +        apply Forall_cons in Hw as [Hfirst Hrest].
      unfold within in Hfirst. simpl in Hfirst.
      assert (Hrc1 : (rate_limit limit interval func request t rc app).1.2 !! ip
                     = Some (mkRequestInfo (count info + 1) (timestamp info))).
      { rewrite rate_limit_counts, Hip, lookup_insert_eq, Hrc.
        rewrite window_after_inside by assumption. reflexivity. }
      destruct (IH _ (rate_limit limit interval func request t rc app).2 _
                  Hrc1 Hrest) as [IHo IHc].
      split.
      * cbn [map length window_outcomes fst snd]. f_equal.
        -- rewrite rate_limit_outcome, Hip, Hrc.
           rewrite window_after_inside by assumption. reflexivity.
        -- exact IHo.
      * rewrite IHc. cbn [count timestamp length].
        match goal with
        | |- Some (mkRequestInfo ?a _) = Some (mkRequestInfo ?b _) =>
            replace a with b by (unfold calls_of; lia)
        end.
        reflexivity.
    + apply IH; [| exact Hw].
      rewrite rate_limit_counts, lookup_insert_ne by exact Hip. exact Hrc.
Qed.

Lemma window_outcomes_lookup k n i b :
  window_outcomes limit k n !! i = Some b ->
  b = bool_decide (k + Z.of_nat i < limit).
Proof.
  revert k i. induction n as [| n IH]; intros k i; simpl; [discriminate |].
  destruct i as [| i]; simpl.
  - intros Heq. inversion Heq; subst.
    destruct (Z.ltb_spec limit (k + 1)); simpl;
      [rewrite bool_decide_eq_false_2 | rewrite bool_decide_eq_true_2];
      try reflexivity; lia.
  - intros Hl. rewrite (IH _ _ Hl). apply bool_decide_ext. lia.
Qed.

Lemma window_outcomes_length k n : length (window_outcomes limit k n) = n.
Proof. revert k. induction n as [| n IH]; intros k; simpl; [| rewrite IH]; reflexivity. Qed.

Lemma window_outcomes_count k n :
  length (filter (fun b : bool => b = true) (window_outcomes limit k n))
  = Nat.min n (Z.to_nat (limit - k)).
Proof.
  revert k. induction n as [| n IH]; intros k; [reflexivity |].
  cbn [window_outcomes]. rewrite filter_cons.
  destruct (decide (negb (limit <? k + 1) = true)) as [Hb | Hb].
  - cbn [length]. rewrite IH. apply negb_true_iff, Z.ltb_ge in Hb. lia.
  - rewrite IH. apply not_true_is_false, negb_false_iff, Z.ltb_lt in Hb. lia.
Qed.

Lemma window_outcomes_rejected k n :
  limit <= k -> Forall (fun b => b = false) (window_outcomes limit k n).
Proof.
  revert k. induction n as [| n IH]; intros k Hk; simpl; constructor.
  - apply negb_false_iff, Z.ltb_lt. lia.
  - apply IH. lia.
Qed.

(** C4.  (1) For a client with no window yet, whose first call arrives at
    [t0] and whose later calls arrive no more than [interval] seconds
    after [t0], with calls of other clients anywhere in between: call
    number [i] of the client, counted from 0, is admitted exactly when
    [i < limit]; so the first [limit] calls are admitted and call
    [limit + 1] is rejected, and of [n] such calls the number admitted is
    the smaller of [n] and [limit].  (2) A rejection is the 429 response and the
    wrapped operation has not run.  (3) For a positive limit, a call that
    arrives more than [interval] seconds after the start of the window is
    admitted and the window restarts at that call with count 1. *)
Theorem rate_limit_window request t0 rest (rc : gmap string RequestInfo) app :
  let ip := client_host request in
  (rc !! ip = None ->
   Forall (within interval t0) (calls_of ip rest) ->
   let outcomes :=
     outcomes_of ip (serve limit interval func ((request, t0) :: rest) rc app).1.1 in
   length outcomes = S (length (calls_of ip rest))
   /\ length (filter (fun b : bool => b = true) outcomes)
      = Nat.min (length outcomes) (Z.to_nat limit)
   /\ forall i b, outcomes !! i = Some b -> b = bool_decide (Z.of_nat i < limit))
  /\ (forall e rc' app',
        rate_limit limit interval func request t0 rc app = (inl e, rc', app') ->
        e = mkHTTPException 429 "Rate limit exceeded" /\ app' = app)
  /\ (forall info,
        rc !! ip = Some info ->
        (inject_Z interval < t0 - timestamp info)%Q ->
        0 < limit ->
        (rate_limit limit interval func request t0 rc app).1.1
          = inr (func request app).1
        /\ (rate_limit limit interval func request t0 rc app).1.2 !! ip
          = Some (mkRequestInfo 1 t0)).
Proof.
  intros ip. split; [| split].
  - intros Hnew Hw outcomes.
    assert (Ho : outcomes = window_outcomes limit 0 (S (length (calls_of ip rest)))).
    { subst outcomes. rewrite serve_cons. cbv zeta. cbn [fst snd].
      unfold outcomes_of. rewrite filter_cons. cbn [fst snd].
      rewrite decide_True by reflexivity.
      cbn [map fst snd window_outcomes]. f_equal.
      - rewrite rate_limit_outcome. fold ip. rewrite Hnew, window_after_fresh.
        reflexivity.
      - assert (Hrc1 : (rate_limit limit interval func request t0 rc app).1.2 !! ip
                       = Some (mkRequestInfo 1 t0)).
        { rewrite rate_limit_counts. fold ip.
          rewrite lookup_insert_eq, Hnew, window_after_fresh. reflexivity. }
        apply (serve_inside_window ip rest _ _ _ Hrc1 Hw). }
    rewrite Ho. split; [apply window_outcomes_length |].
    split; [rewrite window_outcomes_count, window_outcomes_length, Z.sub_0_r;
            reflexivity |].
    intros i b Hl. rewrite (window_outcomes_lookup _ _ _ _ Hl).
    apply bool_decide_ext. lia.
  - intros e rc' app' Hr.
    destruct (rate_limit_rejection _ _ _ _ _ _ _ Hr) as (He & Ha & _).
    split; assumption.
  - intros info Hrc Hexp Hpos. split.
    + apply rate_limit_admission. fold ip.
      rewrite Hrc, window_after_expired by assumption. simpl. lia.
    + rewrite rate_limit_counts. fold ip.
      rewrite lookup_insert_eq, Hrc, window_after_expired by assumption.
      reflexivity.
Qed.

(** C10.  After a rejected call the count of the client is above the
    limit, and as long as its calls arrive no more than [interval] seconds
    after the start of the window, each of them is rejected and raises
    the count by one; the start of the window does not move. *)
Theorem rejected_until_reset request t (rc : gmap string RequestInfo) app
    e rc1 app1 calls :
  let ip := client_host request in
  rate_limit limit interval func request t rc app = (inl e, rc1, app1) ->
  exists info1,
    rc1 !! ip = Some info1
    /\ limit < count info1
    /\ (Forall (within interval (timestamp info1)) (calls_of ip calls) ->
        Forall (fun b => b = false)
               (outcomes_of ip (serve limit interval func calls rc1 app1).1.1)
        /\ (serve limit interval func calls rc1 app1).1.2 !! ip
           = Some (mkRequestInfo
                     (count info1 + Z.of_nat (length (calls_of ip calls)))
                     (timestamp info1))).
Proof.
  intros ip Hr.
  destruct (rate_limit_rejection _ _ _ _ _ _ _ Hr) as (_ & _ & Hc).
  pose proof (rate_limit_counts request t rc app) as Hrc1.
  rewrite Hr in Hrc1. simpl in Hrc1. fold ip in Hrc1, Hc.
  exists (window_after interval t (rc !! ip)).
  split; [rewrite Hrc1; apply lookup_insert_eq |].
  split; [exact Hc |].
  intros Hw.
  assert (Hl : rc1 !! ip = Some (window_after interval t (rc !! ip)))
    by (rewrite Hrc1; apply lookup_insert_eq).
  destruct (serve_inside_window ip calls rc1 app1 _ Hl Hw) as [Ho Hcnt].
  split; [| exact Hcnt].
  rewrite Ho. apply window_outcomes_rejected. lia.
Qed.

End RateLimitProperties.

(** Limit 2 per 60 seconds: the third call of the client in the minute is
    rejected and the handler has run for the three admitted calls only;
    the call at second 61 opens a new window. *)
Example burst_outcomes :
  let '(rs, rc, n) := serve 2 60 counting_handler (burst ++ [(alice, 61%Q)]) ∅ O in
  outcomes_of "10.0.0.1" rs = [true; true; false; true]
  /\ outcomes_of "10.0.0.2" rs = [true]
  /\ rc !! "10.0.0.1" = Some (mkRequestInfo 1 61%Q)
  /\ n = 4%nat.
Proof. vm_compute. repeat split. Qed.

Lemma burst_within : Forall (within 60 0%Q) (calls_of "10.0.0.1" (tail burst)).
Proof.
  repeat constructor; unfold within; simpl; intros Hlt; vm_compute in Hlt;
    discriminate.
Qed.

Lemma rate_limit_window_witness :
  (∅ : gmap string RequestInfo) !! "10.0.0.1" = None
  /\ Forall (within 60 0%Q) (calls_of "10.0.0.1" (tail burst))
  /\ forall i b,
       outcomes_of "10.0.0.1" (serve 2 60 counting_handler burst ∅ O).1.1 !! i = Some b ->
       b = bool_decide (Z.of_nat i < 2).
Proof.
  split; [reflexivity |]. split; [exact burst_within |].
  exact (proj2 (proj2 (proj1 (rate_limit_window 2 60 counting_handler alice 0%Q
                                (tail burst) ∅ O)
                         eq_refl burst_within))).
Defined.

Lemma rejected_until_reset_witness :
  let rc := <["10.0.0.1" := mkRequestInfo 2 0%Q]> (∅ : gmap string RequestInfo) in
  rate_limit 2 60 counting_handler alice 20%Q rc O
    = (inl (mkHTTPException 429 "Rate limit exceeded"),
       <["10.0.0.1" := mkRequestInfo 3 0%Q]> rc, O)
  /\ exists info1,
       (<["10.0.0.1" := mkRequestInfo 3 0%Q]> rc) !! "10.0.0.1" = Some info1
       /\ 2 < count info1
       /\ (Forall (within 60 (timestamp info1)) (calls_of "10.0.0.1" [(alice, 30%Q)]) ->
           Forall (fun b => b = false)
             (outcomes_of "10.0.0.1"
                (serve 2 60 counting_handler [(alice, 30%Q)]
                   (<["10.0.0.1" := mkRequestInfo 3 0%Q]> rc) O).1.1)
           /\ (serve 2 60 counting_handler [(alice, 30%Q)]
                 (<["10.0.0.1" := mkRequestInfo 3 0%Q]> rc) O).1.2 !! "10.0.0.1"
              = Some (mkRequestInfo
                        (count info1
                         + Z.of_nat (length (calls_of "10.0.0.1" [(alice, 30%Q)])))
                        (timestamp info1))).
Proof.
  intros rc.
  assert (Hr : rate_limit 2 60 counting_handler alice 20%Q rc O
               = (inl (mkHTTPException 429 "Rate limit exceeded"),
                  <["10.0.0.1" := mkRequestInfo 3 0%Q]> rc, O)).
  { reflexivity. }
  split; [exact Hr |].
  exact (rejected_until_reset 2 60 counting_handler alice 20%Q rc O _ _ _
           [(alice, 30%Q)] Hr).
Defined.

(** ** Caching with a timeout *)

Section CacheProperties.
Context {K : Type} `{Countable K} {V Env : Type}.
Variable timeout : Z.
Variable clock : Env -> Clock.
Variable func : K -> Env -> V * Env.

(** The test of the wrapper compares a reading of the local clock with a
    stored reading of the UTC clock: an entry stored at POSIX time
    [stored] is served at POSIX time [now] exactly when [now - stored]
    plus the offset of the zone is below the timeout. *)
Lemma cache_hit_condition key (cache : gmap K (CacheEntry V)) env entry :
  cache !! key = Some entry ->
  cache_with_timeout timeout clock func key cache env =
    if posix_us (clock env) - ce_timestamp entry
         + timedelta_seconds (utc_offset (clock env)) <? timedelta_seconds timeout
    then (ce_value entry, cache, env)
    else let r := func key env in
         (r.1, <[key := mkCacheEntry r.1 (posix_us (clock r.2))]> cache, r.2).
Proof.
  intros Hc. unfold cache_with_timeout, datetime_now, datetime_utcnow. rewrite Hc.
  replace (posix_us (clock env) + timedelta_seconds (utc_offset (clock env))
           - ce_timestamp entry)
    with (posix_us (clock env) - ce_timestamp entry
          + timedelta_seconds (utc_offset (clock env))) by lia.
  destruct (_ <? _); [reflexivity |]. destruct (func key env); reflexivity.
Qed.

Lemma cache_miss key (cache : gmap K (CacheEntry V)) env :
  cache !! key = None ->
  cache_with_timeout timeout clock func key cache env =
    let r := func key env in
    (r.1, <[key := mkCacheEntry r.1 (posix_us (clock r.2))]> cache, r.2).
Proof.
  intros Hc. unfold cache_with_timeout, datetime_utcnow. rewrite Hc.
  destruct (func key env); reflexivity.
Qed.

(** In a process whose local zone is UTC the wrapper serves an entry
    while it is younger than the timeout and recomputes it afterwards. *)
Lemma cache_in_utc key (cache : gmap K (CacheEntry V)) env entry :
  utc_offset (clock env) = 0 ->
  cache !! key = Some entry ->
  (posix_us (clock env) - ce_timestamp entry < timedelta_seconds timeout ->
     cache_with_timeout timeout clock func key cache env
     = (ce_value entry, cache, env))
  /\ (timedelta_seconds timeout <= posix_us (clock env) - ce_timestamp entry ->
     cache_with_timeout timeout clock func key cache env
     = ((func key env).1,
        <[key := mkCacheEntry (func key env).1 (posix_us (clock (func key env).2))]> cache,
        (func key env).2)).
Proof.
  intros Hz Hc. rewrite (cache_hit_condition key cache env entry Hc), Hz.
  change (timedelta_seconds 0) with 0. rewrite Z.add_0_r. split; intros Ht.
  - apply Z.ltb_lt in Ht. rewrite Ht. reflexivity.
  - apply Z.ltb_ge in Ht. rewrite Ht. reflexivity.
Qed.

End CacheProperties.

(** C5 fails on the code.  Timeout 300 seconds, zone UTC+05:30: the second
    call comes 10 seconds after the first one has stored its result, well
    within the time-to-live, and the wrapped operation runs again; the
    claim has the cached value returned without a second run. *)
Theorem cache_recomputes_within_ttl_east_of_utc :
  let '(value, cache, s) := call_twice 300 10 server_east in
  value = 2%nat /\ invocations s = 2%nat.
Proof. vm_compute. split; reflexivity. Qed.

(** The same defect in a zone west of UTC: the second call comes 400
    seconds after the first, past the time-to-live of 300 seconds, and is
    served the stored value; in fact it is served it for five hours. *)
Example cache_serves_stale_west_of_utc :
  let '(value, cache, s) := call_twice 300 400 server_west in
  value = 1%nat /\ invocations s = 1%nat.
Proof. vm_compute. split; reflexivity. Qed.

(** ** Fetching a reading *)

Lemma datetime_fromtimestamp_eq offset ts w :
  datetime_fromtimestamp offset ts w =
    if in_datetime_range offset ts
    then (inr (timedelta_seconds (ts + offset)), w)
    else (inl TimestampOutOfRange, w).
Proof.
  unfold datetime_fromtimestamp. destruct (in_datetime_range offset ts); reflexivity.
Qed.

Lemma kelvin_offset_is_finite : is_finite 273.15 = true.
Proof. vm_compute. reflexivity. Qed.

Lemma float_sub_kelvin x w :
  float_sub x 273.15 w =
    if is_finite x
    then (inr (double_of (double_of x - double_of 273.15)), w)
    else (inl OverflowError, w).
Proof.
  unfold float_sub, float_of, bind. destruct (is_finite x); [| reflexivity].
  rewrite kelvin_offset_is_finite. reflexivity.
Qed.

(** The Kelvin offset in doubles: 300.15 K is 27 degrees to the last bit,
    280 K is a little more than 6.85 degrees (6.850000000000023 as Python
    prints it). *)
Example kelvin_offset_in_doubles :
  (double_of (double_of 300.15 - double_of 273.15) == 27)%Q
  /\ (double_of (double_of 280 - double_of 273.15)
      == 60253237202125 # 8796093022208)%Q
  /\ (6.85 < double_of (double_of 280 - double_of 273.15))%Q.
Proof. repeat split; vm_compute; reflexivity. Qed.

(** The largest double less the Kelvin offset is the largest double
    again: the difference stays a double at the far ends. *)
Example kelvin_offset_at_the_ends :
  (double_of (double_max + double_of 273.15) == double_max)%Q
  /\ (double_of (- double_max - double_of 273.15) == - double_max)%Q.
Proof. split; vm_compute; reflexivity. Qed.

Section FetchProperties.
Variable geo_api : string -> string -> GeoResponse.
Variable weather_api : string -> option Q -> option Q -> string -> WeatherResponse.
Variable local_offset : Z.

Lemma get_lat_lon_ok city api_key place places w :
  geo_status_code (geo_api city api_key) = 200 ->
  geo_json (geo_api city api_key) = place :: places ->
  get_lat_lon_for_city geo_api city api_key w
  = (inr (place !! "lat", place !! "lon"), w).
Proof.
  intros Hs Hj. unfold get_lat_lon_for_city. rewrite Hs, Hj. reflexivity.
Qed.

(** The body of the fetch once both calls have answered 200. *)
Lemma fetch_weather_data_eq api_url api_key city w place places :
  geo_status_code (geo_api city api_key) = 200 ->
  geo_json (geo_api city api_key) = place :: places ->
  let response := weather_api api_url (place !! "lat") (place !! "lon") api_key in
  let data := w_json response in
  w_status_code response = 200 ->
  fetch_weather_data geo_api weather_api local_offset api_url api_key city w
  = (dt <- (ts <- required "dt" (p_dt data) ;;
            datetime_fromtimestamp local_offset ts) ;;
     main_condition <-
       (ws <- required "weather" (p_weather data) ;;
        w0 <- index ws 0 ;; subscript w0 "main") ;;
     temp <-
       (m <- required "main" (p_main data) ;;
        t <- subscript m "temp" ;; float_sub t 273.15) ;;
     feels_like <-
       (m <- required "main" (p_main data) ;;
        t <- subscript m "feels_like" ;; float_sub t 273.15) ;;
     pressure <- (m <- required "main" (p_main data) ;; subscript m "pressure") ;;
     humidity <- (m <- required "main" (p_main data) ;; subscript m "humidity") ;;
     clouds <- (c <- required "clouds" (p_clouds data) ;; ret (default 0%Q (c !! "all"))) ;;
     ret (mkWeatherData dt main_condition temp feels_like pressure humidity
            (default 0%Q (default ∅ (p_rain data) !! "1h")) clouds city)) w.
Proof.
  intros Hs Hj response data Hw. unfold fetch_weather_data.
  rewrite (bind_inr _ _ _ _ _ (get_lat_lon_ok city api_key place places w Hs Hj)).
  cbn [fst snd]. fold response. rewrite Hw. reflexivity.
Qed.

(** What the fetch builds from a complete answer.  Both calls answer
    200; the payload carries a [dt] that [datetime.fromtimestamp]
    accepts, a first [weather] entry with [main], the four entries of
    [main], the two temperatures within the doubles, and a [clouds]
    object.  The reading has the temperatures less 273.15 in float
    arithmetic, the [1h] entry of [rain], or 0 when the payload has no
    [rain] object or the object no [1h] entry, the [all] entry of
    [clouds], or 0 when that entry is missing, and [dt] as a local time. *)
Lemma fetch_builds_reading api_url api_key city w place places
    dt w0 ws condition main temp_k feels_k pressure humidity clouds :
  geo_status_code (geo_api city api_key) = 200 ->
  geo_json (geo_api city api_key) = place :: places ->
  let response := weather_api api_url (place !! "lat") (place !! "lon") api_key in
  let data := w_json response in
  w_status_code response = 200 ->
  p_dt data = Some dt -> in_datetime_range local_offset dt = true ->
  p_weather data = Some (w0 :: ws) -> w0 !! "main" = Some condition ->
  p_main data = Some main ->
  main !! "temp" = Some temp_k -> is_finite temp_k = true ->
  main !! "feels_like" = Some feels_k -> is_finite feels_k = true ->
  main !! "pressure" = Some pressure -> main !! "humidity" = Some humidity ->
  p_clouds data = Some clouds ->
  exists reading,
    fetch_weather_data geo_api weather_api local_offset api_url api_key city w
    = (inr reading, w)
    /\ wd_temp reading = double_of (double_of temp_k - double_of 273.15)
    /\ wd_feels_like reading = double_of (double_of feels_k - double_of 273.15)
    /\ wd_dt reading = timedelta_seconds (dt + local_offset)
    /\ wd_main_condition reading = condition
    /\ wd_pressure reading = pressure /\ wd_humidity reading = humidity
    /\ wd_city reading = city
    /\ (p_rain data = None -> wd_rain reading = 0%Q)
    /\ (forall rain, p_rain data = Some rain ->
          wd_rain reading = match rain !! "1h" with Some x => x | None => 0%Q end)
    /\ wd_clouds reading = match clouds !! "all" with Some x => x | None => 0%Q end.
Proof.
  intros Hgs Hgj response data Hs Hdt Hrange Hw Hw0 Hm Ht Hft Hf Hff Hp Hh Hc.
  eexists. split.
  - rewrite (fetch_weather_data_eq api_url api_key city w place places Hgs Hgj Hs).
    fold response. fold data. rewrite Hdt, Hw, Hm, Hc.
    unfold bind, required, index, subscript, ret. cbn [lookup list_lookup].
    rewrite datetime_fromtimestamp_eq, Hrange, Hw0, Ht, Hf, Hp, Hh.
    rewrite float_sub_kelvin, Hft. cbv beta iota.
    rewrite float_sub_kelvin, Hff. reflexivity.
  - cbn [wd_temp wd_feels_like wd_dt wd_main_condition wd_pressure wd_humidity
          wd_city wd_rain wd_clouds].
    repeat split.
    + intros ->. reflexivity.
    + intros rain ->. unfold default, from_option, id.
      destruct (rain !! "1h"); reflexivity.
Qed.

End FetchProperties.

(** 300.15 K is 27 degrees; without a [rain] object and with an empty
    [clouds] object the rain and the cloud cover are 0. *)
Example dry_payload_reading :
  exists reading,
    fetch_weather_data sample_geo (answer dry_payload) 19800 "url" "key" "Delhi" empty_world
    = (inr reading, empty_world)
    /\ (wd_temp reading == 27)%Q /\ (wd_feels_like reading == 30)%Q
    /\ wd_rain reading = 0%Q /\ wd_clouds reading = 0%Q
    /\ wd_dt reading = timedelta_seconds (1700000000 + 19800).
Proof.
  eexists. split; [vm_compute; reflexivity |].
  cbn [wd_temp wd_feels_like wd_rain wd_clouds wd_dt].
  repeat split; reflexivity.
Qed.

(** C6 fails on the code.  The provider answers 200 with a payload that
    has neither a [rain] nor a [clouds] object.  The claim has both read
    as 0.  The code reads the rain with [data.get('rain', {})], which
    stands in for the missing object, and the cloud cover with
    [data['clouds']], which does not: the fetch raises [KeyError] for
    [clouds] and returns no reading.  With an empty [clouds] object in its
    place, the same payload gives a reading with rain 0 and cloud cover 0. *)
Theorem fetch_without_clouds_raises :
  w_status_code (answer cloudless_payload "url" (Some 28.6%Q) (Some 77.2%Q) "key") = 200
  /\ p_rain cloudless_payload = None
  /\ p_clouds cloudless_payload = None
  /\ fetch_weather_data sample_geo (answer cloudless_payload) 19800 "url" "key" "Delhi"
       empty_world
     = (inl (KeyError "clouds"), empty_world)
  /\ exists reading,
       fetch_weather_data sample_geo (answer dry_payload) 19800 "url" "key" "Delhi"
         empty_world
       = (inr reading, empty_world)
       /\ wd_rain reading = 0%Q /\ wd_clouds reading = 0%Q.
Proof.
  split; [reflexivity |]. split; [reflexivity |]. split; [reflexivity |].
  split; [vm_compute; reflexivity |].
  eexists. split; [vm_compute; reflexivity |]. split; reflexivity.
Qed.

(** ** Daily aggregation *)

Lemma same_key_true d e : same_key d e = true <-> daily_key d = daily_key e.
Proof. unfold same_key. apply bool_decide_eq_true. Qed.

Lemma has_key_true d t :
  has_key d t = true <-> exists e, e ∈ t /\ daily_key e = daily_key d.
Proof.
  unfold has_key. rewrite existsb_exists. split.
  - intros (e & Hin & Hk). exists e. split; [apply list_elem_of_In, Hin |].
    symmetry. apply same_key_true, Hk.
  - intros (e & Hin & Hk). exists e. split; [apply list_elem_of_In, Hin |].
    apply same_key_true. symmetry. exact Hk.
Qed.

Lemma has_key_false d t :
  has_key d t = false -> forall e, e ∈ t -> daily_key e <> daily_key d.
Proof.
  intros Hf e Hin Hk.
  assert (Ht : has_key d t = true) by (apply has_key_true; eauto).
  congruence.
Qed.

Lemma upsert_keys d t :
  map daily_key (upsert d t)
  = if has_key d t then map daily_key t else map daily_key t ++ [daily_key d].
Proof.
  unfold upsert. destruct (has_key d t).
  - rewrite map_map. apply map_ext. intros e.
    destruct (same_key d e) eqn:E; [| reflexivity].
    apply same_key_true in E. exact E.
  - rewrite map_app. reflexivity.
Qed.

Lemma upsert_keyed d t : keyed t -> keyed (upsert d t).
Proof.
  unfold keyed. rewrite upsert_keys. destruct (has_key d t) eqn:E; [exact id |].
  intros Hn. apply NoDup_app. split; [exact Hn |]. split; [| apply NoDup_singleton].
  intros k Hk Hd. apply list_elem_of_singleton in Hd. subst k.
  apply list_elem_of_fmap in Hk as (e & Hke & Hin).
  exact (has_key_false d t E e Hin (eq_sym Hke)).
Qed.

Lemma upsert_settles d t : settled d (upsert d t).
Proof.
  unfold settled, upsert. destruct (has_key d t) eqn:E.
  - split.
    + apply has_key_true in E as (e & Hin & Hk). apply has_key_true.
      exists d. split; [| reflexivity].
      apply list_elem_of_fmap. exists e. split; [| exact Hin].
      assert (Hs : same_key d e = true) by (apply same_key_true; symmetry; exact Hk).
      rewrite Hs. reflexivity.
    + intros e Hin Hk. apply list_elem_of_fmap in Hin as (e0 & -> & Hin0).
      destruct (same_key d e0) eqn:Hs; [reflexivity |].
      exfalso. assert (Ht : same_key d e0 = true)
        by (apply same_key_true; symmetry; exact Hk).
      congruence.
  - split.
    + apply has_key_true. exists d. split; [| reflexivity].
      apply elem_of_app. right. apply list_elem_of_singleton. reflexivity.
    + intros e Hin Hk. apply elem_of_app in Hin as [Hin | Hin].
      * exfalso. exact (has_key_false d t E e Hin Hk).
      * apply list_elem_of_singleton in Hin. exact Hin.
Qed.

Lemma upsert_keeps_settled d d' t :
  daily_key d <> daily_key d' -> settled d t -> settled d (upsert d' t).
Proof.
  intros Hne [Hh Hu]. unfold settled. split.
  - apply has_key_true in Hh as (e & Hin & Hk). apply has_key_true.
    exists e. split; [| exact Hk]. unfold upsert. destruct (has_key d' t).
    + apply list_elem_of_fmap. exists e. split; [| exact Hin].
      destruct (same_key d' e) eqn:Hs; [| reflexivity].
      apply same_key_true in Hs. congruence.
    + apply elem_of_app. left. exact Hin.
  - intros e Hin Hk. unfold upsert in Hin. destruct (has_key d' t).
    + apply list_elem_of_fmap in Hin as (e0 & -> & Hin0).
      destruct (same_key d' e0) eqn:Hs; [congruence |].
      apply Hu; assumption.
    + apply elem_of_app in Hin as [Hin | Hin]; [apply Hu; assumption |].
      apply list_elem_of_singleton in Hin. congruence.
Qed.

Lemma upsert_settled d t : settled d t -> upsert d t = t.
Proof.
  intros [Hh Hu]. unfold upsert. rewrite Hh.
  rewrite <- (map_id t) at 2. apply map_ext_in. intros e Hin.
  destruct (same_key d e) eqn:Hs; [| reflexivity].
  apply same_key_true in Hs. symmetry. apply Hu; [apply list_elem_of_In, Hin | congruence].
Qed.

Lemma upsert_all_keeps_settled d ds t :
  daily_key d ∉ map daily_key ds -> settled d t -> settled d (upsert_all ds t).
Proof.
  revert t. induction ds as [| d' ds IH]; intros t Hn Hs; [exact Hs |].
  simpl. apply IH.
  - intros Hin. apply Hn. simpl. apply elem_of_cons. right. exact Hin.
  - apply upsert_keeps_settled; [| exact Hs].
    intros Hk. apply Hn. simpl. apply elem_of_cons. left. exact Hk.
Qed.

Lemma upsert_all_settles ds t d :
  NoDup (map daily_key ds) -> d ∈ ds -> settled d (upsert_all ds t).
Proof.
  revert t. induction ds as [| d0 ds IH]; intros t Hn Hin.
  - apply elem_of_nil in Hin. contradiction.
  - simpl in Hn. apply NoDup_cons in Hn as [Hfresh Hn].
    apply elem_of_cons in Hin as [-> | Hin]; simpl.
    + apply upsert_all_keeps_settled; [exact Hfresh | apply upsert_settles].
    + apply IH; assumption.
Qed.

Lemma upsert_all_fixed ds t :
  (forall d, d ∈ ds -> settled d t) -> upsert_all ds t = t.
Proof.
  induction ds as [| d ds IH]; intros Hs; [reflexivity |].
  simpl. rewrite (upsert_settled d t) by (apply Hs, elem_of_cons; left; reflexivity).
  apply IH. intros d' Hin. apply Hs, elem_of_cons. right. exact Hin.
Qed.

(** Merging the same summaries a second time changes nothing. *)
Lemma upsert_all_idempotent ds t :
  NoDup (map daily_key ds) -> upsert_all ds (upsert_all ds t) = upsert_all ds t.
Proof.
  intros Hn. apply upsert_all_fixed. intros d Hin.
  apply upsert_all_settles; assumption.
Qed.

Lemma upsert_all_keyed ds t : keyed t -> keyed (upsert_all ds t).
Proof.
  revert t. induction ds as [| d ds IH]; intros t Hk; [exact Hk |].
  simpl. apply IH, upsert_keyed, Hk.
Qed.

Lemma rows_of_absent k t : k ∉ map daily_key t -> rows_of k t = [].
Proof.
  unfold rows_of. induction t as [| e t IH]; intros Hn; [reflexivity |].
  rewrite filter_cons. destruct (decide (daily_key e = k)) as [Hk | Hk].
  - exfalso. apply Hn. simpl. apply elem_of_cons. left. symmetry. exact Hk.
  - apply IH. intros Hin. apply Hn. simpl. apply elem_of_cons. right. exact Hin.
Qed.

Lemma rows_of_settled d t :
  keyed t -> settled d t -> rows_of (daily_key d) t = [d].
Proof.
  unfold keyed. intros Hn [Hh Hu].
  induction t as [| e t IH]; [discriminate |].
  simpl in Hn. apply NoDup_cons in Hn as [Hfresh Hn].
  unfold rows_of. rewrite filter_cons.
  destruct (decide (daily_key e = daily_key d)) as [Hk | Hk].
  - assert (He : e = d) by (apply Hu; [apply elem_of_cons; left; reflexivity | exact Hk]).
    subst e. f_equal. apply rows_of_absent. exact Hfresh.
  - apply IH; [exact Hn | |].
    + simpl in Hh. destruct (same_key d e) eqn:Hs; [| exact Hh].
      apply same_key_true in Hs. congruence.
    + intros e0 Hin0. apply Hu. apply elem_of_cons. right. exact Hin0.
Qed.

Lemma fold_flush_merges ds w :
  fold_left (fun w p => flush_one p w) (map MergeDaily ds) w
  = set_daily (upsert_all ds) w.
Proof.
  revert w. induction ds as [| d ds IH]; intros w.
  - destruct w; reflexivity.
  - simpl. rewrite IH. reflexivity.
Qed.

Lemma for_each_merge_ok rows w :
  no_fault w ->
  exists w',
    for_each (fun row => session_merge (daily_of_row row)) rows w = (inr tt, w')
    /\ no_fault w'
    /\ pending w' = pending w ++ map MergeDaily (map daily_of_row rows)
    /\ realtime_weather w' = realtime_weather w
    /\ daily_weather w' = daily_weather w.
Proof.
  revert w. induction rows as [| row rows IH]; intros w Hf.
  - exists w. simpl. rewrite app_nil_r. repeat split; assumption.
  - destruct (IH (set_pending (fun ps => ps ++ [MergeDaily (daily_of_row row)])
                    (advance w)))
      as (w' & Hrun & Hf' & Hp & Hr & Hd).
    { apply no_fault_set_pending, no_fault_tail, Hf. }
    exists w'. split; [| split; [exact Hf' | split; [| split; assumption]]].
    + simpl. unfold session_merge, bind at 1 2. rewrite storage_op_eq.
      rewrite (no_fault_next w Hf). unfold modify. exact Hrun.
    + rewrite Hp. simpl. rewrite <- app_assoc. reflexivity.
Qed.

Lemma microseconds_per_day_pos : 0 < microseconds_per_day.
Proof. reflexivity. Qed.

Lemma in_day_iff today dt :
  combine_min today <= dt <= combine_max today <-> date_of dt = today.
Proof.
  unfold combine_min, combine_max, date_of.
  pose proof microseconds_per_day_pos as Hpos.
  split.
  - intros [Hlo Hhi]. symmetry.
    apply (Z.div_unique dt microseconds_per_day today
             (dt - microseconds_per_day * today)); lia.
  - intros <-.
    pose proof (Z.mul_div_le dt _ Hpos).
    pose proof (Z.mul_succ_div_gt dt _ Hpos). lia.
Qed.

Lemma elem_of_readings_of_day today rows r :
  r ∈ readings_of_day today rows <-> r ∈ rows /\ date_of (rw_dt r) = today.
Proof.
  unfold readings_of_day. rewrite list_elem_of_filter, <- in_day_iff.
  rewrite andb_True, !Is_true_true, !Z.leb_le. tauto.
Qed.

Lemma elem_of_observed today rows k :
  k ∈ observed today rows
  <-> exists r, r ∈ rows /\ date_of (rw_dt r) = today /\ k = (rw_city r, today).
Proof.
  unfold observed. rewrite elem_of_remove_dups, list_elem_of_fmap. split.
  - intros (r & -> & Hin). apply elem_of_readings_of_day in Hin as [Hin Hd].
    exists r. unfold group_key. rewrite Hd. auto.
  - intros (r & Hin & Hd & ->). exists r. split.
    + unfold group_key. rewrite Hd. reflexivity.
    + apply elem_of_readings_of_day. auto.
Qed.

Section AggregationProperties.
Context `{SqlEngine}.

Lemma summaries_keys today rows :
  map daily_key (summaries today rows) = observed today rows.
Proof.
  unfold summaries. rewrite map_map. rewrite <- (map_id (observed today rows)) at 2.
  apply map_ext. intros [city date]. reflexivity.
Qed.

Lemma aggregate_daily_weather_ok today w :
  no_fault w -> clean w ->
  exists w',
    aggregate_daily_weather today w = (inr tt, w')
    /\ no_fault w' /\ clean w'
    /\ realtime_weather w' = realtime_weather w
    /\ daily_weather w'
       = upsert_all (summaries today (realtime_weather w)) (daily_weather w).
Proof.
  intros Hf Hc. unfold aggregate_daily_weather, query_daily_aggregates.
  unfold bind at 1 2. rewrite storage_op_eq, (no_fault_next w Hf).
  unfold gets, bind at 1, ret.
  change (realtime_weather (advance w)) with (realtime_weather w).
  fold (readings_of_day today (realtime_weather w)).
  fold (observed today (realtime_weather w)).
  destruct (for_each_merge_ok
              (map (aggregate_group (readings_of_day today (realtime_weather w)))
                   (observed today (realtime_weather w)))
              (advance w) (no_fault_tail w Hf))
    as (w1 & Hrun & Hf1 & Hp & Hr & Hd).
  unfold bind. unfold daily_of_row in Hrun. rewrite Hrun.
  rewrite session_commit_eq, (no_fault_next w1 Hf1).
  eexists. split; [reflexivity |].
  split; [apply no_fault_flush, no_fault_tail, Hf1 |].
  split; [reflexivity |].
  unfold clean in Hc. change (pending (advance w)) with (pending w) in Hp.
  rewrite Hc in Hp. simpl in Hp.
  unfold flush. cbn [realtime_weather daily_weather set_pending].
  change (pending (advance w1)) with (pending w1). rewrite Hp.
  rewrite fold_flush_merges. cbn [realtime_weather daily_weather set_daily advance set_faults].
  rewrite Hr, Hd. split; [reflexivity |].
  unfold summaries, summary_of. rewrite map_map. reflexivity.
Qed.

(** The row stored for an observed pair after a run. *)
Lemma aggregate_stores today w w1 k :
  keyed (daily_weather w) ->
  daily_weather w1
    = upsert_all (summaries today (realtime_weather w)) (daily_weather w) ->
  k ∈ observed today (realtime_weather w) ->
  rows_of k (daily_weather w1) = [summary_of today (realtime_weather w) k].
Proof.
  intros Hk Hd Hin.
  assert (Hkey : daily_key (summary_of today (realtime_weather w) k) = k)
    by (destruct k; reflexivity).
  rewrite <- Hkey at 1. rewrite Hd. apply rows_of_settled.
  - apply upsert_all_keyed, Hk.
  - apply upsert_all_settles.
    + rewrite summaries_keys. apply NoDup_remove_dups.
    + unfold summaries. apply list_elem_of_fmap. exists k. split; [reflexivity | exact Hin].
Qed.

(** The group of a pair of the day is the readings of that city dated
    that day. *)
Lemma group_of_city_and_day today rows city :
  filter (fun r => in_group (city, today) r) (readings_of_day today rows)
  = filter (fun r => rw_city r = city /\ date_of (rw_dt r) = today) rows.
Proof.
  unfold readings_of_day. rewrite list_filter_filter. apply list_filter_iff.
  intros r. unfold in_group, group_key.
  rewrite Is_true_true, bool_decide_eq_true, andb_True, !Is_true_true, !Z.leb_le.
  rewrite in_day_iff. split.
  - intros [Heq Hday]. inversion Heq. auto.
  - intros [-> ->]. auto.
Qed.

Lemma summary_of_city_and_day today rows city :
  summary_of today rows (city, today) = expected_summary city today rows.
Proof.
  unfold summary_of, expected_summary, daily_of_row, aggregate_group.
  cbn [ar_date ar_city ar_avg_temp ar_max_temp ar_min_temp ar_dom_condition fst snd].
  rewrite group_of_city_and_day. reflexivity.
Qed.

(** C3.  The daily table has (city, date) as its key.  On a session with
    nothing staged and no storage fault, two runs of the aggregation for
    the same day, with nothing ingested in between, both succeed and leave
    the readings alone; for every city that has a stored reading dated
    that day, the table holds after each run exactly one row under the
    pair of that city and day, and after the second run as after the first
    it is the summary of the readings of that city dated that day, which
    has taken the place of a row stored under the pair before; the second
    run leaves the whole table as the first one left it. *)
Theorem aggregation_is_idempotent today w :
  no_fault w -> clean w -> keyed (daily_weather w) ->
  exists w1 w2,
    aggregate_daily_weather today w = (inr tt, w1)
    /\ aggregate_daily_weather today w1 = (inr tt, w2)
    /\ realtime_weather w1 = realtime_weather w
    /\ daily_weather w2 = daily_weather w1
    /\ forall r, r ∈ realtime_weather w -> date_of (rw_dt r) = today ->
         rows_of (rw_city r, today) (daily_weather w1)
         = [expected_summary (rw_city r) today (realtime_weather w)]
         /\ rows_of (rw_city r, today) (daily_weather w2)
            = [expected_summary (rw_city r) today (realtime_weather w)].
Proof.
  intros Hf Hc Hk.
  destruct (aggregate_daily_weather_ok today w Hf Hc)
    as (w1 & Hrun1 & Hf1 & Hc1 & Hr1 & Hd1).
  destruct (aggregate_daily_weather_ok today w1 Hf1 Hc1)
    as (w2 & Hrun2 & _ & _ & _ & Hd2).
  assert (Hsame : daily_weather w2 = daily_weather w1).
  { rewrite Hd2, Hr1, Hd1. apply upsert_all_idempotent.
    rewrite summaries_keys. apply NoDup_remove_dups. }
  exists w1, w2. split; [exact Hrun1 |]. split; [exact Hrun2 |].
  split; [exact Hr1 |]. split; [exact Hsame |].
  intros r Hin Hday.
  assert (Hone : rows_of (rw_city r, today) (daily_weather w1)
                 = [expected_summary (rw_city r) today (realtime_weather w)]).
  { rewrite <- summary_of_city_and_day.
    apply (aggregate_stores today w w1 _ Hk Hd1).
    apply elem_of_observed. exists r. auto. }
  split; [exact Hone | rewrite Hsame; exact Hone].
Qed.

End AggregationProperties.

(** Two runs on the sample session: the stored summary of Delhi is
    replaced, one is added for Pune, and the second run changes nothing. *)
Example aggregation_twice :
  let w1 := snd (aggregate_daily_weather (H := running_sum) 2 aggregation_world) in
  let w2 := snd (aggregate_daily_weather (H := running_sum) 2 w1) in
  daily_weather w1
  = [mkDailyWeather 2 "Delhi" 25%Q 30%Q 20%Q "Rain";
     mkDailyWeather 2 "Pune" 25%Q 25%Q 25%Q "Haze"]
  /\ daily_weather w2 = daily_weather w1.
Proof. vm_compute. split; reflexivity. Qed.

(** The summary Delhi is to have for day 2 on the sample session. *)
Example delhi_summary :
  expected_summary (H := running_sum) "Delhi" 2 (realtime_weather aggregation_world)
  = mkDailyWeather 2 "Delhi" 25%Q 30%Q 20%Q "Rain".
Proof. vm_compute. reflexivity. Qed.

Lemma aggregation_world_keyed : keyed (daily_weather aggregation_world).
Proof. unfold keyed. simpl. apply NoDup_singleton. Qed.

Lemma aggregation_is_idempotent_witness :
  no_fault aggregation_world /\ clean aggregation_world
  /\ keyed (daily_weather aggregation_world)
  /\ exists w1 w2,
       aggregate_daily_weather (H := running_sum) 2 aggregation_world = (inr tt, w1)
       /\ aggregate_daily_weather (H := running_sum) 2 w1 = (inr tt, w2)
       /\ realtime_weather w1 = realtime_weather aggregation_world
       /\ daily_weather w2 = daily_weather w1
       /\ forall r, r ∈ realtime_weather aggregation_world ->
            date_of (rw_dt r) = 2 ->
            rows_of (rw_city r, 2) (daily_weather w1)
            = [expected_summary (H := running_sum) (rw_city r) 2
                 (realtime_weather aggregation_world)]
            /\ rows_of (rw_city r, 2) (daily_weather w2)
               = [expected_summary (H := running_sum) (rw_city r) 2
                    (realtime_weather aggregation_world)].
Proof.
  split; [constructor |]. split; [reflexivity |].
  split; [exact aggregation_world_keyed |].
  apply (aggregation_is_idempotent (H := running_sum) 2 aggregation_world);
    [constructor | reflexivity | exact aggregation_world_keyed].
Defined.

(** ** Exports *)

Lemma json_dumps_instance_state (d : DailyWeather) rows w :
  json_dumps None (map daily_dict (d :: rows)) w
  = (inl (TypeError "Object is not JSON serializable"), w).
Proof. reflexivity. Qed.

(** With at least one summary stored the historical export raises: the
    attribute dictionary of a row holds SQLAlchemy's instance state, which
    [json.dumps] cannot encode. *)
Lemma historical_export_raises d rows w :
  daily_weather w = d :: rows ->
  exists e w', get_historical_data w = (inl e, w').
Proof.
  intros Hd. unfold get_historical_data, bind at 1 2. rewrite storage_op_eq.
  destruct (next_fault w); [eexists; eexists; reflexivity |].
  unfold gets. change (daily_weather (advance w)) with (daily_weather w).
  rewrite Hd, json_dumps_instance_state. eexists; eexists; reflexivity.
Qed.

(** C9 fails on the code.  One summary is stored and the store answers
    without fault: the export raises [TypeError] where the claim has it
    return an array with one object of six fields. *)
Theorem historical_export_fails_on_stored_summary :
  daily_weather history_world = [mkDailyWeather 2 "Delhi" 25%Q 30%Q 20%Q "Rain"]
  /\ get_historical_data history_world
     = (inl (TypeError "Object is not JSON serializable"), history_world).
Proof. split; reflexivity. Qed.

(** The export succeeds on an empty table only. *)
Example historical_export_of_nothing :
  get_historical_data empty_world = (inr [], empty_world).
Proof. reflexivity. Qed.

(** The realtime export removes the instance state and passes
    [default=str]; it succeeds on the same store. *)
Example realtime_export_succeeds :
  exists objects,
    get_realtime_data plain_str history_world = (inr [objects], history_world)
    /\ map fst objects
       = ["dt"; "main_condition"; "temp"; "feels_like"; "pressure"; "humidity";
          "rain"; "clouds"; "city"].
Proof. eexists. split; [vm_compute; reflexivity | reflexivity]. Qed.

(** * Further properties of the code *)

(** ** Retention and ingestion *)

Lemma stdout_fold_flush ps w :
  stdout (fold_left (fun w p => flush_one p w) ps w) = stdout w.
Proof.
  revert w. induction ps as [| p ps IH]; intros w; simpl; [reflexivity |].
  rewrite IH. destruct p; reflexivity.
Qed.

Lemma stdout_flush w : stdout (flush w) = stdout w.
Proof. unfold flush. simpl. apply stdout_fold_flush. Qed.

Lemma filter_cutoff_twice c1 c2 (rows : list RealtimeWeather) :
  c1 <= c2 ->
  filter (fun r => c2 <=? rw_dt r) (filter (fun r => c1 <=? rw_dt r) rows)
  = filter (fun r => c2 <=? rw_dt r) rows.
Proof.
  intros Hle. induction rows as [| r rows IH]; [reflexivity |].
  rewrite (filter_cons (fun r => c1 <=? rw_dt r)).
  rewrite (filter_cons (fun r => c2 <=? rw_dt r) r rows).
  destruct (decide (c1 <=? rw_dt r)) as [H1 | H1].
  - rewrite filter_cons. rewrite IH. reflexivity.
  - rewrite IH. destruct (decide (c2 <=? rw_dt r)) as [H2 | H2]; [| reflexivity].
    exfalso. apply H1. apply Is_true_true, Z.leb_le.
    apply Is_true_true, Z.leb_le in H2. lia.
Qed.

(** A cleanup that meets no fault, on a session with nothing staged. *)
Lemma cleanup_runs now w :
  no_fault w -> clean w ->
  exists w',
    cleanup_old_realtime_weather now w = (inr tt, w')
    /\ no_fault w' /\ clean w'
    /\ realtime_weather w'
       = filter (fun r => now - timedelta_hours 24 <=? rw_dt r) (realtime_weather w)
    /\ daily_weather w' = daily_weather w
    /\ alert_events w' = alert_events w
    /\ stdout w' = stdout w.
Proof.
  intros Hf Hc. rewrite cleanup_eq, (no_fault_next w Hf). cbv zeta.
  rewrite (no_fault_next _ (no_fault_set_realtime _ _ (no_fault_tail w Hf))).
  eexists. split; [reflexivity |].
  split; [apply no_fault_flush, no_fault_tail, no_fault_set_realtime, no_fault_tail, Hf |].
  unfold clean in *. destruct w as [rt dl al pd fs out]; simpl in *. subst pd.
  simpl. rewrite filter_not_older. repeat split.
Qed.

(** An ingest call that meets no fault, on a session with nothing staged. *)
Lemma ingest_runs now dt mc t fl p h r c city w :
  no_fault w -> clean w ->
  exists w',
    insert_realtime_weather now dt mc t fl p h r c city w = (inr tt, w')
    /\ no_fault w' /\ clean w'
    /\ realtime_weather w'
       = filter (fun r => now - timedelta_hours 24 <=? rw_dt r) (realtime_weather w)
         ++ [mkRealtimeWeather dt mc t fl p h r c city]
    /\ daily_weather w' = daily_weather w
    /\ alert_events w' = alert_events w
    /\ stdout w' = stdout w.
Proof.
  intros Hf Hc.
  destruct (cleanup_runs now w Hf Hc) as (w1 & Hrun & Hf1 & Hc1 & Hr & Hd & Ha & Ho).
  rewrite insert_realtime_weather_eq, Hrun. cbv zeta.
  rewrite (no_fault_next _ (no_fault_set_pending _ _ Hf1)).
  eexists. split; [reflexivity |].
  split; [apply no_fault_flush, no_fault_tail, no_fault_set_pending, Hf1 |].
  unfold clean in *. destruct w1 as [rt dl al pd fs out]; simpl in *. subst.
  repeat split.
Qed.

(** X1.  A cleanup followed by a cleanup at the same or a later clock
    reading leaves the readings the later cleanup alone would leave; in
    particular a second cleanup at the same reading deletes nothing more.
    The daily summaries and the alert events are not touched. *)
Theorem cleanup_twice_is_later_cleanup now1 now2 w :
  no_fault w -> clean w -> now1 <= now2 ->
  exists w1 w2 w2',
    cleanup_old_realtime_weather now1 w = (inr tt, w1)
    /\ cleanup_old_realtime_weather now2 w1 = (inr tt, w2)
    /\ cleanup_old_realtime_weather now2 w = (inr tt, w2')
    /\ realtime_weather w2 = realtime_weather w2'
    /\ daily_weather w2 = daily_weather w
    /\ alert_events w2 = alert_events w.
Proof.
  intros Hf Hc Hle.
  destruct (cleanup_runs now1 w Hf Hc) as (w1 & R1 & Hf1 & Hc1 & Hr1 & Hd1 & Ha1 & _).
  destruct (cleanup_runs now2 w1 Hf1 Hc1) as (w2 & R2 & _ & _ & Hr2 & Hd2 & Ha2 & _).
  destruct (cleanup_runs now2 w Hf Hc) as (w2' & R2' & _ & _ & Hr2' & _).
  exists w1, w2, w2'. repeat split; try assumption; try congruence.
  rewrite Hr2, Hr1, Hr2'. apply filter_cutoff_twice. lia.
Qed.

Lemma cleanup_twice_is_later_cleanup_witness :
  no_fault sample_world /\ clean sample_world /\ sample_now <= sample_now + 5 /\
  exists w1 w2 w2',
    cleanup_old_realtime_weather sample_now sample_world = (inr tt, w1)
    /\ cleanup_old_realtime_weather (sample_now + 5) w1 = (inr tt, w2)
    /\ cleanup_old_realtime_weather (sample_now + 5) sample_world = (inr tt, w2')
    /\ realtime_weather w2 = realtime_weather w2'
    /\ daily_weather w2 = daily_weather sample_world
    /\ alert_events w2 = alert_events sample_world.
Proof.
  split; [constructor |]. split; [reflexivity |]. split; [lia |].
  apply (cleanup_twice_is_later_cleanup sample_now (sample_now + 5) sample_world);
    [constructor | reflexivity | lia].
Defined.

(** X2.  The age of the new reading is not looked at: a reading that is
    already older than 24 hours when it is ingested is stored all the same,
    and the next ingest call, at the same or a later clock reading, deletes
    it again. *)
Theorem stale_reading_is_stored_then_purged now1 now2
    dt1 mc1 t1 fl1 p1 h1 r1 c1 city1 dt2 mc2 t2 fl2 p2 h2 r2 c2 city2 w :
  no_fault w -> clean w ->
  dt1 < now1 - timedelta_hours 24 -> now1 <= now2 ->
  exists w1 w2,
    insert_realtime_weather now1 dt1 mc1 t1 fl1 p1 h1 r1 c1 city1 w = (inr tt, w1)
    /\ last (realtime_weather w1)
       = Some (mkRealtimeWeather dt1 mc1 t1 fl1 p1 h1 r1 c1 city1)
    /\ insert_realtime_weather now2 dt2 mc2 t2 fl2 p2 h2 r2 c2 city2 w1 = (inr tt, w2)
    /\ realtime_weather w2
       = filter (fun r => now2 - timedelta_hours 24 <=? rw_dt r) (realtime_weather w)
         ++ [mkRealtimeWeather dt2 mc2 t2 fl2 p2 h2 r2 c2 city2].
Proof.
  intros Hf Hc Hold Hle.
  destruct (ingest_runs now1 dt1 mc1 t1 fl1 p1 h1 r1 c1 city1 w Hf Hc)
    as (w1 & R1 & Hf1 & Hc1 & Hr1 & _).
  destruct (ingest_runs now2 dt2 mc2 t2 fl2 p2 h2 r2 c2 city2 w1 Hf1 Hc1)
    as (w2 & R2 & _ & _ & Hr2 & _).
  exists w1, w2. split; [exact R1 |]. split; [rewrite Hr1; apply last_snoc |].
  split; [exact R2 |].
  rewrite Hr2, Hr1, filter_app, filter_cutoff_twice by lia.
  rewrite filter_cons, filter_nil.
  rewrite decide_False; [rewrite app_nil_r; reflexivity |].
  cbn [rw_dt]. intros Hk. apply Is_true_true, Z.leb_le in Hk. lia.
Qed.

Lemma stale_reading_is_stored_then_purged_witness :
  no_fault sample_world /\ clean sample_world
  /\ 7 < sample_now - timedelta_hours 24 /\ sample_now <= sample_now /\
  exists w1 w2,
    insert_realtime_weather sample_now 7 "Mist" 1%Q 1%Q 1%Q 1%Q 0%Q 0%Q "Agra"
      sample_world = (inr tt, w1)
    /\ last (realtime_weather w1)
       = Some (mkRealtimeWeather 7 "Mist" 1%Q 1%Q 1%Q 1%Q 0%Q 0%Q "Agra")
    /\ insert_realtime_weather sample_now (timedelta_hours 47) "Rain"
         18%Q 17%Q 990%Q 80%Q 2%Q 90%Q "Delhi" w1 = (inr tt, w2)
    /\ realtime_weather w2
       = filter (fun r => sample_now - timedelta_hours 24 <=? rw_dt r)
                (realtime_weather sample_world)
         ++ [mkRealtimeWeather (timedelta_hours 47) "Rain"
               18%Q 17%Q 990%Q 80%Q 2%Q 90%Q "Delhi"].
Proof.
  split; [constructor |]. split; [reflexivity |].
  split; [vm_compute; reflexivity |]. split; [lia |].
  apply (stale_reading_is_stored_then_purged sample_now sample_now
           7 "Mist" 1%Q 1%Q 1%Q 1%Q 0%Q 0%Q "Agra"
           (timedelta_hours 47) "Rain" 18%Q 17%Q 990%Q 80%Q 2%Q 90%Q "Delhi"
           sample_world);
    [constructor | reflexivity | vm_compute; reflexivity | lia].
Defined.

(** X3.  The cleanup is committed on its own.  When the delete and its
    commit go through and the commit of the insert fails, the call raises,
    the new reading is not stored, and the old readings are gone all the
    same. *)
Theorem failed_insert_keeps_the_purge now dt mc t fl p h r c city w fs :
  clean w -> faults w = false :: false :: true :: fs ->
  exists w',
    insert_realtime_weather now dt mc t fl p h r c city w = (inl StorageError, w')
    /\ realtime_weather w'
       = filter (fun r => now - timedelta_hours 24 <=? rw_dt r) (realtime_weather w)
    /\ faults w' = fs.
Proof.
  intros Hc Hfs. rewrite insert_realtime_weather_eq, cleanup_eq.
  unfold clean in Hc. destruct w as [rt dl al pd fs0 out]; simpl in *. subst.
  unfold next_fault. simpl. eexists. split; [reflexivity |].
  simpl. rewrite filter_not_older. split; reflexivity.
Qed.

Lemma failed_insert_keeps_the_purge_witness :
  clean late_fault_world
  /\ faults late_fault_world = false :: false :: true :: []
  /\ exists w',
       insert_realtime_weather sample_now (timedelta_hours 47) "Rain"
         18%Q 17%Q 990%Q 80%Q 2%Q 90%Q "Delhi" late_fault_world
       = (inl StorageError, w')
       /\ realtime_weather w'
          = filter (fun r => sample_now - timedelta_hours 24 <=? rw_dt r)
                   (realtime_weather late_fault_world)
       /\ faults w' = [].
Proof.
  split; [reflexivity |]. split; [reflexivity |].
  apply (failed_insert_keeps_the_purge sample_now (timedelta_hours 47) "Rain"
           18%Q 17%Q 990%Q 80%Q 2%Q 90%Q "Delhi" late_fault_world []);
    reflexivity.
Defined.

Lemma stdout_advance w : stdout (advance w) = stdout w.
Proof. reflexivity. Qed.

Lemma ingest_keeps_stdout now dt mc t fl p h r c city w res w' :
  insert_realtime_weather now dt mc t fl p h r c city w = (res, w') ->
  stdout w' = stdout w.
Proof.
  rewrite insert_realtime_weather_eq, cleanup_eq.
  destruct (next_fault w); [intros Heq; inversion Heq; reflexivity |].
  cbv zeta. destruct (next_fault _).
  - intros Heq. inversion Heq. reflexivity.
  - destruct (next_fault _); intros Heq; inversion Heq; subst;
      repeat (rewrite ?stdout_flush, ?stdout_advance;
              cbn [stdout set_pending set_realtime]);
      reflexivity.
Qed.

(** The readings stored after a flush were stored or staged before. *)
Lemma realtime_fold_flush ps w x :
  x ∈ realtime_weather (fold_left (fun w p => flush_one p w) ps w) ->
  x ∈ realtime_weather w \/ AddRealtime x ∈ ps.
Proof.
  revert w. induction ps as [| p ps IH]; intros w Hx; [left; exact Hx |].
  simpl in Hx. apply IH in Hx as [Hx | Hx].
  - destruct p as [r | a | d]; simpl in Hx.
    + apply elem_of_app in Hx as [Hx | Hx]; [left; exact Hx |].
      apply list_elem_of_singleton in Hx. subst x.
      right. apply elem_of_cons. left. reflexivity.
    + left. exact Hx.
    + left. exact Hx.
  - right. apply elem_of_cons. right. exact Hx.
Qed.

Lemma realtime_flush w x :
  x ∈ realtime_weather (flush w) ->
  x ∈ realtime_weather w \/ AddRealtime x ∈ pending w.
Proof. unfold flush. simpl. apply realtime_fold_flush. Qed.

(** A reading staged last is the last row after the flush. *)
Lemma realtime_flush_last w ps r :
  pending w = ps ++ [AddRealtime r] ->
  exists rows, realtime_weather (flush w) = rows ++ [r].
Proof.
  intros Hp. unfold flush. rewrite Hp, fold_left_app. simpl. eauto.
Qed.

(** The two outcomes of an ingest call, by the schedule of the store: the
    call succeeds when none of its three storage operations fails, and the
    new reading is then the last row; it raises [StorageError] when one of
    them fails, and the readings stored then were stored or staged
    before the call. *)
Lemma ingest_outcomes now dt mc t fl p h r c city w :
  ((true ∉ take 3 (faults w))
   /\ exists w',
        insert_realtime_weather now dt mc t fl p h r c city w = (inr tt, w')
        /\ exists rows,
             realtime_weather w' = rows ++ [mkRealtimeWeather dt mc t fl p h r c city])
  \/ (true ∈ take 3 (faults w)
      /\ exists w',
           insert_realtime_weather now dt mc t fl p h r c city w
           = (inl StorageError, w')
           /\ forall x, x ∈ realtime_weather w' ->
                x ∈ realtime_weather w \/ AddRealtime x ∈ pending w).
Proof.
  rewrite insert_realtime_weather_eq, cleanup_eq.
  destruct (next_fault w) eqn:H0.
  { right. split.
    - unfold next_fault in H0. destruct (faults w) as [| b fs]; [discriminate |].
      simpl in H0. subst b. apply elem_of_cons. left. reflexivity.
    - eexists. split; [reflexivity |]. intros x Hx. left. exact Hx. }
  cbv zeta.
  set (w1 := set_realtime _ (advance w)).
  assert (Hsub : forall x, x ∈ realtime_weather w1 -> x ∈ realtime_weather w).
  { intros x Hx. subst w1. simpl in Hx.
    apply list_elem_of_filter in Hx as [_ Hx]. exact Hx. }
  destruct (next_fault w1) eqn:H1.
  { right. split.
    - unfold next_fault in H0, H1. subst w1. simpl in H1.
      destruct (faults w) as [| b0 [| b1 fs]]; simpl in *; try discriminate.
      subst. apply elem_of_cons. right. apply elem_of_cons. left. reflexivity.
    - eexists. split; [reflexivity |]. intros x Hx. left. apply Hsub. exact Hx. }
  set (w2 := set_pending _ (flush (advance w1))).
  assert (H2eq : next_fault w2 = hd false (tail (tail (faults w)))).
  { subst w2. unfold next_fault. simpl. rewrite faults_fold_flush. reflexivity. }
  destruct (next_fault w2) eqn:H2.
  - right. split.
    + unfold next_fault in H0, H1. subst w1. simpl in H1.
      destruct (faults w) as [| b0 [| b1 [| b2 fs]]]; simpl in *; try discriminate.
      subst. do 2 (apply elem_of_cons; right). apply elem_of_cons. left. reflexivity.
    + eexists. split; [reflexivity |]. intros x Hx.
      change (realtime_weather (advance w2)) with (realtime_weather (flush (advance w1)))
        in Hx.
      apply realtime_flush in Hx as [Hx | Hx]; [left; apply Hsub; exact Hx |].
      right. exact Hx.
  - left. split.
    + unfold next_fault in H0, H1. subst w1. simpl in H1.
      destruct (faults w) as [| b0 [| b1 [| b2 fs]]]; simpl in *; subst;
        intros Hin;
        repeat (apply elem_of_cons in Hin as [Hin | Hin]; [discriminate |]);
        apply elem_of_nil in Hin; contradiction.
    + eexists. split; [reflexivity |].
      apply (realtime_flush_last (advance w2) []). reflexivity.
Qed.

Section IngestNeverRaises.
Context `{PyRepr}.

(** X4.  [insert_fetched_data] never raises, whatever the store does.
  When none of the three storage operations of the ingest call fails,
  it returns in the state that call left: the reading is stored as the
  last row and nothing is printed.  When one of them fails, it returns
  in the state the failed call left, with one more line printed, which
  names the city and the exception; the readings stored then were
  stored or staged before the call, so the call added none. *)
Theorem insert_fetched_data_never_raises now (weather_data : WeatherData) w :
let ingest :=
  insert_realtime_weather now (wd_dt weather_data)
    (wd_main_condition weather_data) (wd_temp weather_data)
    (wd_feels_like weather_data) (wd_pressure weather_data)
    (wd_humidity weather_data) (wd_rain weather_data)
    (wd_clouds weather_data) (wd_city weather_data) in
let line :=
  "Failed to insert data for " +:+ wd_city weather_data +:+ ": "
  +:+ str_exc StorageError in
exists w',
  insert_fetched_data now weather_data w = (inr tt, w')
  /\ (true ∉ take 3 (faults w) ->
      ingest w = (inr tt, w')
      /\ stdout w' = stdout w
      /\ exists rows,
           realtime_weather w'
           = rows ++ [mkRealtimeWeather (wd_dt weather_data)
                        (wd_main_condition weather_data) (wd_temp weather_data)
                        (wd_feels_like weather_data) (wd_pressure weather_data)
                        (wd_humidity weather_data) (wd_rain weather_data)
                        (wd_clouds weather_data) (wd_city weather_data)])
  /\ (true ∈ take 3 (faults w) ->
      (exists w1, ingest w = (inl StorageError, w1)
                  /\ w' = set_stdout (fun out => out ++ [line]) w1)
      /\ stdout w' = stdout w ++ [line]
      /\ forall x, x ∈ realtime_weather w' ->
           x ∈ realtime_weather w \/ AddRealtime x ∈ pending w).
Proof.
intros ingest line.
destruct (ingest_outcomes now (wd_dt weather_data)
            (wd_main_condition weather_data) (wd_temp weather_data)
            (wd_feels_like weather_data) (wd_pressure weather_data)
            (wd_humidity weather_data) (wd_rain weather_data)
            (wd_clouds weather_data) (wd_city weather_data) w)
  as [(Hno & w1 & Hrun & Hrows) | (Hyes & w1 & Hrun & Hrows)];
  fold ingest in Hrun.
- exists w1. split.
  + unfold insert_fetched_data, try_except. fold ingest. rewrite Hrun. reflexivity.
  + split; [| intros Hin; contradiction].
    intros _. split; [exact Hrun |]. split; [| exact Hrows].
    apply (ingest_keeps_stdout _ _ _ _ _ _ _ _ _ _ _ _ _ Hrun).
- exists (set_stdout (fun out => out ++ [line]) w1). split.
  + unfold insert_fetched_data, try_except. fold ingest. rewrite Hrun. reflexivity.
  + split; [intros Hno; contradiction |].
    intros _. split; [exists w1; split; [exact Hrun | reflexivity] |].
    split; [| exact Hrows].
    simpl. rewrite (ingest_keeps_stdout _ _ _ _ _ _ _ _ _ _ _ _ _ Hrun). reflexivity.
Qed.

End IngestNeverRaises.

Lemma insert_fetched_data_never_raises_witness :
  true ∈ take 3 (faults failing_world)
  /\ exists w',
       insert_fetched_data (H := plain_repr) sample_now sample_reading failing_world
       = (inr tt, w')
       /\ stdout w' = ["Failed to insert data for Delhi: StorageError"].
Proof.
  assert (Hin : true ∈ take 3 (faults failing_world)).
  { simpl. apply elem_of_cons. right. apply elem_of_cons. left. reflexivity. }
  split; [exact Hin |].
  destruct (insert_fetched_data_never_raises (H := plain_repr)
              sample_now sample_reading failing_world)
    as (w' & Hrun & _ & Hfail).
  exists w'. split; [exact Hrun |].
  exact (proj1 (proj2 (Hfail Hin))).
Defined.

(** ** Alert events *)

(** X5.  An event stored by [insert_alert_event] is what [get_alerts]
    returns last, after the events that were there, with the trigger and
    the reason in the fields of their names. *)
Theorem stored_alert_is_listed dt city trigger reason w :
  no_fault w -> clean w ->
  exists w1 w2,
    insert_alert_event dt city trigger reason w = (inr tt, w1)
    /\ get_alerts w1
       = (inr (alert_events w ++ [mkAlertEvent dt city reason trigger]), w2).
Proof.
  intros Hf Hc.
  destruct (insert_alert_event_ok dt city trigger reason w Hf Hc)
    as (w1 & Hrun & Hf1 & _ & Ha & _).
  exists w1. eexists. split; [exact Hrun |].
  unfold get_alerts, bind. rewrite storage_op_eq, (no_fault_next w1 Hf1).
  unfold gets. change (alert_events (advance w1)) with (alert_events w1).
  rewrite Ha. reflexivity.
Qed.

Lemma stored_alert_is_listed_witness :
  no_fault sample_world /\ clean sample_world /\
  exists w1 w2,
    insert_alert_event 5 "Delhi" "Rain" "Found rain: 120" sample_world = (inr tt, w1)
    /\ get_alerts w1
       = (inr (alert_events sample_world
               ++ [mkAlertEvent 5 "Delhi" "Found rain: 120" "Rain"]), w2).
Proof.
  split; [constructor |]. split; [reflexivity |].
  apply (stored_alert_is_listed 5 "Delhi" "Rain" "Found rain: 120" sample_world);
    [constructor | reflexivity].
Defined.

Lemma alerts_grow_refl w : alerts_grow w w.
Proof. unfold alerts_grow. reflexivity. Qed.

Lemma alerts_grow_trans w1 w2 w3 :
  alerts_grow w1 w2 -> alerts_grow w2 w3 -> alerts_grow w1 w3.
Proof. unfold alerts_grow. intros H1 H2. etransitivity; eassumption. Qed.

Lemma keeps_ret {A} (a : A) : keeps alerts_grow (ret a).
Proof. intros w. apply alerts_grow_refl. Qed.

Lemma keeps_raise {A} e : keeps alerts_grow (@raise A e).
Proof. intros w. apply alerts_grow_refl. Qed.

Lemma keeps_bind {A B} (c : M A) (k : A -> M B) :
  keeps alerts_grow c -> (forall a, keeps alerts_grow (k a)) ->
  keeps alerts_grow (bind c k).
Proof.
  intros Hc Hk w. unfold bind. specialize (Hc w).
  destruct (c w) as [[e | a] w1]; simpl in *; [exact Hc |].
  eapply alerts_grow_trans; [exact Hc | apply Hk].
Qed.

Lemma keeps_storage_op : keeps alerts_grow storage_op.
Proof.
  intros w. unfold storage_op, alerts_grow.
  destruct (faults w) as [| [|] fs]; simpl; reflexivity.
Qed.

Lemma keeps_print line : keeps alerts_grow (print line).
Proof. intros w. unfold alerts_grow. simpl. reflexivity. Qed.

Lemma keeps_session_add p : keeps alerts_grow (session_add p).
Proof. intros w. unfold alerts_grow. simpl. reflexivity. Qed.

Lemma alerts_grow_fold_flush ps w :
  alerts_grow w (fold_left (fun w p => flush_one p w) ps w).
Proof.
  revert w. induction ps as [| p ps IH]; intros w; simpl; [apply alerts_grow_refl |].
  eapply alerts_grow_trans; [| apply IH].
  unfold alerts_grow. destruct p; simpl; [reflexivity | | reflexivity].
  apply prefix_app_r. reflexivity.
Qed.

Lemma keeps_session_commit : keeps alerts_grow session_commit.
Proof.
  unfold session_commit. apply keeps_bind; [apply keeps_storage_op |].
  intros _ w. unfold modify, flush. simpl. apply alerts_grow_fold_flush.
Qed.

Lemma keeps_insert_alert_event dt city trigger reason :
  keeps alerts_grow (insert_alert_event dt city trigger reason).
Proof.
  unfold insert_alert_event. apply keeps_bind; [apply keeps_session_add |].
  intros _. apply keeps_session_commit.
Qed.

Lemma keeps_subscript {V} (d : gmap string V) key : keeps alerts_grow (subscript d key).
Proof. unfold subscript. destruct (d !! key); [apply keeps_ret | apply keeps_raise]. Qed.

Lemma keeps_index {V} (l : list V) i : keeps alerts_grow (index l i).
Proof. unfold index. destruct (l !! i); [apply keeps_ret | apply keeps_raise]. Qed.

Lemma keeps_exceeds v (d : gmap string (list Q)) key : keeps alerts_grow (exceeds v d key).
Proof.
  unfold exceeds. apply keeps_bind.
  - apply keeps_bind; [apply keeps_subscript | intros r; apply keeps_index].
  - intros low. destruct (Qltb v low); [apply keeps_ret |].
    apply keeps_bind; [| intros high; apply keeps_ret].
    apply keeps_bind; [apply keeps_subscript | intros r; apply keeps_index].
Qed.

Section AlertInvariants.
Context `{PyRepr}.

Lemma keeps_check_metric weather_data (d : gmap string (list Q))
  v key trigger found exceeded :
keeps alerts_grow (check_metric weather_data d v key trigger found exceeded).
Proof.
unfold check_metric. apply keeps_bind; [apply keeps_exceeds |].
intros [|]; [| apply keeps_ret].
apply keeps_bind; [apply keeps_subscript |]. intros r.
apply keeps_bind; [apply keeps_insert_alert_event | intros _; apply keeps_print].
Qed.

(** X6.  The alert table is append-only under the evaluation: whatever the
  threshold dictionary holds, whatever is staged in the session and
  whichever storage operations fail, the events stored before the call
  are, in order, the first events stored after it. *)
Theorem alert_evaluation_appends_only weather_data (d : gmap string (list Q)) w :
alert_events w
  `prefix_of` alert_events (snd (check_data_against_alerts weather_data d w)).
Proof.
revert w. change (keeps alerts_grow (check_data_against_alerts weather_data d)).
unfold check_data_against_alerts.
repeat (apply keeps_bind; [apply keeps_check_metric | intros _]).
apply keeps_check_metric.
Qed.

Lemma check_metric_missing weather_data (d : gmap string (list Q))
  v key trigger found exceeded w :
d !! key = None ->
check_metric weather_data d v key trigger found exceeded w = (inl (KeyError key), w).
Proof.
intros Hk. unfold check_metric, exceeds, bind, subscript. rewrite Hk. reflexivity.
Qed.

Ltac run_metric range Hb Hf Hc w1 R Hf1 Hc1 A :=
match goal with
| |- context [bind (check_metric ?wd ?d ?v ?k ?tr ?fo ?ex) _ ?w] =>
    let Hl := fresh "Hl" in
    assert (Hl : d !! k = Some range) by reflexivity;
    destruct (check_metric_ok wd d v k tr fo ex range w Hl Hb Hf Hc)
      as (w1 & R & Hf1 & Hc1 & A);
    rewrite (bind_inr _ _ _ _ _ R); clear Hl
end.

Ltac miss_metric :=
match goal with
| |- context [bind (check_metric ?wd ?d ?v ?k ?tr ?fo ?ex) _ ?w] =>
    let Hm := fresh "Hm" in
    assert (Hm : d !! k = None) by reflexivity;
    rewrite (bind_inl _ _ _ _ _ (check_metric_missing wd d v k tr fo ex w Hm))
| |- context [check_metric ?wd ?d ?v ?k ?tr ?fo ?ex ?w] =>
    let Hm := fresh "Hm" in
    assert (Hm : d !! k = None) by reflexivity;
    rewrite (check_metric_missing wd d v k tr fo ex w Hm)
end.

(** X7.  When the threshold dictionary lacks the key of one metric, the
  evaluation raises [KeyError] for that key; the metrics checked before
  it have been evaluated and their events are stored, the later ones are
  not looked at. *)
Theorem missing_threshold_raises weather_data th w i key :
all_have_bounds th -> no_fault w -> clean w ->
metric_keys !! i = Some key ->
exists w',
  check_data_against_alerts weather_data (delete key (get_thresholds th)) w
  = (inl (KeyError key), w')
  /\ alert_events w'
     = alert_events w
       ++ flat_map (alert_of weather_data) (take i (metric_table weather_data th)).
Proof.
intros (B1 & B2 & B3 & B4 & B5 & B6) Hf Hc Hi.
unfold check_data_against_alerts.
destruct i as [| [| [| [| [| [| i]]]]]]; simpl in Hi; try discriminate;
  inversion Hi; subst key; clear Hi.
- miss_metric.
  exists w. split; [reflexivity |]. simpl. rewrite app_nil_r. reflexivity.
- run_metric (th_temp th) B1 Hf Hc w1 R1 Hf1 Hc1 A1.
  miss_metric.
  exists w1. split; [reflexivity |]. rewrite A1. simpl. rewrite app_nil_r. reflexivity.
- run_metric (th_temp th) B1 Hf Hc w1 R1 Hf1 Hc1 A1.
  run_metric (th_feels_like th) B2 Hf1 Hc1 w2 R2 Hf2 Hc2 A2.
  miss_metric.
  exists w2. split; [reflexivity |]. rewrite A2, A1. simpl.
  rewrite app_nil_r, <- !app_assoc. reflexivity.
- run_metric (th_temp th) B1 Hf Hc w1 R1 Hf1 Hc1 A1.
  run_metric (th_feels_like th) B2 Hf1 Hc1 w2 R2 Hf2 Hc2 A2.
  run_metric (th_pressure th) B3 Hf2 Hc2 w3 R3 Hf3 Hc3 A3.
  miss_metric.
  exists w3. split; [reflexivity |]. rewrite A3, A2, A1. simpl.
  rewrite app_nil_r, <- !app_assoc. reflexivity.
- run_metric (th_temp th) B1 Hf Hc w1 R1 Hf1 Hc1 A1.
  run_metric (th_feels_like th) B2 Hf1 Hc1 w2 R2 Hf2 Hc2 A2.
  run_metric (th_pressure th) B3 Hf2 Hc2 w3 R3 Hf3 Hc3 A3.
  run_metric (th_humidity th) B4 Hf3 Hc3 w4 R4 Hf4 Hc4 A4.
  miss_metric.
  exists w4. split; [reflexivity |]. rewrite A4, A3, A2, A1. simpl.
  rewrite app_nil_r, <- !app_assoc. reflexivity.
- run_metric (th_temp th) B1 Hf Hc w1 R1 Hf1 Hc1 A1.
  run_metric (th_feels_like th) B2 Hf1 Hc1 w2 R2 Hf2 Hc2 A2.
  run_metric (th_pressure th) B3 Hf2 Hc2 w3 R3 Hf3 Hc3 A3.
  run_metric (th_humidity th) B4 Hf3 Hc3 w4 R4 Hf4 Hc4 A4.
  run_metric (th_rain th) B5 Hf4 Hc4 w5 R5 Hf5 Hc5 A5.
  miss_metric.
  exists w5. split; [reflexivity |]. rewrite A5, A4, A3, A2, A1. simpl.
  rewrite app_nil_r, <- !app_assoc. reflexivity.
Qed.

End AlertInvariants.

Lemma missing_threshold_raises_witness :
  all_have_bounds thresholds /\ no_fault sample_world /\ clean sample_world
  /\ metric_keys !! 2%nat = Some "pressure" /\
  exists w',
    check_data_against_alerts (H := plain_repr) hot_reading
      (delete "pressure" (get_thresholds thresholds)) sample_world
    = (inl (KeyError "pressure"), w')
    /\ alert_events w'
       = alert_events sample_world
         ++ flat_map (alert_of (H := plain_repr) hot_reading)
                     (take 2 (metric_table hot_reading thresholds)).
Proof.
  split; [exact thresholds_have_bounds |]. split; [constructor |].
  split; [reflexivity |]. split; [reflexivity |].
  apply (missing_threshold_raises (H := plain_repr) hot_reading thresholds
           sample_world 2 "pressure");
    [exact thresholds_have_bounds | constructor | reflexivity | reflexivity].
Defined.

(** ** Alert evaluation: malformed ranges, failures, output *)

Lemma Qltb_ge (x y : Q) : Qltb x y = false <-> (y <= x)%Q.
Proof. unfold Qltb. rewrite negb_false_iff. apply Qle_bool_iff. Qed.

Section AlertEdges.
Context `{PyRepr}.

Lemma check_metric_quiet weather_data (d : gmap string (list Q))
  v key trigger found exceeded range w :
d !! key = Some range -> has_bounds range -> outside v range = false ->
check_metric weather_data d v key trigger found exceeded w = (inr tt, w).
Proof.
intros Hk Hb Ho. unfold check_metric.
rewrite (bind_inr _ _ _ _ _ (exceeds_eq v d key range w Hk Hb)), Ho. reflexivity.
Qed.

Lemma check_metric_fault weather_data (d : gmap string (list Q))
  v key trigger found exceeded range w :
d !! key = Some range -> has_bounds range -> outside v range = true ->
next_fault w = true ->
exists w',
  check_metric weather_data d v key trigger found exceeded w = (inl StorageError, w')
  /\ alert_events w' = alert_events w.
Proof.
intros Hk Hb Ho Hn. unfold check_metric.
rewrite (bind_inr _ _ _ _ _ (exceeds_eq v d key range w Hk Hb)), Ho.
unfold subscript. rewrite Hk. erewrite bind_inr by reflexivity.
unfold insert_alert_event, session_add, modify, bind. cbv beta iota.
rewrite session_commit_eq.
change (next_fault (set_pending _ w)) with (next_fault w). rewrite Hn.
eexists. split; reflexivity.
Qed.

Ltac fault_or_quiet range Hb Hn E :=
match goal with
| |- context [bind (check_metric ?wd ?d ?v ?k ?tr ?fo ?ex) _ ?w] =>
    let Hl := fresh "Hl" in
    assert (Hl : d !! k = Some range) by reflexivity;
    destruct (outside v range) eqn:E;
    [ let w' := fresh "w" in
      let R := fresh "R" in
      let A := fresh "A" in
      destruct (check_metric_fault wd d v k tr fo ex range w Hl Hb E Hn)
        as (w' & R & A);
      rewrite (bind_inl _ _ _ _ _ R);
      exists w'; split; [reflexivity | exact A]
    | rewrite (bind_inr _ _ _ _ _
                 (check_metric_quiet wd d v k tr fo ex range w Hl Hb E));
      clear Hl ]
| |- context [check_metric ?wd ?d ?v ?k ?tr ?fo ?ex ?w] =>
    let Hl := fresh "Hl" in
    assert (Hl : d !! k = Some range) by reflexivity;
    destruct (outside v range) eqn:E;
    [ let w' := fresh "w" in
      let R := fresh "R" in
      let A := fresh "A" in
      destruct (check_metric_fault wd d v k tr fo ex range w Hl Hb E Hn)
        as (w' & R & A);
      rewrite R;
      exists w'; split; [reflexivity | exact A]
    | clear Hl ]
end.

(** X8.  When the store fails on the commit of the first event of an
  evaluation, the evaluation raises at once: no event of this reading is
  stored, and the metrics after the breached one are not evaluated. *)
Theorem storage_failure_aborts_evaluation weather_data th w :
all_have_bounds th -> next_fault w = true ->
expected_alerts weather_data th <> [] ->
exists w',
  check_data_against_alerts weather_data (get_thresholds th) w
  = (inl StorageError, w')
  /\ alert_events w' = alert_events w.
Proof.
intros (B1 & B2 & B3 & B4 & B5 & B6) Hn Hne.
unfold check_data_against_alerts.
fault_or_quiet (th_temp th) B1 Hn E1.
fault_or_quiet (th_feels_like th) B2 Hn E2.
fault_or_quiet (th_pressure th) B3 Hn E3.
fault_or_quiet (th_humidity th) B4 Hn E4.
fault_or_quiet (th_rain th) B5 Hn E5.
fault_or_quiet (th_clouds th) B6 Hn E6.
exfalso. apply Hne. unfold expected_alerts, metric_table, alert_of. simpl.
rewrite E1, E2, E3, E4, E5, E6. reflexivity.
Qed.

Lemma insert_alert_event_runs dt city trigger reason w :
no_fault w -> clean w ->
exists w',
  insert_alert_event dt city trigger reason w = (inr tt, w')
  /\ no_fault w' /\ clean w'
  /\ stdout w' = stdout w
  /\ realtime_weather w' = realtime_weather w
  /\ daily_weather w' = daily_weather w.
Proof.
intros Hf Hc. unfold insert_alert_event, session_add, bind, modify.
rewrite session_commit_eq.
change (next_fault (set_pending _ w)) with (next_fault w).
rewrite (no_fault_next w Hf). eexists. split; [reflexivity |].
split; [apply no_fault_flush, no_fault_tail, Hf |].
unfold clean in *. destruct w as [rt dl al pd fs out]; simpl in *. subst pd.
repeat split.
Qed.

Lemma check_metric_runs weather_data (d : gmap string (list Q))
  v key trigger found exceeded range w :
d !! key = Some range -> has_bounds range ->
no_fault w -> clean w ->
exists w',
  check_metric weather_data d v key trigger found exceeded w = (inr tt, w')
  /\ no_fault w' /\ clean w'
  /\ stdout w' = stdout w
       ++ (if outside v range then [exceeded +:+ wd_city weather_data] else [])
  /\ realtime_weather w' = realtime_weather w
  /\ daily_weather w' = daily_weather w.
Proof.
intros Hk Hb Hf Hc. unfold check_metric.
rewrite (bind_inr _ _ _ _ _ (exceeds_eq v d key range w Hk Hb)).
destruct (outside v range).
- unfold subscript. rewrite Hk. erewrite bind_inr by reflexivity.
  destruct (insert_alert_event_runs (wd_dt weather_data) (wd_city weather_data)
              trigger (found +:+ str_num v +:+ " but threshold is " +:+ str_list range)
              w Hf Hc) as (w1 & Hrun & Hf1 & Hc1 & Ho & Hr & Hd).
  rewrite (bind_inr _ _ _ _ _ Hrun).
  eexists. split; [reflexivity |]. simpl. rewrite Ho, Hr, Hd.
  repeat split; assumption.
- exists w. rewrite app_nil_r. repeat split; assumption.
Qed.

Ltac run_printing range Hb Hf Hc w1 R Hf1 Hc1 O Rt D :=
match goal with
| |- context [bind (check_metric ?wd ?d ?v ?k ?tr ?fo ?ex) _ ?w] =>
    let Hl := fresh "Hl" in
    assert (Hl : d !! k = Some range) by reflexivity;
    destruct (check_metric_runs wd d v k tr fo ex range w Hl Hb Hf Hc)
      as (w1 & R & Hf1 & Hc1 & O & Rt & D);
    rewrite (bind_inr _ _ _ _ _ R); clear Hl
| |- context [check_metric ?wd ?d ?v ?k ?tr ?fo ?ex ?w] =>
    let Hl := fresh "Hl" in
    assert (Hl : d !! k = Some range) by reflexivity;
    destruct (check_metric_runs wd d v k tr fo ex range w Hl Hb Hf Hc)
      as (w1 & R & Hf1 & Hc1 & O & Rt & D);
    clear Hl
end.

(** X9.  An evaluation that meets no fault prints one line per breached
  metric, in the order of the checks, after what was printed before, and
  leaves the stored readings and the daily summaries as they were. *)
Theorem alert_evaluation_prints_breaches weather_data th w :
all_have_bounds th -> no_fault w -> clean w ->
exists w',
  check_data_against_alerts weather_data (get_thresholds th) w = (inr tt, w')
  /\ stdout w' = stdout w ++ breach_lines weather_data th
  /\ realtime_weather w' = realtime_weather w
  /\ daily_weather w' = daily_weather w.
Proof.
intros (B1 & B2 & B3 & B4 & B5 & B6) Hf Hc.
unfold check_data_against_alerts.
run_printing (th_temp th) B1 Hf Hc w1 R1 Hf1 Hc1 O1 T1 D1.
run_printing (th_feels_like th) B2 Hf1 Hc1 w2 R2 Hf2 Hc2 O2 T2 D2.
run_printing (th_pressure th) B3 Hf2 Hc2 w3 R3 Hf3 Hc3 O3 T3 D3.
run_printing (th_humidity th) B4 Hf3 Hc3 w4 R4 Hf4 Hc4 O4 T4 D4.
run_printing (th_rain th) B5 Hf4 Hc4 w5 R5 Hf5 Hc5 O5 T5 D5.
run_printing (th_clouds th) B6 Hf5 Hc5 w6 R6 Hf6 Hc6 O6 T6 D6.
exists w6. split; [exact R6 |].
split; [| split; congruence].
rewrite O6, O5, O4, O3, O2, O1. unfold breach_lines. simpl.
rewrite app_nil_r, <- !app_assoc. reflexivity.
Qed.

(** X10.  A range that holds fewer than two numbers.  With an empty range
  for the temperature the evaluation raises [IndexError] before anything
  is stored.  With a range of one number it raises [IndexError] when the
  temperature is at or above that number; when the temperature is below
  it, the upper bound is never read and the temperature event is stored
  as the first event of the evaluation. *)
Theorem short_range_behaviour weather_data (d : gmap string (list Q)) w :
(d !! "temp" = Some [] ->
   check_data_against_alerts weather_data d w = (inl IndexError, w))
/\ (forall low, d !! "temp" = Some [low] ->
      (low <= wd_temp weather_data)%Q ->
      check_data_against_alerts weather_data d w = (inl IndexError, w))
/\ (forall low, d !! "temp" = Some [low] ->
      (wd_temp weather_data < low)%Q ->
      no_fault w -> clean w ->
      exists rest,
        alert_events (snd (check_data_against_alerts weather_data d w))
        = alert_events w
          ++ mkAlertEvent (wd_dt weather_data) (wd_city weather_data)
               ("Found temp: " +:+ str_num (wd_temp weather_data)
                +:+ " but threshold is " +:+ str_list [low]) "Temperature"
             :: rest).
Proof.
split; [| split].
- intros Hk. unfold check_data_against_alerts, check_metric at 1, exceeds.
  unfold bind, subscript, index. rewrite Hk. reflexivity.
- intros low Hk Hle. unfold check_data_against_alerts, check_metric at 1, exceeds.
  unfold bind, subscript, index. rewrite Hk. simpl.
  apply Qltb_ge in Hle. rewrite Hle. reflexivity.
- intros low Hk Hlt Hf Hc.
  destruct (insert_alert_event_ok (wd_dt weather_data) (wd_city weather_data)
              "Temperature"
              ("Found temp: " +:+ str_num (wd_temp weather_data)
               +:+ " but threshold is " +:+ str_list [low]) w Hf Hc)
    as (w1 & Hrun & _ & _ & Ha & _).
  assert (Hfirst :
    check_metric weather_data d (wd_temp weather_data) "temp" "Temperature"
      "Found temp: " "Temperature threshold exceeded for " w
    = (inr tt, set_stdout (fun out => out ++
         ["Temperature threshold exceeded for " +:+ wd_city weather_data]) w1)).
  { unfold check_metric, exceeds. unfold bind at 1 2 3, subscript at 1, index.
    rewrite Hk. simpl. apply Qltb_lt in Hlt. rewrite Hlt.
    unfold ret at 1. unfold subscript. rewrite Hk.
    erewrite bind_inr by reflexivity.
    rewrite (bind_inr _ _ _ _ _ Hrun). reflexivity. }
  unfold check_data_against_alerts. rewrite (bind_inr _ _ _ _ _ Hfirst).
  match goal with
  | |- context [snd (?k ?w2)] =>
      assert (Hkeeps : keeps alerts_grow k);
      [ repeat (apply keeps_bind; [apply keeps_check_metric | intros _]);
        apply keeps_check_metric
      | pose proof (Hkeeps w2) as Hg ]
  end.
  destruct Hg as [rest Hrest]. exists rest. rewrite Hrest. simpl.
  rewrite Ha, <- app_assoc. reflexivity.
Qed.

End AlertEdges.

Lemma storage_failure_aborts_evaluation_witness :
  all_have_bounds thresholds /\ next_fault first_fault_world = true
  /\ expected_alerts (H := plain_repr) hot_reading thresholds <> []
  /\ exists w',
       check_data_against_alerts (H := plain_repr) hot_reading
         (get_thresholds thresholds) first_fault_world
       = (inl StorageError, w')
       /\ alert_events w' = alert_events first_fault_world.
Proof.
  assert (Hne : expected_alerts (H := plain_repr) hot_reading thresholds <> [])
    by (vm_compute; discriminate).
  split; [exact thresholds_have_bounds |]. split; [reflexivity |].
  split; [exact Hne |].
  exact (storage_failure_aborts_evaluation (H := plain_repr) hot_reading thresholds
           first_fault_world thresholds_have_bounds eq_refl Hne).
Defined.

Lemma alert_evaluation_prints_breaches_witness :
  all_have_bounds thresholds /\ no_fault sample_world /\ clean sample_world /\
  exists w',
    check_data_against_alerts (H := plain_repr) hot_reading
      (get_thresholds thresholds) sample_world = (inr tt, w')
    /\ stdout w' = stdout sample_world ++ breach_lines hot_reading thresholds
    /\ realtime_weather w' = realtime_weather sample_world
    /\ daily_weather w' = daily_weather sample_world.
Proof.
  split; [exact thresholds_have_bounds |]. split; [constructor |].
  split; [reflexivity |].
  apply (alert_evaluation_prints_breaches (H := plain_repr) hot_reading thresholds
           sample_world);
    [exact thresholds_have_bounds | constructor | reflexivity].
Defined.

Lemma short_range_behaviour_witness :
  (<["temp" := [50%Q]]> (get_thresholds thresholds)) !! "temp" = Some [50%Q]
  /\ (50 <= wd_temp hot_reading)%Q
  /\ check_data_against_alerts (H := plain_repr) hot_reading
       (<["temp" := [50%Q]]> (get_thresholds thresholds)) sample_world
     = (inl IndexError, sample_world).
Proof.
  assert (Hk : (<["temp" := [50%Q]]> (get_thresholds thresholds)) !! "temp"
               = Some [50%Q]) by reflexivity.
  assert (Hle : (50 <= wd_temp hot_reading)%Q) by (vm_compute; discriminate).
  split; [exact Hk |]. split; [exact Hle |].
  exact (proj1 (proj2 (short_range_behaviour (H := plain_repr) hot_reading
                         (<["temp" := [50%Q]]> (get_thresholds thresholds))
                         sample_world)) 50%Q Hk Hle).
Defined.

(** ** Thresholds: reading back and writing *)

(** X11.  Writing back what [get_thresholds] returned restores the set:
    whatever the object holds, an update with the dictionary read from a
    set [th] is accepted and leaves the object equal to [th]. *)
Theorem update_with_read_thresholds self th :
  update_thresholds self (get_thresholds th) = (inr tt, th).
Proof.
  unfold update_thresholds.
  destruct (get_thresholds_lookup th) as (L1 & L2 & L3 & L4 & L5 & L6).
  rewrite L1, L2, L3, L4, L5, L6.
  rewrite bool_decide_eq_true_2 by (rewrite dom_get_thresholds; reflexivity).
  destruct th; reflexivity.
Qed.

(** ** Daily aggregation: what is written *)

Lemma rows_of_upsert_other k d t :
  daily_key d <> k -> rows_of k (upsert d t) = rows_of k t.
Proof.
  intros Hne. unfold upsert. destruct (has_key d t).
  - unfold rows_of. induction t as [| e t IH]; [reflexivity |].
    cbn [map]. rewrite !filter_cons, IH.
    destruct (same_key d e) eqn:Hs.
    + apply same_key_true in Hs.
      rewrite !decide_False by congruence. reflexivity.
    + reflexivity.
  - unfold rows_of. rewrite filter_app, filter_cons, filter_nil.
    rewrite decide_False by exact Hne. apply app_nil_r.
Qed.

Lemma rows_of_upsert_all_other k ds t :
  k ∉ map daily_key ds -> rows_of k (upsert_all ds t) = rows_of k t.
Proof.
  revert t. induction ds as [| d ds IH]; intros t Hn; [reflexivity |].
  simpl. rewrite IH.
  - apply rows_of_upsert_other. intros Hk. apply Hn. simpl.
    apply elem_of_cons. left. symmetry. exact Hk.
  - intros Hin. apply Hn. simpl. apply elem_of_cons. right. exact Hin.
Qed.

Section AggregationWrites.
Context `{SqlEngine}.

(** X12.  A run of the aggregation writes one summary for each city that
    has a reading dated [today], under the pair (city, [today]), and
    nothing else: the rows stored under any other pair, summaries of other
    days among them, and the stored readings are as before. *)
Theorem aggregation_writes_today_only today w :
  no_fault w -> clean w -> keyed (daily_weather w) ->
  exists w1,
    aggregate_daily_weather today w = (inr tt, w1)
    /\ realtime_weather w1 = realtime_weather w
    /\ (forall city date,
          (exists r, r ∈ realtime_weather w /\ rw_city r = city
                     /\ date_of (rw_dt r) = today /\ date = today) ->
          length (rows_of (city, date) (daily_weather w1)) = 1%nat)
    /\ (forall city date,
          ~ (exists r, r ∈ realtime_weather w /\ rw_city r = city
                       /\ date_of (rw_dt r) = today /\ date = today) ->
          rows_of (city, date) (daily_weather w1)
          = rows_of (city, date) (daily_weather w)).
Proof.
  intros Hf Hc Hk.
  destruct (aggregate_daily_weather_ok today w Hf Hc)
    as (w1 & Hrun & _ & _ & Hr & Hd).
  exists w1. split; [exact Hrun |]. split; [exact Hr |]. split.
  - intros city date (r & Hin & Hcity & Hday & ->).
    rewrite (aggregate_stores today w w1 _ Hk Hd); [reflexivity |].
    apply elem_of_observed. exists r. subst city. auto.
  - intros city date Hno. rewrite Hd. apply rows_of_upsert_all_other.
    rewrite summaries_keys. intros Hin. apply Hno.
    apply elem_of_observed in Hin as (r & Hin & Hday & Heq).
    inversion Heq; subst. exists r. auto.
Qed.

(** X13.  A day without readings: when no stored reading is dated [today]
    the aggregation succeeds and leaves the daily table as it was. *)
Theorem aggregation_of_empty_day today w :
  no_fault w -> clean w ->
  (forall r, r ∈ realtime_weather w -> date_of (rw_dt r) <> today) ->
  exists w1,
    aggregate_daily_weather today w = (inr tt, w1)
    /\ daily_weather w1 = daily_weather w
    /\ realtime_weather w1 = realtime_weather w.
Proof.
  intros Hf Hc Hnone.
  destruct (aggregate_daily_weather_ok today w Hf Hc)
    as (w1 & Hrun & _ & _ & Hr & Hd).
  exists w1. split; [exact Hrun |]. split; [| exact Hr].
  rewrite Hd.
  assert (Hobs : observed today (realtime_weather w) = []).
  { destruct (observed today (realtime_weather w)) as [| k ks] eqn:E; [reflexivity |].
    exfalso.
    assert (Hin : k ∈ observed today (realtime_weather w))
      by (rewrite E; apply elem_of_cons; left; reflexivity).
    apply elem_of_observed in Hin as (r & Hin & Hday & _).
    exact (Hnone r Hin Hday). }
  unfold summaries. rewrite Hobs. reflexivity.
Qed.

End AggregationWrites.

Lemma aggregation_writes_today_only_witness :
  no_fault aggregation_world /\ clean aggregation_world
  /\ keyed (daily_weather aggregation_world) /\
  exists w1,
    aggregate_daily_weather (H := running_sum) 2 aggregation_world = (inr tt, w1)
    /\ realtime_weather w1 = realtime_weather aggregation_world
    /\ (forall city date,
          (exists r, r ∈ realtime_weather aggregation_world /\ rw_city r = city
                     /\ date_of (rw_dt r) = 2 /\ date = 2) ->
          length (rows_of (city, date) (daily_weather w1)) = 1%nat)
    /\ (forall city date,
          ~ (exists r, r ∈ realtime_weather aggregation_world /\ rw_city r = city
                       /\ date_of (rw_dt r) = 2 /\ date = 2) ->
          rows_of (city, date) (daily_weather w1)
          = rows_of (city, date) (daily_weather aggregation_world)).
Proof.
  split; [constructor |]. split; [reflexivity |].
  split; [exact aggregation_world_keyed |].
  apply (aggregation_writes_today_only (H := running_sum) 2 aggregation_world);
    [constructor | reflexivity | exact aggregation_world_keyed].
Defined.

Lemma aggregation_of_empty_day_witness :
  no_fault aggregation_world /\ clean aggregation_world
  /\ (forall r, r ∈ realtime_weather aggregation_world -> date_of (rw_dt r) <> 5)
  /\ exists w1,
       aggregate_daily_weather (H := running_sum) 5 aggregation_world = (inr tt, w1)
       /\ daily_weather w1 = daily_weather aggregation_world
       /\ realtime_weather w1 = realtime_weather aggregation_world.
Proof.
  assert (Hnone : forall r, r ∈ realtime_weather aggregation_world ->
                            date_of (rw_dt r) <> 5).
  { intros r Hin. simpl in Hin.
    repeat (apply elem_of_cons in Hin as [-> | Hin]; [vm_compute; discriminate |]).
    apply elem_of_nil in Hin. contradiction. }
  split; [constructor |]. split; [reflexivity |]. split; [exact Hnone |].
  apply (aggregation_of_empty_day (H := running_sum) 5 aggregation_world);
    [constructor | reflexivity | exact Hnone].
Defined.

(** ** Daily aggregation: the values of a summary *)

Lemma Qmax2_ge a b : (a <= Qmax2 a b)%Q /\ (b <= Qmax2 a b)%Q.
Proof.
  unfold Qmax2. destruct (Qltb a b) eqn:E.
  - apply Qltb_lt in E. split; lra.
  - apply Qltb_ge in E. split; lra.
Qed.

Lemma Qmin2_le a b : (Qmin2 a b <= a)%Q /\ (Qmin2 a b <= b)%Q.
Proof.
  unfold Qmin2. destruct (Qltb b a) eqn:E.
  - apply Qltb_lt in E. split; lra.
  - apply Qltb_ge in E. split; lra.
Qed.

Lemma fold_Qmax2_ge l x :
  (x <= fold_left Qmax2 l x)%Q /\ forall y, y ∈ l -> (y <= fold_left Qmax2 l x)%Q.
Proof.
  revert x. induction l as [| z l IH]; intros x; simpl.
  - split; [lra |]. intros y Hy. apply elem_of_nil in Hy. contradiction.
  - destruct (IH (Qmax2 x z)) as [H1 H2]. destruct (Qmax2_ge x z) as [Hx Hz].
    split; [lra |]. intros y Hy. apply elem_of_cons in Hy as [-> | Hy]; [lra | auto].
Qed.

Lemma fold_Qmin2_le l x :
  (fold_left Qmin2 l x <= x)%Q /\ forall y, y ∈ l -> (fold_left Qmin2 l x <= y)%Q.
Proof.
  revert x. induction l as [| z l IH]; intros x; simpl.
  - split; [lra |]. intros y Hy. apply elem_of_nil in Hy. contradiction.
  - destruct (IH (Qmin2 x z)) as [H1 H2]. destruct (Qmin2_le x z) as [Hx Hz].
    split; [lra |]. intros y Hy. apply elem_of_cons in Hy as [-> | Hy]; [lra | auto].
Qed.

Lemma fold_Qmax2_in l x : fold_left Qmax2 l x ∈ x :: l.
Proof.
  revert x. induction l as [| z l IH]; intros x; simpl.
  - apply elem_of_cons. left. reflexivity.
  - specialize (IH (Qmax2 x z)). apply elem_of_cons in IH as [IH | IH].
    + rewrite IH. unfold Qmax2. destruct (Qltb x z).
      * apply elem_of_cons. right. apply elem_of_cons. left. reflexivity.
      * apply elem_of_cons. left. reflexivity.
    + apply elem_of_cons. right. apply elem_of_cons. right. exact IH.
Qed.

Lemma fold_Qmin2_in l x : fold_left Qmin2 l x ∈ x :: l.
Proof.
  revert x. induction l as [| z l IH]; intros x; simpl.
  - apply elem_of_cons. left. reflexivity.
  - specialize (IH (Qmin2 x z)). apply elem_of_cons in IH as [IH | IH].
    + rewrite IH. unfold Qmin2. destruct (Qltb z x).
      * apply elem_of_cons. right. apply elem_of_cons. left. reflexivity.
      * apply elem_of_cons. left. reflexivity.
    + apply elem_of_cons. right. apply elem_of_cons. right. exact IH.
Qed.

Lemma sql_max_spec l :
  l <> [] -> sql_max l ∈ l /\ forall y, y ∈ l -> (y <= sql_max l)%Q.
Proof.
  destruct l as [| x l]; [congruence |]. intros _. simpl. split.
  - apply fold_Qmax2_in.
  - intros y Hy. destruct (fold_Qmax2_ge l x) as [H1 H2].
    apply elem_of_cons in Hy as [-> | Hy]; auto.
Qed.

Lemma sql_min_spec l :
  l <> [] -> sql_min l ∈ l /\ forall y, y ∈ l -> (sql_min l <= y)%Q.
Proof.
  destruct l as [| x l]; [congruence |]. intros _. simpl. split.
  - apply fold_Qmin2_in.
  - intros y Hy. destruct (fold_Qmin2_le l x) as [H1 H2].
    apply elem_of_cons in Hy as [-> | Hy]; auto.
Qed.

(** The readings of one observed pair are not empty. *)
Lemma group_nonempty today rows k :
  k ∈ observed today rows ->
  filter (fun r => in_group k r) (readings_of_day today rows) <> [].
Proof.
  unfold observed. rewrite elem_of_remove_dups, list_elem_of_fmap.
  intros (r & -> & Hin) Hnil.
  assert (Hr : r ∈ filter (fun r0 => in_group (group_key r) r0)
                          (readings_of_day today rows)).
  { apply list_elem_of_filter. split; [| exact Hin].
    unfold in_group. apply Is_true_true, bool_decide_eq_true. reflexivity. }
  rewrite Hnil in Hr. apply elem_of_nil in Hr. contradiction.
Qed.

Lemma elem_of_group today rows k r :
  r ∈ filter (fun r => in_group k r) (readings_of_day today rows)
  <-> r ∈ rows /\ date_of (rw_dt r) = today /\ group_key r = k.
Proof.
  rewrite list_elem_of_filter, elem_of_readings_of_day. unfold in_group.
  rewrite Is_true_true, bool_decide_eq_true. tauto.
Qed.

Lemma ascii_compare_refl a : Ascii.compare a a = Eq.
Proof. unfold Ascii.compare. apply N.compare_refl. Qed.

Lemma string_compare_refl s : String.compare s s = Eq.
Proof.
  induction s as [| a s IH]; [reflexivity |].
  simpl. rewrite ascii_compare_refl. exact IH.
Qed.

Lemma ascii_compare_lt_trans a b c :
  Ascii.compare a b = Lt -> Ascii.compare b c = Lt -> Ascii.compare a c = Lt.
Proof.
  unfold Ascii.compare. rewrite !N.compare_lt_iff. apply N.lt_trans.
Qed.

Lemma string_compare_lt_trans a :
  forall b c, String.compare a b = Lt -> String.compare b c = Lt ->
              String.compare a c = Lt.
Proof.
  induction a as [| x a IH]; intros [| y b] [| z c]; simpl; try congruence.
  destruct (Ascii.compare x y) eqn:Exy; try discriminate;
    destruct (Ascii.compare y z) eqn:Eyz; try discriminate; intros Hab Hbc.
  - apply Ascii.compare_eq_iff in Exy, Eyz. subst.
    rewrite ascii_compare_refl. eapply IH; eassumption.
  - apply Ascii.compare_eq_iff in Exy. subst. rewrite Eyz. reflexivity.
  - apply Ascii.compare_eq_iff in Eyz. subst. rewrite Exy. reflexivity.
  - rewrite (ascii_compare_lt_trans x y z Exy Eyz). reflexivity.
Qed.

Lemma string_ltb_irrefl s : String.ltb s s = false.
Proof. unfold String.ltb. rewrite string_compare_refl. reflexivity. Qed.

Lemma string_ltb_lt a b : String.ltb a b = true <-> String.compare a b = Lt.
Proof. unfold String.ltb. destruct (String.compare a b); split; congruence. Qed.

(** [c] is not below [b] and [b] is not below [a]: [c] is not below [a]. *)
Lemma string_not_below_trans a b c :
  String.ltb c b = false -> String.ltb b a = false -> String.ltb c a = false.
Proof.
  intros Hcb Hba. destruct (String.ltb c a) eqn:Hca; [| reflexivity].
  exfalso. apply string_ltb_lt in Hca.
  destruct (String.compare b a) eqn:Eba.
  - apply String.compare_eq_iff in Eba. subst b.
    apply string_ltb_lt in Hca. congruence.
  - apply string_ltb_lt in Eba. congruence.
  - assert (Hab : String.compare a b = Lt)
      by (rewrite String.compare_antisym, Eba; reflexivity).
    pose proof (string_compare_lt_trans c a b Hca Hab) as Hlt.
    apply string_ltb_lt in Hlt. congruence.
Qed.

Lemma strmax2_not_below a b :
  String.ltb (strmax2 a b) a = false /\ String.ltb (strmax2 a b) b = false.
Proof.
  unfold strmax2. destruct (String.ltb a b) eqn:E.
  - split; [| apply string_ltb_irrefl].
    apply string_ltb_lt in E. unfold String.ltb.
    rewrite String.compare_antisym, E. reflexivity.
  - split; [apply string_ltb_irrefl | exact E].
Qed.

Lemma fold_strmax2_not_below l x :
  String.ltb (fold_left strmax2 l x) x = false
  /\ forall y, y ∈ l -> String.ltb (fold_left strmax2 l x) y = false.
Proof.
  revert x. induction l as [| z l IH]; intros x; simpl.
  - split; [apply string_ltb_irrefl |].
    intros y Hy. apply elem_of_nil in Hy. contradiction.
  - destruct (IH (strmax2 x z)) as [H1 H2].
    destruct (strmax2_not_below x z) as [Hx Hz]. split.
    + eapply string_not_below_trans; eassumption.
    + intros y Hy. apply elem_of_cons in Hy as [-> | Hy]; [| auto].
      eapply string_not_below_trans; eassumption.
Qed.

Lemma fold_strmax2_in l x : fold_left strmax2 l x ∈ x :: l.
Proof.
  revert x. induction l as [| z l IH]; intros x; simpl.
  - apply elem_of_cons. left. reflexivity.
  - specialize (IH (strmax2 x z)). apply elem_of_cons in IH as [IH | IH].
    + rewrite IH. unfold strmax2. destruct (String.ltb x z).
      * apply elem_of_cons. right. apply elem_of_cons. left. reflexivity.
      * apply elem_of_cons. left. reflexivity.
    + apply elem_of_cons. right. apply elem_of_cons. right. exact IH.
Qed.

Lemma sql_max_str_spec l :
  l <> [] ->
  sql_max_str l ∈ l /\ forall y, y ∈ l -> String.ltb (sql_max_str l) y = false.
Proof.
  destruct l as [| x l]; [congruence |]. intros _. simpl. split.
  - apply fold_strmax2_in.
  - intros y Hy. destruct (fold_strmax2_not_below l x) as [H1 H2].
    apply elem_of_cons in Hy as [-> | Hy]; auto.
Qed.

Section SummaryValues.
Context `{SqlEngine}.

(** X14.  The summary stored by a run of the aggregation for a city that
    has a reading dated [today]: its maximum and its minimum are
    temperatures of readings of that city and day, and no such reading is
    above the one or below the other.  (The average is the engine's; an
    average of doubles need not lie between them, see
    [average_above_the_maximum].) *)
Theorem summary_temperatures today w city :
  no_fault w -> clean w -> keyed (daily_weather w) ->
  (exists r, r ∈ realtime_weather w /\ rw_city r = city
             /\ date_of (rw_dt r) = today) ->
  exists w1 s,
    aggregate_daily_weather today w = (inr tt, w1)
    /\ rows_of (city, today) (daily_weather w1) = [s]
    /\ (forall r, r ∈ realtime_weather w -> rw_city r = city ->
          date_of (rw_dt r) = today ->
          (dw_min_temp s <= rw_temp r)%Q /\ (rw_temp r <= dw_max_temp s)%Q)
    /\ (exists r, r ∈ realtime_weather w /\ rw_city r = city
                  /\ date_of (rw_dt r) = today /\ rw_temp r = dw_max_temp s)
    /\ (exists r, r ∈ realtime_weather w /\ rw_city r = city
                  /\ date_of (rw_dt r) = today /\ rw_temp r = dw_min_temp s).
Proof.
  intros Hf Hc Hk (r0 & Hin0 & Hcity0 & Hday0).
  destruct (aggregate_daily_weather_ok today w Hf Hc)
    as (w1 & Hrun & _ & _ & _ & Hd).
  assert (Hin : (city, today) ∈ observed today (realtime_weather w)).
  { apply elem_of_observed. exists r0. subst city. auto. }
  exists w1, (summary_of today (realtime_weather w) (city, today)).
  split; [exact Hrun |].
  split; [apply (aggregate_stores today w w1 _ Hk Hd Hin) |].
  pose proof (group_nonempty today (realtime_weather w) _ Hin) as Hne.
  set (g := filter (fun r => in_group (city, today) r)
                   (readings_of_day today (realtime_weather w))) in *.
  assert (Hne' : map rw_temp g <> []) by (destruct g; [congruence | discriminate]).
  destruct (sql_max_spec (map rw_temp g) Hne') as [Hmax_in Hmax].
  destruct (sql_min_spec (map rw_temp g) Hne') as [Hmin_in Hmin].
  assert (Hkey : forall r, group_key r = (city, today)
                           <-> rw_city r = city /\ date_of (rw_dt r) = today).
  { intros r. unfold group_key. split.
    - intros Heq. inversion Heq. auto.
    - intros [-> ->]. reflexivity. }
  unfold summary_of, daily_of_row, aggregate_group. fold g.
  cbn [dw_min_temp dw_max_temp ar_min_temp ar_max_temp].
  split; [| split].
  - intros r Hr Hcity Hday.
    assert (Hy : rw_temp r ∈ map rw_temp g).
    { apply list_elem_of_fmap. exists r. split; [reflexivity |].
      apply elem_of_group. split; [exact Hr |]. split; [exact Hday |].
      apply Hkey. auto. }
    split; auto.
  - apply list_elem_of_fmap in Hmax_in as (r & Heq & Hr).
    apply elem_of_group in Hr as (Hr & Hday & Hg).
    apply Hkey in Hg as [Hcity _]. exists r. auto.
  - apply list_elem_of_fmap in Hmin_in as (r & Heq & Hr).
    apply elem_of_group in Hr as (Hr & Hday & Hg).
    apply Hkey in Hg as [Hcity _]. exists r. auto.
Qed.

(** X15.  The dominant condition of a stored summary is the greatest
    condition, in the order of strings by character codes, among the
    readings of that city and day: it is the condition of one of them and
    none of them has a condition above it.  How often a condition occurs
    plays no part. *)
Theorem summary_dominant_condition today w :
  no_fault w -> clean w -> keyed (daily_weather w) ->
  exists w1,
    aggregate_daily_weather today w = (inr tt, w1)
    /\ forall k, k ∈ observed today (realtime_weather w) ->
         exists s,
           rows_of k (daily_weather w1) = [s]
           /\ (exists r, r ∈ realtime_weather w /\ date_of (rw_dt r) = today
                         /\ group_key r = k
                         /\ rw_main_condition r = dw_dom_condition s)
           /\ (forall r, r ∈ realtime_weather w -> date_of (rw_dt r) = today ->
                 group_key r = k ->
                 String.ltb (dw_dom_condition s) (rw_main_condition r) = false).
Proof.
  intros Hf Hc Hk.
  destruct (aggregate_daily_weather_ok today w Hf Hc)
    as (w1 & Hrun & _ & _ & _ & Hd).
  exists w1. split; [exact Hrun |]. intros k Hin.
  exists (summary_of today (realtime_weather w) k).
  split; [apply (aggregate_stores today w w1 k Hk Hd Hin) |].
  pose proof (group_nonempty today (realtime_weather w) k Hin) as Hne.
  set (g := filter (fun r => in_group k r)
                   (readings_of_day today (realtime_weather w))) in *.
  assert (Hne' : map rw_main_condition g <> [])
    by (destruct g; [congruence | discriminate]).
  destruct (sql_max_str_spec (map rw_main_condition g) Hne') as [Hmax_in Hmax].
  unfold summary_of, daily_of_row, aggregate_group. fold g.
  cbn [dw_dom_condition ar_dom_condition]. split.
  - apply list_elem_of_fmap in Hmax_in as (r & Heq & Hr).
    apply elem_of_group in Hr as (Hr & Hday & Hkey). exists r. auto.
  - intros r Hr Hday Hkey. apply Hmax. apply list_elem_of_fmap. exists r.
    split; [reflexivity |]. apply elem_of_group. auto.
Qed.

End SummaryValues.

(** Three readings of 27.1 degrees: added up and divided in doubles,
    their average is above every one of them. *)
Example average_above_the_maximum :
  (sql_max three_readings < sql_avg (SqlEngine := running_sum) three_readings)%Q
  /\ (sql_avg (SqlEngine := running_sum) three_readings
      == 7627971868858779 # 281474976710656)%Q.
Proof. split; vm_compute; reflexivity. Qed.

Lemma delhi_has_a_reading :
  exists r, r ∈ realtime_weather aggregation_world /\ rw_city r = "Delhi"
            /\ date_of (rw_dt r) = 2.
Proof.
  eexists. split; [apply elem_of_cons; left; reflexivity |].
  split; reflexivity.
Qed.

Lemma summary_temperatures_witness :
  no_fault aggregation_world /\ clean aggregation_world
  /\ keyed (daily_weather aggregation_world)
  /\ (exists r, r ∈ realtime_weather aggregation_world /\ rw_city r = "Delhi"
                /\ date_of (rw_dt r) = 2)
  /\ exists w1 s,
       aggregate_daily_weather (H := running_sum) 2 aggregation_world = (inr tt, w1)
       /\ rows_of ("Delhi", 2) (daily_weather w1) = [s]
       /\ (forall r, r ∈ realtime_weather aggregation_world -> rw_city r = "Delhi" ->
             date_of (rw_dt r) = 2 ->
             (dw_min_temp s <= rw_temp r)%Q /\ (rw_temp r <= dw_max_temp s)%Q)
       /\ (exists r, r ∈ realtime_weather aggregation_world /\ rw_city r = "Delhi"
                     /\ date_of (rw_dt r) = 2 /\ rw_temp r = dw_max_temp s)
       /\ (exists r, r ∈ realtime_weather aggregation_world /\ rw_city r = "Delhi"
                     /\ date_of (rw_dt r) = 2 /\ rw_temp r = dw_min_temp s).
Proof.
  split; [constructor |]. split; [reflexivity |].
  split; [exact aggregation_world_keyed |].
  split; [exact delhi_has_a_reading |].
  apply (summary_temperatures (H := running_sum) 2 aggregation_world "Delhi");
    [constructor | reflexivity | exact aggregation_world_keyed
    | exact delhi_has_a_reading].
Defined.

Lemma summary_dominant_condition_witness :
  no_fault aggregation_world /\ clean aggregation_world
  /\ keyed (daily_weather aggregation_world) /\
  exists w1,
    aggregate_daily_weather (H := running_sum) 2 aggregation_world = (inr tt, w1)
    /\ forall k, k ∈ observed 2 (realtime_weather aggregation_world) ->
         exists s,
           rows_of k (daily_weather w1) = [s]
           /\ (exists r, r ∈ realtime_weather aggregation_world
                         /\ date_of (rw_dt r) = 2 /\ group_key r = k
                         /\ rw_main_condition r = dw_dom_condition s)
           /\ (forall r, r ∈ realtime_weather aggregation_world ->
                 date_of (rw_dt r) = 2 -> group_key r = k ->
                 String.ltb (dw_dom_condition s) (rw_main_condition r) = false).
Proof.
  split; [constructor |]. split; [reflexivity |].
  split; [exact aggregation_world_keyed |].
  apply (summary_dominant_condition (H := running_sum) 2 aggregation_world);
    [constructor | reflexivity | exact aggregation_world_keyed].
Defined.

(** ** Rate limiting: clients, windows, bounds *)

Section RateLimitFurther.
Context {App Resp : Type}.
Variables (limit interval : Z).
Variable func : Request -> App -> Resp * App.

Lemma serve_app c1 c2 (rc : gmap string RequestInfo) app :
serve limit interval func (c1 ++ c2) rc app
= let r1 := serve limit interval func c1 rc app in
  let r2 := serve limit interval func c2 r1.1.2 r1.2 in
  (r1.1.1 ++ r2.1.1, r2.1.2, r2.2).
Proof.
revert rc app. induction c1 as [| [request t] c1 IH]; intros rc app.
- simpl. destruct (serve limit interval func c2 rc app) as [[rs rc2] app2].
  reflexivity.
- rewrite <- app_comm_cons, !serve_cons. cbv zeta. rewrite IH. reflexivity.
Qed.

(** X16.  Clients do not affect one another: the outcomes of the calls of
  a client, and the window it is left with, are those of its own calls
  served alone, whatever calls of other clients come in between and
  whatever the wrapped operation does. *)
Theorem rate_limit_isolates_clients ip calls :
forall (rc rc' : gmap string RequestInfo) app app',
  rc !! ip = rc' !! ip ->
  outcomes_of ip (serve limit interval func calls rc app).1.1
  = outcomes_of ip (serve limit interval func (calls_of ip calls) rc' app').1.1
  /\ (serve limit interval func calls rc app).1.2 !! ip
     = (serve limit interval func (calls_of ip calls) rc' app').1.2 !! ip.
Proof.
induction calls as [| [request t] rest IH]; intros rc rc' app app' Hrc.
- simpl. split; [reflexivity | exact Hrc].
- unfold calls_of. rewrite filter_cons. cbn [fst].
  destruct (decide (client_host request = ip)) as [Hip | Hip].
  + rewrite !serve_cons. cbv zeta. cbn [fst snd].
    unfold outcomes_of. rewrite !filter_cons. cbn [fst snd].
    rewrite !decide_True by exact Hip. cbn [map fst snd].
    assert (Hnext :
      (rate_limit limit interval func request t rc app).1.2 !! ip
      = (rate_limit limit interval func request t rc' app').1.2 !! ip).
    { rewrite !rate_limit_counts, Hip, !lookup_insert_eq, Hrc. reflexivity. }
    destruct (IH _ _ (rate_limit limit interval func request t rc app).2
                (rate_limit limit interval func request t rc' app').2 Hnext)
      as [IHo IHc].
    split; [| exact IHc]. f_equal; [| exact IHo].
    rewrite !rate_limit_outcome, Hip, Hrc. reflexivity.
  + rewrite serve_cons. cbv zeta. cbn [fst snd].
    unfold outcomes_of at 1. rewrite filter_cons. cbn [fst snd].
    rewrite decide_False by exact Hip.
    apply IH. rewrite rate_limit_counts, lookup_insert_ne by exact Hip. exact Hrc.
Qed.

Lemma outcomes_of_app ip (a b : list (Request * (HTTPException + Resp))) :
outcomes_of ip (a ++ b) = outcomes_of ip a ++ outcomes_of ip b.
Proof. unfold outcomes_of. rewrite filter_app, map_app. reflexivity. Qed.

(** A call that opens a window, followed by calls inside that window. *)
Lemma serve_opening request t rest (rc : gmap string RequestInfo) app :
let ip := client_host request in
window_after interval t (rc !! ip) = mkRequestInfo 1 t ->
Forall (within interval t) (calls_of ip rest) ->
outcomes_of ip (serve limit interval func ((request, t) :: rest) rc app).1.1
= window_outcomes limit 0 (S (length (calls_of ip rest)))
/\ (serve limit interval func ((request, t) :: rest) rc app).1.2 !! ip
   = Some (mkRequestInfo (1 + Z.of_nat (length (calls_of ip rest))) t).
Proof.
intros ip Hopen Hw. rewrite serve_cons. cbv zeta. cbn [fst snd].
unfold outcomes_of. rewrite filter_cons. cbn [fst snd].
rewrite decide_True by reflexivity.
assert (Hrc1 : (rate_limit limit interval func request t rc app).1.2 !! ip
               = Some (mkRequestInfo 1 t)).
{ rewrite rate_limit_counts. fold ip. rewrite lookup_insert_eq, Hopen. reflexivity. }
destruct (serve_inside_window limit interval func ip rest _
            (rate_limit limit interval func request t rc app).2 _ Hrc1 Hw)
  as [Ho Hc].
split.
- cbn [map fst snd window_outcomes]. f_equal; [| exact Ho].
  rewrite rate_limit_outcome. fold ip. rewrite Hopen. reflexivity.
- exact Hc.
Qed.

Lemma window_outcomes_all_let_through k n :
k + Z.of_nat n <= limit -> Forall (fun b => b = true) (window_outcomes limit k n).
Proof.
revert k. induction n as [| n IH]; intros k Hk; simpl; constructor.
- apply negb_true_iff, Z.ltb_ge. lia.
- apply IH. lia.
Qed.

(** X17.  The window is a fixed one.  A client that has used up to [limit]
  calls in one window and whose next call arrives more than [interval]
  seconds after the start of that window gets a full quota again at
  once: up to [limit] further calls within the new window are let
  through, however shortly they follow the calls of the old window. *)
Theorem full_quota_after_reset request t0 rest0 request1 t1 rest1
  (rc : gmap string RequestInfo) app :
let ip := client_host request in
client_host request1 = ip ->
rc !! ip = None ->
Forall (within interval t0) (calls_of ip rest0) ->
(inject_Z interval < t1 - t0)%Q ->
Forall (within interval t1) (calls_of ip rest1) ->
Z.of_nat (S (length (calls_of ip rest0))) <= limit ->
Z.of_nat (S (length (calls_of ip rest1))) <= limit ->
let outcomes :=
  outcomes_of ip
    (serve limit interval func
       (((request, t0) :: rest0) ++ ((request1, t1) :: rest1)) rc app).1.1 in
length outcomes
  = (S (length (calls_of ip rest0)) + S (length (calls_of ip rest1)))%nat
/\ Forall (fun b => b = true) outcomes.
Proof.
intros ip Hip1 Hnew Hw0 Hexp Hw1 Hn0 Hn1 outcomes. subst outcomes.
rewrite serve_app. cbv zeta. cbn [fst snd]. rewrite outcomes_of_app.
assert (Hopen0 : window_after interval t0 (rc !! ip) = mkRequestInfo 1 t0)
  by (rewrite Hnew; apply window_after_fresh).
destruct (serve_opening request t0 rest0 rc app Hopen0 Hw0) as [Ho0 Hc0].
fold ip in Ho0, Hc0.
set (r0 := serve limit interval func ((request, t0) :: rest0) rc app) in *.
assert (Hopen1 : window_after interval t1 (r0.1.2 !! client_host request1)
                 = mkRequestInfo 1 t1).
{ rewrite Hip1, Hc0. apply window_after_expired. exact Hexp. }
rewrite <- Hip1 in Hw1.
destruct (serve_opening request1 t1 rest1 r0.1.2 r0.2 Hopen1 Hw1) as [Ho1 _].
rewrite Hip1 in Ho1, Hw1. rewrite Ho0, Ho1. split.
- rewrite length_app, !window_outcomes_length. reflexivity.
- apply Forall_app. split; apply window_outcomes_all_let_through; lia.
Qed.

(** Every entry of the table has been counted at least once. *)
Lemma counted_after request t (rc : gmap string RequestInfo) app :
map_Forall (fun _ info => 1 <= count info) rc ->
map_Forall (fun _ info => 1 <= count info)
           (rate_limit limit interval func request t rc app).1.2.
Proof.
intros Hall. rewrite rate_limit_counts. apply map_Forall_insert_2; [| exact Hall].
unfold window_after.
destruct (rc !! client_host request) as [info |] eqn:E; simpl.
- destruct (Qltb _ _); simpl; [lia |].
  specialize (Hall _ _ E). simpl in Hall. lia.
- destruct (Qltb _ _); simpl; lia.
Qed.

Lemma serve_rejects_all calls :
limit <= 0 ->
forall (rc : gmap string RequestInfo) app,
  map_Forall (fun _ info => 1 <= count info) rc ->
  Forall (fun x => let_through (snd x) = false)
         (serve limit interval func calls rc app).1.1
  /\ (serve limit interval func calls rc app).2 = app.
Proof.
intros Hl. induction calls as [| [request t] rest IH]; intros rc app Hall.
- simpl. split; [constructor | reflexivity].
- rewrite serve_cons. cbv zeta. cbn [fst snd].
  pose proof (counted_after request t rc app Hall) as Hall1.
  assert (Hrej : let_through (rate_limit limit interval func request t rc app).1.1
                 = false).
  { rewrite rate_limit_outcome. apply negb_false_iff, Z.ltb_lt.
    pose proof Hall1 as Hcnt. rewrite rate_limit_counts in Hcnt.
    specialize (Hcnt (client_host request) _ (lookup_insert_eq _ _ _)).
    cbv beta in Hcnt. lia. }
  assert (Happ : (rate_limit limit interval func request t rc app).2 = app).
  { destruct (rate_limit limit interval func request t rc app) as [[r rc1] app1] eqn:E.
    destruct r as [e | resp]; [| discriminate].
    apply rate_limit_rejection in E as (_ & Ha & _). exact Ha. }
  destruct (IH _ (rate_limit limit interval func request t rc app).2 Hall1)
    as [IHo IHa].
  split; [constructor; [exact Hrej | exact IHo] |].
  rewrite IHa. exact Happ.
Qed.

(** X18.  A limit of zero or less shuts the endpoint: starting from an
  empty table every call of every client is rejected and the wrapped
  operation never runs. *)
Theorem nonpositive_limit_rejects_all calls app :
limit <= 0 ->
Forall (fun x => snd x = inl (mkHTTPException 429 "Rate limit exceeded"))
       (serve limit interval func calls ∅ app).1.1
/\ (serve limit interval func calls ∅ app).2 = app.
Proof.
intros Hl.
assert (Hgen : forall calls (rc : gmap string RequestInfo) app,
          Forall (fun x => let_through (snd x) = false)
                 (serve limit interval func calls rc app).1.1 ->
          Forall (fun x => snd x = inl (mkHTTPException 429 "Rate limit exceeded"))
                 (serve limit interval func calls rc app).1.1).
{ clear calls app. induction calls as [| [request t] rest IH]; intros rc app.
  - simpl. constructor.
  - rewrite serve_cons. cbv zeta. cbn [fst snd]. intros Hall.
    apply Forall_cons in Hall as [Hhead Htail]. constructor; [| apply IH, Htail].
    cbn [snd] in *.
    destruct (rate_limit limit interval func request t rc app) as [[r rc1] app1] eqn:E.
    cbn [fst] in *. destruct r as [e | resp]; [| discriminate].
    apply rate_limit_rejection in E as (-> & _). reflexivity. }
destruct (serve_rejects_all calls Hl ∅ app) as [Ho Ha].
{ apply map_Forall_empty. }
split; [apply Hgen, Ho | exact Ha].
Qed.

(** X19.  The table of windows only grows: entries are never removed, and
  after a sequence of calls every client that called has an entry. *)
Theorem request_counts_only_grow calls :
forall (rc : gmap string RequestInfo) app,
  dom rc ⊆ dom (serve limit interval func calls rc app).1.2
  /\ forall call, call ∈ calls ->
       client_host (fst call) ∈ dom (serve limit interval func calls rc app).1.2.
Proof.
induction calls as [| [request t] rest IH]; intros rc app.
- simpl. split; [reflexivity |]. intros call Hin. apply elem_of_nil in Hin. contradiction.
- rewrite serve_cons. cbv zeta. cbn [fst snd].
  destruct (IH (rate_limit limit interval func request t rc app).1.2
               (rate_limit limit interval func request t rc app).2) as [IHd IHc].
  assert (Hstep : dom rc ∪ {[client_host request]}
                  ⊆ dom (rate_limit limit interval func request t rc app).1.2).
  { rewrite rate_limit_counts, dom_insert_L. intros x Hx.
    apply elem_of_union in Hx as [Hx | Hx]; apply elem_of_union;
      [right | left]; exact Hx. }
  split.
  + intros x Hx. apply IHd, Hstep, elem_of_union. left. exact Hx.
  + intros call Hin. apply elem_of_cons in Hin as [-> | Hin]; [| apply IHc, Hin].
    cbn [fst]. apply IHd, Hstep, elem_of_union. right.
    apply elem_of_singleton. reflexivity.
Qed.

End RateLimitFurther.

Lemma full_quota_after_reset_witness :
  let outcomes :=
    outcomes_of "10.0.0.1"
      (serve 2 60 counting_handler
         (((alice, 0%Q) :: [(alice, 60%Q)]) ++ ((alice, 61%Q) :: [(alice, 62%Q)]))
         ∅ O).1.1 in
  length outcomes = 4%nat /\ Forall (fun b => b = true) outcomes.
Proof.
  assert (H0 : Forall (within 60 0%Q) (calls_of "10.0.0.1" [(alice, 60%Q)])).
  { repeat constructor. unfold within. simpl. intros Hlt. vm_compute in Hlt.
    discriminate. }
  assert (H1 : Forall (within 60 61%Q) (calls_of "10.0.0.1" [(alice, 62%Q)])).
  { repeat constructor. unfold within. simpl. intros Hlt. vm_compute in Hlt.
    discriminate. }
  exact (full_quota_after_reset 2 60 counting_handler alice 0%Q [(alice, 60%Q)]
           alice 61%Q [(alice, 62%Q)] ∅ O eq_refl eq_refl H0 eq_refl H1
           ltac:(vm_compute; discriminate) ltac:(vm_compute; discriminate)).
Defined.

Lemma nonpositive_limit_rejects_all_witness :
  0 <= 0
  /\ Forall (fun x => snd x = inl (mkHTTPException 429 "Rate limit exceeded"))
            (serve 0 60 counting_handler burst ∅ O).1.1
  /\ (serve 0 60 counting_handler burst ∅ O).2 = O.
Proof.
  split; [lia |].
  apply (nonpositive_limit_rejects_all 0 60 counting_handler burst O). lia.
Defined.

Lemma rate_limit_isolates_clients_witness :
  (∅ : gmap string RequestInfo) !! "10.0.0.1" = (∅ : gmap string RequestInfo) !! "10.0.0.1"
  /\ outcomes_of "10.0.0.1" (serve 2 60 counting_handler burst ∅ O).1.1
     = outcomes_of "10.0.0.1"
         (serve 2 60 counting_handler (calls_of "10.0.0.1" burst) ∅ 7%nat).1.1
  /\ (serve 2 60 counting_handler burst ∅ O).1.2 !! "10.0.0.1"
     = (serve 2 60 counting_handler (calls_of "10.0.0.1" burst) ∅ 7%nat).1.2
         !! "10.0.0.1".
Proof.
  split; [reflexivity |].
  exact (rate_limit_isolates_clients 2 60 counting_handler "10.0.0.1" burst
           ∅ ∅ O 7%nat eq_refl).
Defined.

(** ** Caching: keys and the UTC case *)

Section CacheFurther.
Context {K : Type} `{Countable K} {V Env : Type}.
Variable timeout : Z.
Variable clock : Env -> Clock.
Variable func : K -> Env -> V * Env.

(** X20.  In a process whose local zone is UTC the cache works as a
  time-to-live cache: a value computed on a miss is returned, with the
  wrapped operation not run and the cache unchanged, by a call made less
  than [timeout] seconds after it was stored; a call made [timeout]
  seconds after or later runs the operation again. *)
Theorem cache_round_trip_in_utc key (cache : gmap K (CacheEntry V)) env env2 :
cache !! key = None ->
utc_offset (clock env2) = 0 ->
let r1 := cache_with_timeout timeout clock func key cache env in
r1.1.1 = (func key env).1
/\ (posix_us (clock env2) - posix_us (clock r1.2) < timedelta_seconds timeout ->
    cache_with_timeout timeout clock func key r1.1.2 env2
    = (r1.1.1, r1.1.2, env2))
/\ (timedelta_seconds timeout <= posix_us (clock env2) - posix_us (clock r1.2) ->
    cache_with_timeout timeout clock func key r1.1.2 env2
    = ((func key env2).1,
       <[key := mkCacheEntry (func key env2).1 (posix_us (clock (func key env2).2))]>
         r1.1.2,
       (func key env2).2)).
Proof.
intros Hmiss Hutc r1. subst r1.
rewrite (cache_miss timeout clock func key cache env Hmiss). cbv zeta. cbn [fst snd].
split; [reflexivity |].
set (entry := mkCacheEntry (func key env).1 (posix_us (clock (func key env).2))).
destruct (cache_in_utc timeout clock func key (<[key := entry]> cache) env2 entry
            Hutc (lookup_insert_eq _ _ _)) as [Hhit Hexp].
split; [exact Hhit | exact Hexp].
Qed.

(** X21.  A call with one key leaves the entries of all other keys as they
  were and never removes an entry; after the call the key has an entry. *)
Theorem cache_keys_are_independent key (cache : gmap K (CacheEntry V)) env :
let cache' := (cache_with_timeout timeout clock func key cache env).1.2 in
(forall key', key' <> key -> cache' !! key' = cache !! key')
/\ is_Some (cache' !! key)
/\ dom cache ⊆ dom cache'.
Proof.
intros cache'. subst cache'. unfold cache_with_timeout.
destruct (func key env) as [result env'] eqn:Ef.
assert (Hins : forall e : CacheEntry V,
          (forall key', key' <> key -> (<[key := e]> cache) !! key' = cache !! key')
          /\ is_Some ((<[key := e]> cache) !! key)
          /\ dom cache ⊆ dom (<[key := e]> cache)).
{ intros e. split; [| split].
  - intros key' Hne. apply lookup_insert_ne. congruence.
  - rewrite lookup_insert_eq. eauto.
  - rewrite dom_insert_L. intros x Hx. apply elem_of_union. right. exact Hx. }
destruct (cache !! key) as [entry |] eqn:Ec.
- destruct (_ <? _); cbn [fst snd]; [| apply Hins].
  split; [reflexivity |]. split; [rewrite Ec; eauto | reflexivity].
- cbn [fst snd]. apply Hins.
Qed.

End CacheFurther.

Lemma cache_round_trip_in_utc_witness :
  (∅ : gmap string (CacheEntry nat)) !! "realtime" = None
  /\ utc_offset (server_clock (later 10 (slow_query "realtime" server_utc).2)) = 0
  /\ let r1 := cache_with_timeout 300 server_clock slow_query "realtime" ∅ server_utc in
     let env2 := later 10 (slow_query "realtime" server_utc).2 in
     posix_us (server_clock env2) - posix_us (server_clock r1.2) < timedelta_seconds 300
     /\ cache_with_timeout 300 server_clock slow_query "realtime" r1.1.2 env2
        = (r1.1.1, r1.1.2, env2).
Proof.
  split; [reflexivity |]. split; [reflexivity |].
  intros r1 env2.
  assert (Hlt : posix_us (server_clock env2) - posix_us (server_clock r1.2)
                < timedelta_seconds 300) by (vm_compute; reflexivity).
  split; [exact Hlt |].
  exact (proj1 (proj2 (cache_round_trip_in_utc 300 server_clock slow_query
                         "realtime" ∅ server_utc env2 eq_refl eq_refl)) Hlt).
Defined.

(** ** Fetching: failures *)

Section FetchFailures.
Variable geo_api : string -> string -> GeoResponse.
Variable weather_api : string -> option Q -> option Q -> string -> WeatherResponse.
Variable local_offset : Z.

(** X22.  A refusal of the provider is raised with its status code: when
  the geocoding call does not answer 200 the fetch raises with the status
  of that call, whatever the weather call would answer; when it answers
  200 with a match and the weather call does not answer 200, the fetch
  raises with the status of the weather call.  Nothing is stored. *)
Theorem fetch_reports_status api_url api_key city w :
(geo_status_code (geo_api city api_key) <> 200 ->
   fetch_weather_data geo_api weather_api local_offset api_url api_key city w
   = (inl (RequestFailed (geo_status_code (geo_api city api_key))), w))
/\ (forall place places,
      geo_status_code (geo_api city api_key) = 200 ->
      geo_json (geo_api city api_key) = place :: places ->
      let response :=
        weather_api api_url (place !! "lat") (place !! "lon") api_key in
      w_status_code response <> 200 ->
      fetch_weather_data geo_api weather_api local_offset api_url api_key city w
      = (inl (RequestFailed (w_status_code response)), w)).
Proof.
split.
- intros Hs. unfold fetch_weather_data, get_lat_lon_for_city, bind.
  apply Z.eqb_neq in Hs. rewrite Hs. reflexivity.
- intros place places Hs Hj response Hw. unfold fetch_weather_data.
  rewrite (bind_inr _ _ _ _ _
             (get_lat_lon_ok geo_api city api_key place places w Hs Hj)).
  cbn [fst snd]. fold response. apply Z.eqb_neq in Hw. rewrite Hw. reflexivity.
Qed.

(** X23.  A city the geocoding call finds no match for: the call answers
  200 with an empty list, and the fetch raises [IndexError], not the
  error of a refused request; the weather call plays no part. *)
Theorem fetch_of_unknown_city api_url api_key city w :
geo_status_code (geo_api city api_key) = 200 ->
geo_json (geo_api city api_key) = [] ->
fetch_weather_data geo_api weather_api local_offset api_url api_key city w
= (inl IndexError, w).
Proof.
intros Hs Hj. unfold fetch_weather_data, get_lat_lon_for_city, bind, index.
rewrite Hs, Hj. reflexivity.
Qed.

(** X24.  A weather answer of status 200 that lacks a required part, or
  holds one the code cannot use.  The entries are evaluated in the
  order they are written in, and the first that fails decides: without
  [dt] the fetch raises [KeyError]; with a [dt] that
  [datetime.fromtimestamp] does not accept it raises for the timestamp,
  before [weather] or [main] is read.  With a [dt] it accepts, the fetch
  raises [KeyError] for a missing [weather], [IndexError] for an empty
  [weather] list, [KeyError] for a first entry without [main] and for a
  missing [main] object; a [main] object without [temp] raises
  [KeyError] for [temp], one whose [temp] is an integer beyond the
  doubles raises [OverflowError], and one with a usable [temp] and
  without [feels_like] raises [KeyError] for [feels_like]. *)
Theorem fetch_of_incomplete_payload api_url api_key city w place places :
geo_status_code (geo_api city api_key) = 200 ->
geo_json (geo_api city api_key) = place :: places ->
let response := weather_api api_url (place !! "lat") (place !! "lon") api_key in
let data := w_json response in
let fetched :=
  fetch_weather_data geo_api weather_api local_offset api_url api_key city w in
w_status_code response = 200 ->
(p_dt data = None -> fetched = (inl (KeyError "dt"), w))
/\ (forall dt, p_dt data = Some dt ->
      (in_datetime_range local_offset dt = false ->
         fetched = (inl TimestampOutOfRange, w))
      /\ (in_datetime_range local_offset dt = true ->
           (p_weather data = None -> fetched = (inl (KeyError "weather"), w))
           /\ (p_weather data = Some [] -> fetched = (inl IndexError, w))
           /\ (forall w0 ws, p_weather data = Some (w0 :: ws) ->
                 (w0 !! "main" = None -> fetched = (inl (KeyError "main"), w))
                 /\ (forall condition, w0 !! "main" = Some condition ->
                       (p_main data = None -> fetched = (inl (KeyError "main"), w))
                       /\ (forall main, p_main data = Some main ->
                             (main !! "temp" = None ->
                                fetched = (inl (KeyError "temp"), w))
                             /\ (forall temp, main !! "temp" = Some temp ->
                                   (is_finite temp = false ->
                                      fetched = (inl OverflowError, w))
                                   /\ (is_finite temp = true ->
                                       main !! "feels_like" = None ->
                                       fetched = (inl (KeyError "feels_like"), w)))))))).
Proof.
intros Hs Hj response data fetched Hw.
assert (Hfetch := fetch_weather_data_eq geo_api weather_api local_offset
                    api_url api_key city w place places Hs Hj Hw).
fold response in Hfetch. fold data in Hfetch. fold fetched in Hfetch.
rewrite Hfetch. clear Hfetch.
split.
- intros ->. reflexivity.
- intros dt ->. split.
  + intros Hr. unfold bind at 1 2. unfold required, ret.
    rewrite datetime_fromtimestamp_eq, Hr. reflexivity.
  + intros Hr.
    assert (Hdt : (ts <- required "dt" (Some dt) ;;
                   datetime_fromtimestamp local_offset ts) w
                  = (inr (timedelta_seconds (dt + local_offset)), w)).
    { unfold bind, required, ret. rewrite datetime_fromtimestamp_eq, Hr. reflexivity. }
    rewrite (bind_inr _ _ _ _ _ Hdt). clear Hdt.
    split; [| split].
    * intros ->. reflexivity.
    * intros ->. reflexivity.
    * intros w0 ws ->. split.
      -- intros Hm. unfold bind, required, index, subscript, ret.
         cbn [lookup list_lookup]. rewrite Hm. reflexivity.
      -- intros condition Hm. split.
         ++ intros ->. unfold bind, required, index, subscript, ret.
            cbn [lookup list_lookup]. rewrite Hm. reflexivity.
         ++ intros main ->. split.
            ** intros Ht. unfold bind, required, index, subscript, ret.
               cbn [lookup list_lookup]. rewrite Hm, Ht. reflexivity.
            ** intros temp Ht. split.
               --- intros Hfin. unfold bind, required, index, subscript, ret.
                   cbn [lookup list_lookup]. rewrite Hm, Ht.
                   rewrite float_sub_kelvin, Hfin. reflexivity.
               --- intros Hfin Hfl. unfold bind, required, index, subscript, ret.
                   cbn [lookup list_lookup]. rewrite Hm, Ht.
                   rewrite float_sub_kelvin, Hfin. cbv beta iota.
                   rewrite Hfl. reflexivity.
Qed.

End FetchFailures.

Lemma fetch_reports_status_witness :
  geo_status_code (geo_refusal "Delhi" "key") <> 200
  /\ fetch_weather_data geo_refusal (answer dry_payload) 19800 "url" "key" "Delhi"
       empty_world
     = (inl (RequestFailed 401), empty_world).
Proof.
  assert (Hs : geo_status_code (geo_refusal "Delhi" "key") <> 200)
    by (vm_compute; discriminate).
  split; [exact Hs |].
  exact (proj1 (fetch_reports_status geo_refusal (answer dry_payload) 19800
                  "url" "key" "Delhi" empty_world) Hs).
Defined.

Lemma fetch_of_unknown_city_witness :
  geo_status_code (no_match "Atlantis" "key") = 200
  /\ geo_json (no_match "Atlantis" "key") = []
  /\ fetch_weather_data no_match (answer dry_payload) 19800 "url" "key" "Atlantis"
       empty_world
     = (inl IndexError, empty_world).
Proof.
  split; [reflexivity |]. split; [reflexivity |].
  apply (fetch_of_unknown_city no_match (answer dry_payload) 19800
           "url" "key" "Atlantis" empty_world); reflexivity.
Defined.

(** An answer whose [dt] is the first second of year 10000 (UTC), and
    nothing else. *)
Lemma fetch_of_incomplete_payload_witness :
  p_dt late_payload = Some 253402300800
  /\ in_datetime_range 19800 253402300800 = false
  /\ fetch_weather_data sample_geo (answer late_payload) 19800 "url" "key" "Delhi"
       empty_world
     = (inl TimestampOutOfRange, empty_world).
Proof.
  split; [reflexivity |]. split; [reflexivity |].
  exact (proj1 (proj2 (fetch_of_incomplete_payload sample_geo
                         (answer late_payload) 19800
                         "url" "key" "Delhi" empty_world
                         (<["lat" := 28.6%Q]> (<["lon" := 77.2%Q]> ∅)) []
                         eq_refl eq_refl eq_refl)
                      253402300800 eq_refl) eq_refl).
Defined.

(** ** Exports: what is returned *)

Lemma map_m_pure {A B C} (f : B -> M C) (h : A -> B) (g : A -> C) l w :
  (forall x, f (h x) w = (inr (g x), w)) ->
  map_m f (map h l) w = (inr (map g l), w).
Proof.
  intros Hf. induction l as [| x l IH]; [reflexivity |].
  simpl. unfold bind. rewrite Hf, IH. reflexivity.
Qed.

Lemma dumps_realtime_object str r w :
  map_m (fun kv => j <- dumps_value (Some str) (snd kv) ;; ret (fst kv, j))
        (dict_pop "_sa_instance_state" (realtime_dict r)) w
  = (inr (realtime_object str r), w).
Proof. reflexivity. Qed.

(** X25.  The realtime export returns one object per stored reading, in
    the order of the table, each with the nine fields of a reading and
    without the bookkeeping entry of the session; the timestamp goes
    through [str], the numbers and the texts are passed as they are.  The
    stored readings are not changed. *)
Theorem realtime_export_lists_readings str w :
  no_fault w ->
  exists w',
    get_realtime_data str w
    = (inr (map (realtime_object str) (realtime_weather w)), w')
    /\ realtime_weather w' = realtime_weather w.
Proof.
  intros Hf. unfold get_realtime_data, bind at 1 2.
  rewrite storage_op_eq, (no_fault_next w Hf). unfold gets.
  change (realtime_weather (advance w)) with (realtime_weather w).
  cbv zeta. unfold json_dumps. rewrite map_map.
  rewrite (map_m_pure _ _ (realtime_object str)).
  - exists (advance w). split; reflexivity.
  - intros r. apply dumps_realtime_object.
Qed.

Lemma realtime_export_lists_readings_witness :
  no_fault history_world /\
  exists w',
    get_realtime_data plain_str history_world
    = (inr (map (realtime_object plain_str) (realtime_weather history_world)), w')
    /\ realtime_weather w' = realtime_weather history_world.
Proof.
  split; [constructor |].
  apply (realtime_export_lists_readings plain_str history_world). constructor.
Defined.

(** X26.  The historical export returns a value for an empty daily table
    only, and the value is then the empty array; with one summary or more
    stored it raises [TypeError], as no row is prepared for [json.dumps]. *)
Theorem historical_export_needs_empty_table w :
  no_fault w ->
  (daily_weather w = [] ->
     exists w', get_historical_data w = (inr [], w'))
  /\ (daily_weather w <> [] ->
      exists w',
        get_historical_data w
        = (inl (TypeError "Object is not JSON serializable"), w')).
Proof.
  intros Hf.
  assert (Hrun : get_historical_data w
                 = json_dumps None (map daily_dict (daily_weather w)) (advance w)).
  { unfold get_historical_data, bind at 1 2.
    rewrite storage_op_eq, (no_fault_next w Hf). reflexivity. }
  rewrite Hrun. split.
  - intros ->. eexists. reflexivity.
  - intros Hne. destruct (daily_weather w) as [| d rows]; [congruence |].
    rewrite json_dumps_instance_state. eexists. reflexivity.
Qed.

Lemma historical_export_needs_empty_table_witness :
  no_fault history_world
  /\ daily_weather history_world <> []
  /\ exists w',
       get_historical_data history_world
       = (inl (TypeError "Object is not JSON serializable"), w').
Proof.
  assert (Hne : daily_weather history_world <> []) by discriminate.
  split; [constructor |]. split; [exact Hne |].
  exact (proj2 (historical_export_needs_empty_table history_world
                  ltac:(constructor)) Hne).
Defined.

(** ** Saving the edited thresholds *)

Lemma to_dict_list_lookup rows key :
  to_dict_list rows !! key
  = if decide (key ∈ frame_columns rows)
    then Some (frame_column ((fun row : gmap string Cell => row !! key) <$> rows))
    else None.
Proof.
  unfold to_dict_list.
  assert (Hinj : forall y y' : string,
            y ∈ frame_columns rows -> y' ∈ frame_columns rows ->
            (y, frame_column ((fun row : gmap string Cell => row !! y) <$> rows)).1
            = (y', frame_column ((fun row : gmap string Cell => row !! y') <$> rows)).1 ->
            y = y')
    by (intros y y' _ _ Heq; exact Heq).
  destruct (decide (key ∈ frame_columns rows)) as [Hin | Hnin].
  - apply (lookup_set_to_map _ _ _ _ Hinj). exists key. auto.
  - apply eq_None_not_Some. intros [col Hcol].
    apply (lookup_set_to_map _ _ _ _ Hinj) in Hcol as (y & Hy & Heq).
    inversion Heq; subst. contradiction.
Qed.

Lemma frame_columns_complete rows :
  rows <> [] -> (forall row, row ∈ rows -> dom row = metric_names) ->
  frame_columns rows = metric_names.
Proof.
  intros Hne Hall. unfold frame_columns. apply set_eq. intros key.
  rewrite elem_of_union_list. split.
  - intros (X & HX & Hk). apply list_elem_of_fmap in HX as (row & -> & Hrow).
    rewrite <- (Hall row Hrow). exact Hk.
  - intros Hk. destruct rows as [| row rows]; [congruence |].
    exists (dom row). split.
    + apply list_elem_of_fmap. exists row. split; [reflexivity |].
      apply elem_of_cons. left. reflexivity.
    + rewrite (Hall row); [exact Hk |]. apply elem_of_cons. left. reflexivity.
Qed.

Lemma length_frame_column cells : length (frame_column cells) = length cells.
Proof.
  unfold frame_column. destruct (forallb is_int_cell cells); apply length_fmap.
Qed.

(** [int] cuts equal numbers to the same integer. *)
Lemma py_int_floor q :
  py_int q = if 0 <=? Qnum q then Qfloor q else - Qfloor (- q).
Proof.
  unfold py_int, Qfloor. destruct q as [n d]. cbn [Qnum Qden Qopp].
  destruct (0 <=? n) eqn:E.
  - apply Z.leb_le in E. apply Z.quot_div_nonneg; lia.
  - apply Z.leb_gt in E.
    rewrite <- (Z.opp_involutive n) at 1. rewrite Z.quot_opp_l by lia.
    rewrite Z.quot_div_nonneg by lia. reflexivity.
Qed.

Lemma py_int_comp x y : (x == y)%Q -> py_int x = py_int y.
Proof.
  intros Heq. rewrite !py_int_floor.
  assert (Hs : (0 <=? Qnum x) = (0 <=? Qnum y)).
  { unfold Qeq in Heq. destruct (0 <=? Qnum x) eqn:Ex, (0 <=? Qnum y) eqn:Ey;
      try reflexivity; exfalso.
    - apply Z.leb_le in Ex. apply Z.leb_gt in Ey. nia.
    - apply Z.leb_gt in Ex. apply Z.leb_le in Ey. nia. }
  rewrite Hs. destruct (0 <=? Qnum y).
  - apply Qfloor_comp, Heq.
  - f_equal. apply Qfloor_comp. rewrite Heq. reflexivity.
Qed.

Lemma int_list_of_column key (rows : list (gmap string Cell)) :
  (forall row, row ∈ rows ->
     exists c, row !! key = Some c /\ is_double (cell_value c)) ->
  int_list (frame_column ((fun row : gmap string Cell => row !! key) <$> rows))
  = Some (saved_bound key <$> rows).
Proof.
  unfold int_list, frame_column. intros Hall. apply mapM_Some_2.
  destruct (forallb _ _); clear -Hall;
    (induction rows as [| row rows IH]; [constructor |]);
    rewrite !fmap_cons;
    (constructor;
     [| apply IH; intros r Hr; apply Hall, elem_of_cons; right; exact Hr]);
    (destruct (Hall row) as (c & Hc & Hd);
     [apply elem_of_cons; left; reflexivity |]);
    unfold saved_bound; rewrite Hc; cbn [fmap option_fmap option_map default].
  - reflexivity.
  - rewrite (py_int_comp _ _ (proj1 Hd)). reflexivity.
Qed.

Lemma update_thresholds_result self (kwargs : gmap string (list Q)) self' :
  update_thresholds self kwargs = (inr tt, self') ->
  dom kwargs = metric_names /\ get_thresholds self' = kwargs.
Proof.
  intros Hu. destruct (decide (dom kwargs = metric_names)) as [Hd | Hd].
  - split; [exact Hd |].
    destruct (update_thresholds_accepts self kwargs Hd) as (s & Hs & Hg).
    rewrite Hu in Hs. injection Hs as ->. exact Hg.
  - destruct (update_thresholds_rejects self kwargs Hd) as (msg & Hm).
    rewrite Hu in Hm. discriminate.
Qed.

Lemma update_thresholds_error self (kwargs : gmap string (list Q)) e self' :
  update_thresholds self kwargs = (inl e, self') -> self' = self.
Proof.
  intros Hu. destruct (decide (dom kwargs = metric_names)) as [Hd | Hd].
  - destruct (update_thresholds_accepts self kwargs Hd) as (s & Hs & _).
    rewrite Hu in Hs. discriminate.
  - destruct (update_thresholds_rejects self kwargs Hd) as (msg & Hm).
    rewrite Hu in Hm. inversion Hm. reflexivity.
Qed.

(** X27.  Saving a table in which every row has a cell for each of the
    six metrics, and for nothing else, and in which every cell is a number
    the doubles hold exactly (as every float is, and every integer up to
    [2^53]), succeeds: it returns the rows and leaves, for every metric,
    the list of the cells of that metric down the rows, each cut to an
    integer toward zero.  (An integer the doubles do not hold is stored
    rounded when its column has a float, see [mixed_column_is_rounded].) *)
Theorem save_values_stores_columns n_clicks rows self :
  rows <> [] ->
  (forall row, row ∈ rows -> dom row = metric_names) ->
  (forall row key c, row ∈ rows -> row !! key = Some c -> is_double (cell_value c)) ->
  exists self',
    save_values n_clicks rows self = (inr rows, self')
    /\ forall key, key ∈ metric_names ->
         get_thresholds self' !! key = Some (saved_bound key <$> rows).
Proof.
  intros Hne Hall Hexact.
  pose proof (frame_columns_complete rows Hne Hall) as Hcols.
  assert (Hcol : forall key, key ∈ metric_names ->
            to_dict_list rows !! key
            = Some (frame_column ((fun row : gmap string Cell => row !! key) <$> rows))).
  { intros key Hk. rewrite to_dict_list_lookup, Hcols.
    rewrite decide_True by exact Hk. reflexivity. }
  assert (Hint : forall key, key ∈ metric_names ->
            int_list (frame_column ((fun row : gmap string Cell => row !! key) <$> rows))
            = Some (saved_bound key <$> rows)).
  { intros key Hk. apply int_list_of_column. intros row Hrow.
    assert (Hsome : is_Some (row !! key))
      by (apply elem_of_dom; rewrite (Hall row Hrow); exact Hk).
    destruct Hsome as [c Hc]. exists c. split; [exact Hc |].
    apply (Hexact row key c Hrow Hc). }
  assert (Hkw : forall key,
            omap int_list (to_dict_list rows) !! key
            = if decide (key ∈ metric_names)
              then Some (saved_bound key <$> rows) else None).
  { intros key. rewrite lookup_omap, to_dict_list_lookup, Hcols.
    destruct (decide (key ∈ metric_names)) as [Hk | Hk]; [| reflexivity].
    simpl. apply Hint, Hk. }
  assert (Hdom : dom (omap int_list (to_dict_list rows)) = metric_names).
  { apply set_eq. intros key. rewrite elem_of_dom, Hkw.
    destruct (decide (key ∈ metric_names)) as [Hk | Hk].
    - split; [intros _; exact Hk | eauto].
    - split; [intros [? ?]; discriminate | contradiction]. }
  destruct (update_thresholds_accepts self _ Hdom) as (self' & Hup & Hget).
  exists self'. split.
  - unfold save_values. cbv zeta. rewrite decide_True.
    + rewrite Hup. reflexivity.
    + intros key col Hlook. rewrite to_dict_list_lookup, Hcols in Hlook.
      destruct (decide (key ∈ metric_names)) as [Hk | Hk]; [| discriminate].
      inversion Hlook; subst. rewrite (Hint key Hk). eauto.
  - intros key Hk. rewrite Hget, Hkw. rewrite decide_True by exact Hk. reflexivity.
Qed.

(** X28.  Whatever the table holds, saving either raises and leaves the
    thresholds as they were, or succeeds and leaves a set in which the
    range of every metric holds exactly as many bounds as the table has
    rows, all of them integers. *)
Theorem save_values_all_or_nothing n_clicks rows self :
  (forall e self', save_values n_clicks rows self = (inl e, self') -> self' = self)
  /\ (forall r self',
        save_values n_clicks rows self = (inr r, self') ->
        r = rows
        /\ forall key, key ∈ metric_names ->
             exists range,
               get_thresholds self' !! key = Some range
               /\ length range = length rows
               /\ Forall (fun q => exists z, q = inject_Z z) range).
Proof.
  unfold save_values. cbv zeta.
  destruct (decide (map_Forall (fun _ rdata => is_Some (int_list rdata))
                               (to_dict_list rows))) as [Hconv | Hconv].
  - destruct (update_thresholds self (omap int_list (to_dict_list rows)))
      as [[e | []] s] eqn:Hup.
    + split; [| intros r self' Heq; discriminate].
      intros e' self' Heq. inversion Heq; subst.
      apply (update_thresholds_error _ _ _ _ Hup).
    + split; [intros e self' Heq; discriminate |].
      intros r self' Heq. injection Heq as <- <-. split; [reflexivity |].
      destruct (update_thresholds_result _ _ _ Hup) as [Hdom Hget].
      intros key Hk.
      assert (Hsome : is_Some (omap int_list (to_dict_list rows) !! key))
        by (apply elem_of_dom; rewrite Hdom; exact Hk).
      destruct Hsome as [range Hrange]. exists range.
      split; [rewrite Hget; exact Hrange |].
      rewrite lookup_omap, to_dict_list_lookup in Hrange.
      destruct (decide (key ∈ frame_columns rows)); [| discriminate].
      simpl in Hrange. apply mapM_Some_1 in Hrange.
      split.
      * apply Forall2_length in Hrange.
        rewrite length_frame_column, length_fmap in Hrange. lia.
      * clear -Hrange. induction Hrange as [| cell q col range Hcell _ IH];
          constructor; [| exact IH].
        destruct cell as [q0 |]; [| discriminate].
        inversion Hcell. eauto.
  - split; [| intros r self' Heq; discriminate].
    intros e self' Heq. inversion Heq. reflexivity.
Qed.

Lemma edited_rows_complete :
  forall row, row ∈ edited_rows -> dom row = metric_names.
Proof.
  intros row Hin. unfold edited_rows in Hin.
  repeat (apply elem_of_cons in Hin as [-> | Hin];
          [ apply set_eq; intros key; rewrite metric_names_elem;
            rewrite !dom_insert_L, dom_empty_L;
            rewrite !elem_of_union, !elem_of_singleton, elem_of_empty; tauto |]).
  apply elem_of_nil in Hin. contradiction.
Qed.

Lemma edited_rows_exact row key c :
  row ∈ edited_rows -> row !! key = Some c -> is_double (cell_value c).
Proof.
  intros Hin Hc. unfold edited_rows in Hin.
  repeat (apply elem_of_cons in Hin as [-> | Hin];
          [ repeat (apply lookup_insert_Some in Hc as [[_ <-] | [_ Hc]];
                    [split; vm_compute; [reflexivity | discriminate] |]);
            rewrite lookup_empty in Hc; discriminate |]).
  apply elem_of_nil in Hin. contradiction.
Qed.

(** The temperature bounds -5.75 and 45.5 are stored as -5 and 45. *)
Example edited_rows_are_cut :
  saved_bound "temp" <$> edited_rows = [inject_Z (-5); inject_Z 45].
Proof. reflexivity. Qed.

(** The integer [2^53 + 1] in a column with a float is stored as [2^53];
    in a column of integers it is stored as it is. *)
Example mixed_column_is_rounded :
  int_list (frame_column mixed_column)
  = Some [inject_Z 0; inject_Z 9007199254740992]
  /\ int_list (frame_column integer_column)
     = Some [inject_Z 1; inject_Z 9007199254740993]
  /\ ~ is_double (inject_Z 9007199254740993).
Proof.
  split; [vm_compute; reflexivity |]. split; [vm_compute; reflexivity |].
  intros [Heq _]. vm_compute in Heq. discriminate.
Qed.

Lemma save_values_stores_columns_witness :
  edited_rows <> []
  /\ (forall row, row ∈ edited_rows -> dom row = metric_names)
  /\ (forall row key c, row ∈ edited_rows -> row !! key = Some c ->
        is_double (cell_value c))
  /\ exists self',
       save_values 1 edited_rows thresholds = (inr edited_rows, self')
       /\ forall key, key ∈ metric_names ->
            get_thresholds self' !! key = Some (saved_bound key <$> edited_rows).
Proof.
  assert (Hne : edited_rows <> []) by discriminate.
  split; [exact Hne |]. split; [exact edited_rows_complete |].
  split; [exact edited_rows_exact |].
  exact (save_values_stores_columns 1 edited_rows thresholds Hne
           edited_rows_complete edited_rows_exact).
Defined.

(** ** The pipeline: ingestion, evaluation, retention, aggregation *)

Section Pipeline.
Context `{PyRepr}.

Lemma check_metric_full weather_data (d : gmap string (list Q))
  v key trigger found exceeded range w :
d !! key = Some range -> has_bounds range ->
no_fault w -> clean w ->
exists w',
  check_metric weather_data d v key trigger found exceeded w = (inr tt, w')
  /\ no_fault w' /\ clean w'
  /\ alert_events w' =
       alert_events w ++ alert_of weather_data (trigger, found, v, range)
  /\ stdout w' = stdout w
       ++ (if outside v range then [exceeded +:+ wd_city weather_data] else [])
  /\ realtime_weather w' = realtime_weather w
  /\ daily_weather w' = daily_weather w.
Proof.
intros Hk Hb Hf Hc.
destruct (check_metric_ok weather_data d v key trigger found exceeded range w
            Hk Hb Hf Hc) as (w1 & R1 & Hf1 & Hc1 & A).
destruct (check_metric_runs weather_data d v key trigger found exceeded range w
            Hk Hb Hf Hc) as (w2 & R2 & _ & _ & O & Rt & D).
rewrite R1 in R2. injection R2 as <-.
exists w1. repeat split; assumption.
Qed.

Ltac run_full range Hb Hf Hc w1 R Hf1 Hc1 A O Rt D :=
match goal with
| |- context [bind (check_metric ?wd ?d ?v ?k ?tr ?fo ?ex) _ ?w] =>
    let Hl := fresh "Hl" in
    assert (Hl : d !! k = Some range) by reflexivity;
    destruct (check_metric_full wd d v k tr fo ex range w Hl Hb Hf Hc)
      as (w1 & R & Hf1 & Hc1 & A & O & Rt & D);
    rewrite (bind_inr _ _ _ _ _ R); clear Hl
| |- context [check_metric ?wd ?d ?v ?k ?tr ?fo ?ex ?w] =>
    let Hl := fresh "Hl" in
    assert (Hl : d !! k = Some range) by reflexivity;
    destruct (check_metric_full wd d v k tr fo ex range w Hl Hb Hf Hc)
      as (w1 & R & Hf1 & Hc1 & A & O & Rt & D);
    clear Hl
end.

Lemma evaluation_runs weather_data th w :
all_have_bounds th -> no_fault w -> clean w ->
exists w',
  check_data_against_alerts weather_data (get_thresholds th) w = (inr tt, w')
  /\ no_fault w' /\ clean w'
  /\ alert_events w' = alert_events w ++ expected_alerts weather_data th
  /\ stdout w' = stdout w ++ breach_lines weather_data th
  /\ realtime_weather w' = realtime_weather w
  /\ daily_weather w' = daily_weather w.
Proof.
intros (B1 & B2 & B3 & B4 & B5 & B6) Hf Hc.
unfold check_data_against_alerts.
run_full (th_temp th) B1 Hf Hc w1 R1 Hf1 Hc1 A1 O1 T1 D1.
run_full (th_feels_like th) B2 Hf1 Hc1 w2 R2 Hf2 Hc2 A2 O2 T2 D2.
run_full (th_pressure th) B3 Hf2 Hc2 w3 R3 Hf3 Hc3 A3 O3 T3 D3.
run_full (th_humidity th) B4 Hf3 Hc3 w4 R4 Hf4 Hc4 A4 O4 T4 D4.
run_full (th_rain th) B5 Hf4 Hc4 w5 R5 Hf5 Hc5 A5 O5 T5 D5.
run_full (th_clouds th) B6 Hf5 Hc5 w6 R6 Hf6 Hc6 A6 O6 T6 D6.
exists w6. split; [exact R6 |]. split; [exact Hf6 |]. split; [exact Hc6 |].
split; [| split; [| split; congruence]].
- rewrite A6, A5, A4, A3, A2, A1. unfold expected_alerts, metric_table. simpl.
  rewrite app_nil_r, <- !app_assoc. reflexivity.
- rewrite O6, O5, O4, O3, O2, O1. unfold breach_lines. simpl.
  rewrite app_nil_r, <- !app_assoc. reflexivity.
Qed.

Lemma insert_fetched_data_runs now (weather_data : WeatherData) w :
no_fault w -> clean w ->
exists w',
  insert_fetched_data now weather_data w = (inr tt, w')
  /\ no_fault w' /\ clean w'
  /\ realtime_weather w'
     = filter (fun r => now - timedelta_hours 24 <=? rw_dt r) (realtime_weather w)
       ++ [mkRealtimeWeather (wd_dt weather_data) (wd_main_condition weather_data)
             (wd_temp weather_data) (wd_feels_like weather_data)
             (wd_pressure weather_data) (wd_humidity weather_data)
             (wd_rain weather_data) (wd_clouds weather_data) (wd_city weather_data)]
  /\ daily_weather w' = daily_weather w
  /\ alert_events w' = alert_events w
  /\ stdout w' = stdout w.
Proof.
intros Hf Hc.
destruct (ingest_runs now (wd_dt weather_data) (wd_main_condition weather_data)
            (wd_temp weather_data) (wd_feels_like weather_data)
            (wd_pressure weather_data) (wd_humidity weather_data)
            (wd_rain weather_data) (wd_clouds weather_data) (wd_city weather_data)
            w Hf Hc) as (w1 & Hrun & Hrest).
exists w1. split; [| exact Hrest].
unfold insert_fetched_data, try_except. rewrite Hrun. reflexivity.
Qed.

(** X29.  Storing a reading and evaluating it can be done in either
  order.  On a session with nothing staged and no storage fault, the two
  orders both succeed and leave the same readings, the same alert
  events, the same daily summaries and the same output. *)
Theorem ingest_and_evaluation_commute now weather_data th w :
all_have_bounds th -> no_fault w -> clean w ->
exists w1 w2 w1' w2',
  insert_fetched_data now weather_data w = (inr tt, w1)
  /\ check_data_against_alerts weather_data (get_thresholds th) w1 = (inr tt, w2)
  /\ check_data_against_alerts weather_data (get_thresholds th) w = (inr tt, w1')
  /\ insert_fetched_data now weather_data w1' = (inr tt, w2')
  /\ realtime_weather w2 = realtime_weather w2'
  /\ alert_events w2 = alert_events w2'
  /\ daily_weather w2 = daily_weather w2'
  /\ stdout w2 = stdout w2'.
Proof.
intros Hb Hf Hc.
destruct (insert_fetched_data_runs now weather_data w Hf Hc)
  as (w1 & R1 & Hf1 & Hc1 & T1 & D1 & A1 & O1).
destruct (evaluation_runs weather_data th w1 Hb Hf1 Hc1)
  as (w2 & R2 & _ & _ & A2 & O2 & T2 & D2).
destruct (evaluation_runs weather_data th w Hb Hf Hc)
  as (w1' & R1' & Hf1' & Hc1' & A1' & O1' & T1' & D1').
destruct (insert_fetched_data_runs now weather_data w1' Hf1' Hc1')
  as (w2' & R2' & _ & _ & T2' & D2' & A2' & O2').
exists w1, w2, w1', w2'. repeat split; try assumption; congruence.
Qed.

End Pipeline.

Lemma ingest_and_evaluation_commute_witness :
  all_have_bounds thresholds /\ no_fault sample_world /\ clean sample_world /\
  exists w1 w2 w1' w2',
    insert_fetched_data (H := plain_repr) sample_now hot_reading sample_world
    = (inr tt, w1)
    /\ check_data_against_alerts (H := plain_repr) hot_reading
         (get_thresholds thresholds) w1 = (inr tt, w2)
    /\ check_data_against_alerts (H := plain_repr) hot_reading
         (get_thresholds thresholds) sample_world = (inr tt, w1')
    /\ insert_fetched_data (H := plain_repr) sample_now hot_reading w1' = (inr tt, w2')
    /\ realtime_weather w2 = realtime_weather w2'
    /\ alert_events w2 = alert_events w2'
    /\ daily_weather w2 = daily_weather w2'
    /\ stdout w2 = stdout w2'.
Proof.
  split; [exact thresholds_have_bounds |]. split; [constructor |].
  split; [reflexivity |].
  apply (ingest_and_evaluation_commute (H := plain_repr) sample_now hot_reading
           thresholds sample_world);
    [exact thresholds_have_bounds | constructor | reflexivity].
Defined.

Lemma filter_filter_spared today cutoff (rows : list RealtimeWeather) :
  cutoff <= combine_min today ->
  readings_of_day today (filter (fun r => cutoff <=? rw_dt r) rows)
  = readings_of_day today rows.
Proof.
  intros Hle. unfold readings_of_day.
  induction rows as [| r rows IH]; [reflexivity |].
  rewrite (filter_cons (fun r => cutoff <=? rw_dt r)).
  rewrite (filter_cons _ r rows).
  destruct (decide (cutoff <=? rw_dt r)) as [Hk | Hk].
  - rewrite filter_cons, IH. reflexivity.
  - rewrite IH. rewrite decide_False; [reflexivity |].
    intros Hday. apply Hk. apply andb_True in Hday as [Hlo _].
    apply Is_true_true, Z.leb_le in Hlo. apply Is_true_true, Z.leb_le. lia.
Qed.

(** X30.  The retention never takes a reading of the running day.  A
    cleanup, or an ingest call, whose clock reading lies in day [today]
    leaves every stored reading dated [today] in place, so that an
    aggregation of that day still finds all of them. *)
Theorem retention_spares_today now dt mc t fl p h r c city w :
  no_fault w -> clean w ->
  let today := date_of now in
  exists w1 w2,
    cleanup_old_realtime_weather now w = (inr tt, w1)
    /\ readings_of_day today (realtime_weather w1)
       = readings_of_day today (realtime_weather w)
    /\ insert_realtime_weather now dt mc t fl p h r c city w = (inr tt, w2)
    /\ readings_of_day today (realtime_weather w2)
       = readings_of_day today (realtime_weather w)
         ++ readings_of_day today [mkRealtimeWeather dt mc t fl p h r c city].
Proof.
  intros Hf Hc today.
  destruct (cleanup_runs now w Hf Hc) as (w1 & R1 & _ & _ & T1 & _).
  destruct (ingest_runs now dt mc t fl p h r c city w Hf Hc)
    as (w2 & R2 & _ & _ & T2 & _).
  assert (Hcut : now - timedelta_hours 24 <= combine_min today).
  { subst today. unfold combine_min, date_of.
    pose proof microseconds_per_day_pos as Hpos.
    pose proof (Z.mul_succ_div_gt now _ Hpos) as Hgt.
    change (timedelta_hours 24) with microseconds_per_day. lia. }
  exists w1, w2. split; [exact R1 |].
  split; [rewrite T1; apply filter_filter_spared, Hcut |].
  split; [exact R2 |].
  rewrite T2. unfold readings_of_day at 1. rewrite filter_app.
  fold (readings_of_day today
          (filter (fun r0 => now - timedelta_hours 24 <=? rw_dt r0) (realtime_weather w))).
  rewrite (filter_filter_spared today _ _ Hcut). reflexivity.
Qed.

Lemma retention_spares_today_witness :
  no_fault aggregation_world /\ clean aggregation_world /\
  exists w1 w2,
    cleanup_old_realtime_weather (day2 23) aggregation_world = (inr tt, w1)
    /\ readings_of_day (date_of (day2 23)) (realtime_weather w1)
       = readings_of_day (date_of (day2 23)) (realtime_weather aggregation_world)
    /\ insert_realtime_weather (day2 23) (day2 22) "Rain" 18%Q 17%Q 990%Q 80%Q
         2%Q 90%Q "Delhi" aggregation_world = (inr tt, w2)
    /\ readings_of_day (date_of (day2 23)) (realtime_weather w2)
       = readings_of_day (date_of (day2 23)) (realtime_weather aggregation_world)
         ++ readings_of_day (date_of (day2 23))
              [mkRealtimeWeather (day2 22) "Rain" 18%Q 17%Q 990%Q 80%Q 2%Q 90%Q "Delhi"].
Proof.
  split; [constructor |]. split; [reflexivity |].
  apply (retention_spares_today (day2 23) (day2 22) "Rain" 18%Q 17%Q 990%Q 80%Q
           2%Q 90%Q "Delhi" aggregation_world);
    [constructor | reflexivity].
Defined.
